(** * Caverns of Aether: a shallow embedding of the simulation core

    The development follows the Python package [aether]: one module per
    source file ([utils.py], [components.py], [status.py], [combat.py],
    [mapgen.py], [path.py], [ai.py], [inventory.py], [loot.py],
    [serialization.py]), each function translated as it is written.
    Python integers are [Z]; lists are [list]; a [dict] used as a small
    table is an association list in insertion order; a call that can raise
    returns an [outcome].  Where a method changes objects that a list
    holds by reference ([StatusTracker.tick], [Inventory.remove]), the
    list holds references into a store.  Python floats are exact rationals
    ([Q]): the binary64 rounding of a product is not part of the model. *)

From Stdlib Require Import ZArith List String Bool Lia QArith Qround Qminmax Permutation.
Import ListNotations.
Open Scope Z_scope.

(** ** Python values, exceptions and results *)

Inductive exn : Type :=
| RuntimeError (msg : string)
| IndexError
| ValueError
| KeyError (key : string).

(** A call returns a value, raises, or (for the loops that are bounded by a
    step budget in this model) runs out of that budget. *)
Inductive outcome (A : Type) : Type :=
| Ok (a : A)
| Raise (e : exn)
| OutOfFuel.

Arguments Ok {A} a.
Arguments Raise {A} e.
Arguments OutOfFuel {A}.

Definition obind {A B : Type} (c : outcome A) (k : A -> outcome B) : outcome B :=
  match c with
  | Ok a => k a
  | Raise e => Raise e
  | OutOfFuel => OutOfFuel
  end.

Notation "'let?' x := c 'in' k" := (obind c (fun x => k))
  (at level 10, x pattern, c at level 100, k at level 200).

(** [int(q)] on a float: truncation toward zero. *)
Definition py_int (q : Q) : Z := Z.quot (Qnum q) (Zpos (Qden q)).

(** [d.get(k)] on a dict kept as an association list. *)
Fixpoint dict_get {V : Type} (d : list (string * V)) (k : string) : option V :=
  match d with
  | [] => None
  | (k', v) :: rest => if String.eqb k' k then Some v else dict_get rest k
  end.

Definition dict_get_default {V : Type} (d : list (string * V)) (k : string) (dflt : V) : V :=
  match dict_get d k with
  | Some v => v
  | None => dflt
  end.

(** ** random.Random

    The interface of Python's [random.Random] that the package uses.  A
    generator is a state with a seeding function and the core 32-bit draw;
    [random], [getrandbits], [_randbelow], [randrange], [randint], [uniform]
    and [shuffle] are derived from the core draw as CPython derives them. *)
Module PyRandom.

Record generator : Type := mkGenerator {
  state : Type;
  seed : Z -> state;
  genrand_uint32 : state -> Z * state
}.

Section Methods.
Variable R : generator.

(** [random()]: 53 bits from two draws, as a fraction of 2^53. *)
Definition random53 (st : state R) : Z * state R :=
  let (a, st1) := genrand_uint32 R st in
  let (b, st2) := genrand_uint32 R st1 in
  (Z.shiftr a 5 * 67108864 + Z.shiftr b 6, st2).

Definition random (st : state R) : Q * state R :=
  let (n, st') := random53 st in (n # 9007199254740992, st').

Definition uniform (a b : Q) (st : state R) : Q * state R :=
  let (u, st') := random st in (a + (b - a) * u, st')%Q.

(** [getrandbits(k)] for [k >= 1]: whole words first (least significant
    first), the last word shifted down to the bits still wanted. *)
Fixpoint getrandbits_words (words : nat) (k : Z) (st : state R) : Z * state R :=
  match words with
  | O => (0, st)
  | S w =>
      let (r, st1) := genrand_uint32 R st in
      let r' := if k <? 32 then Z.shiftr r (32 - k) else r in
      let (hi, st2) := getrandbits_words w (k - 32) st1 in
      (r' + 4294967296 * hi, st2)
  end.

Definition getrandbits (k : Z) (st : state R) : Z * state R :=
  if k <=? 32 then
    let (r, st1) := genrand_uint32 R st in (Z.shiftr r (32 - k), st1)
  else getrandbits_words (Z.to_nat ((k - 1) / 32 + 1)) k st.

Definition bit_length (n : Z) : Z := if n =? 0 then 0 else Z.log2 (Z.abs n) + 1.

(** [_randbelow(n)]: draw [bit_length n] bits until the value is below [n].
    The loop is bounded here by [fuel] rounds. *)
Fixpoint randbelow_loop (fuel : nat) (n k : Z) (st : state R) : outcome (Z * state R) :=
  match fuel with
  | O => OutOfFuel
  | S fuel' =>
      let (r, st1) := getrandbits k st in
      if r <? n then Ok (r, st1) else randbelow_loop fuel' n k st1
  end.

Definition randbelow_fuel : nat := 4096.

Definition randbelow (n : Z) (st : state R) : outcome (Z * state R) :=
  randbelow_loop randbelow_fuel n (bit_length n) st.

(** [randrange(n)] and [randrange(start, stop)]: an empty range raises. *)
Definition randrange (n : Z) (st : state R) : outcome (Z * state R) :=
  if 0 <? n then randbelow n st else Raise ValueError.

Definition randint (a b : Z) (st : state R) : outcome (Z * state R) :=
  let width := b + 1 - a in
  if 0 <? width then
    let? (r, st1) := randbelow width st in Ok (a + r, st1)
  else Raise ValueError.

(** [x[i], x[j] = x[j], x[i]] for in-range [i] and [j]. *)
Definition swap {A : Type} (l : list A) (i j : nat) : list A :=
  match nth_error l i, nth_error l j with
  | Some a, Some b =>
      let l1 := firstn i l ++ b :: skipn (S i) l in
      firstn j l1 ++ a :: skipn (S j) l1
  | _, _ => l
  end.

(** [shuffle(x)]: for [i] from [len(x) - 1] down to 1, swap [x[i]] with
    [x[_randbelow(i + 1)]]. *)
Fixpoint shuffle_from {A : Type} (i : nat) (l : list A) (st : state R)
  : outcome (list A * state R) :=
  match i with
  | O => Ok (l, st)
  | S i' =>
      let? (j, st1) := randbelow (Z.of_nat i + 1) st in
      shuffle_from i' (swap l i (Z.to_nat j)) st1
  end.

Definition shuffle {A : Type} (l : list A) (st : state R) : outcome (list A * state R) :=
  shuffle_from (List.length l - 1) l st.

End Methods.
End PyRandom.

(** ** settings.py *)
Module Settings.

Definition MAP_WIDTH : Z := 48.
Definition MAP_HEIGHT : Z := 32.
Definition MAX_FLOORS : Z := 8.
Definition STATUS_DURATION_DEFAULT : Z := 6.
Definition ELEMENTS : list string :=
  ["physical"; "fire"; "ice"; "poison"; "shock"]%string.

End Settings.

(** ** components.py *)
Module Components.

Record Stats : Type := mkStats {
  max_hp : Z;
  hp : Z;
  max_mp : Z;
  mp : Z;
  atk : Z;
  defense : Z;
  evasion : Z;
  speed : Z;
  xp : Z;
  level : Z;
  resistances : list (string * Q)
}.

Definition default_resistances : list (string * Q) :=
  map (fun el => (el, 0%Q)) Settings.ELEMENTS.

Definition set_hp (s : Stats) (v : Z) : Stats :=
  mkStats (max_hp s) v (max_mp s) (mp s) (atk s) (defense s) (evasion s)
          (speed s) (xp s) (level s) (resistances s).

(** [Stats.take_damage]: the returned value is [mitigated]. *)
Definition take_damage (s : Stats) (amount : Z) (element : string) : Z * Stats :=
  let resist := dict_get_default (resistances s) element 0%Q in
  let mitigated := py_int (inject_Z amount * Qmax 0 (1 - resist))%Q in
  (mitigated, set_hp s (Z.max 0 (hp s - mitigated))).

(** [Stats.heal]: the returned value is the change of [hp]. *)
Definition heal (s : Stats) (amount : Z) : Z * Stats :=
  let before := hp s in
  let after := Z.min (max_hp s) (hp s + amount) in
  (after - before, set_hp s after).

Record Item : Type := mkItem {
  item_name : string;
  item_slot : option string;
  stackable : bool;
  quantity : Z;
  identified : bool;
  cursed : bool;
  durability : option Z;
  power : Z;
  item_element : string;
  description : string
}.

Definition set_quantity (it : Item) (q : Z) : Item :=
  mkItem (item_name it) (item_slot it) (stackable it) q (identified it)
         (cursed it) (durability it) (power it) (item_element it) (description it).

Record Inventory : Type := mkInventory {
  inv_width : Z;
  inv_height : Z;
  items : list Item
}.

Definition capacity (inv : Inventory) : Z := inv_width inv * inv_height inv.

(** The test of the loop in [Inventory.add]. *)
Definition stack_match (stored item : Item) : bool :=
  String.eqb (item_name stored) (item_name item)
  && Bool.eqb (identified stored) (identified item).

(** The loop of [Inventory.add]: the first stored entry that passes the
    test takes the incoming quantity; [None] when the loop falls through. *)
Fixpoint merge_into (stored_items : list Item) (item : Item) : option (list Item) :=
  match stored_items with
  | [] => None
  | stored :: rest =>
      if stack_match stored item
      then Some (set_quantity stored (quantity stored + quantity item) :: rest)
      else option_map (cons stored) (merge_into rest item)
  end.

Definition Inventory_add (inv : Inventory) (item : Item) : bool * Inventory :=
  match (if stackable item then merge_into (items inv) item else None) with
  | Some merged => (true, mkInventory (inv_width inv) (inv_height inv) merged)
  | None =>
      if capacity inv <=? Z.of_nat (List.length (items inv)) then (false, inv)
      else (true, mkInventory (inv_width inv) (inv_height inv) (items inv ++ [item]))
  end.

Record StatusEffect : Type := mkStatusEffect {
  status_name : string;
  duration : Z;
  potency : Z;
  status_element : string
}.

(** A [StatusTracker] is its list [statuses]. *)
Definition StatusTracker : Type := list StatusEffect.

(** [StatusTracker.add]: the first entry of the same name is refreshed to
    the larger duration and potency; without one the effect is appended. *)
Fixpoint StatusTracker_add (statuses : StatusTracker) (effect : StatusEffect) : StatusTracker :=
  match statuses with
  | [] => [effect]
  | existing :: rest =>
      if String.eqb (status_name existing) (status_name effect)
      then mkStatusEffect (status_name existing)
                          (Z.max (duration existing) (duration effect))
                          (Z.max (potency existing) (potency effect))
                          (status_element existing) :: rest
      else existing :: StatusTracker_add rest effect
  end.

(** [Energy]. *)
Record Energy : Type := mkEnergy { current : Z; recovery : Z }.

Definition Energy_gain (e : Energy) (amount : Z) : Energy :=
  mkEnergy (current e + amount) (recovery e).

Definition Energy_spend (e : Energy) (amount : Z) : bool * Energy :=
  if amount <=? current e then (true, mkEnergy (current e - amount) (recovery e))
  else (false, e).

(** *** Objects shared between a list and its caller

    [StatusTracker.tick] and [Inventory.remove] change objects that the
    list holds and then look them up again by value ([list.remove]).  For
    these two the list holds references into a store of objects, so that
    two equal objects and one object held twice stay apart. *)
Definition ref : Type := nat.

Definition store (A : Type) : Type := ref -> A.

Definition store_set {A : Type} (s : store A) (r : ref) (v : A) : store A :=
  fun r' => if Nat.eqb r' r then v else s r'.

(** [x in l] and [l.remove(x)] on a list of objects: an element matches
    when it is [x] itself or equal to it; [remove] drops the first match
    and raises ValueError ([None] here) without one. *)
Definition list_contains {A : Type} (eqb : A -> A -> bool) (s : store A) (x : ref)
           (l : list ref) : bool :=
  existsb (fun r => Nat.eqb r x || eqb (s r) (s x)) l.

Fixpoint list_remove {A : Type} (eqb : A -> A -> bool) (s : store A) (x : ref)
         (l : list ref) : option (list ref) :=
  match l with
  | [] => None
  | r :: rest =>
      if Nat.eqb r x || eqb (s r) (s x) then Some rest
      else option_map (cons r) (list_remove eqb s x rest)
  end.

(** The [==] that [dataclass] gives [Item] and [StatusEffect]: all fields. *)
Definition option_eqb {A : Type} (eqb : A -> A -> bool) (a b : option A) : bool :=
  match a, b with
  | Some x, Some y => eqb x y
  | None, None => true
  | _, _ => false
  end.

Definition Item_eqb (a b : Item) : bool :=
  String.eqb (item_name a) (item_name b)
  && option_eqb String.eqb (item_slot a) (item_slot b)
  && Bool.eqb (stackable a) (stackable b)
  && (quantity a =? quantity b)
  && Bool.eqb (identified a) (identified b)
  && Bool.eqb (cursed a) (cursed b)
  && option_eqb Z.eqb (durability a) (durability b)
  && (power a =? power b)
  && String.eqb (item_element a) (item_element b)
  && String.eqb (description a) (description b).

Definition StatusEffect_eqb (a b : StatusEffect) : bool :=
  String.eqb (status_name a) (status_name b)
  && (duration a =? duration b)
  && (potency a =? potency b)
  && String.eqb (status_element a) (status_element b).

(** [Inventory.remove] on the list [items] of an inventory: [item] is the
    object passed, stored or not. *)
Definition Inventory_remove (stored : list ref) (s : store Item) (item : ref)
  : outcome (list ref * store Item) :=
  if list_contains Item_eqb s item stored then
    if stackable (s item) && (1 <? quantity (s item)) then
      Ok (stored, store_set s item (set_quantity (s item) (quantity (s item) - 1)))
    else
      match list_remove Item_eqb s item stored with
      | Some stored' => Ok (stored', s)
      | None => Raise ValueError
      end
  else Ok (stored, s).

Definition set_duration (e : StatusEffect) (d : Z) : StatusEffect :=
  mkStatusEffect (status_name e) d (potency e) (status_element e).

(** The loop of [StatusTracker.tick] over the copy [list(self.statuses)]:
    the result is the list left, the store and the expired effects. *)
Fixpoint tick_loop (snapshot statuses : list ref) (s : store StatusEffect)
         (expired : list ref) : outcome (list ref * store StatusEffect * list ref) :=
  match snapshot with
  | [] => Ok (statuses, s, expired)
  | effect :: rest =>
      let s1 := store_set s effect (set_duration (s effect) (duration (s effect) - 1)) in
      if duration (s1 effect) <=? 0 then
        match list_remove StatusEffect_eqb s1 effect statuses with
        | Some statuses1 => tick_loop rest statuses1 s1 (expired ++ [effect])
        | None => Raise ValueError
        end
      else tick_loop rest statuses s1 expired
  end.

Definition StatusTracker_tick (statuses : list ref) (s : store StatusEffect)
  : outcome (list ref * store StatusEffect * list ref) :=
  tick_loop statuses statuses s [].

(** [Equipment]: the five slots, and whatever other attribute [setattr]
    was given (names that the class itself defines, methods and special
    attributes, are left out of the model). *)
Record Equipment : Type := mkEquipment {
  weapon : option Item;
  armor : option Item;
  ring_left : option Item;
  ring_right : option Item;
  charm : option Item;
  other_attrs : list (string * option Item)
}.

Definition empty_equipment : Equipment := mkEquipment None None None None None [].

(** [Equipment.slots()]. *)
Definition Equipment_slots (e : Equipment) : list (string * option Item) :=
  [ ("weapon", weapon e); ("armor", armor e); ("ring_left", ring_left e);
    ("ring_right", ring_right e); ("charm", charm e) ]%string.

Fixpoint attrs_set (d : list (string * option Item)) (k : string) (v : option Item)
  : list (string * option Item) :=
  match d with
  | [] => [(k, v)]
  | (k', v') :: rest =>
      if String.eqb k' k then (k', v) :: rest else (k', v') :: attrs_set rest k v
  end.

(** [getattr(equipment, slot, None)] and [setattr(equipment, slot, v)]. *)
Definition Equipment_getattr (e : Equipment) (slot : string) : option Item :=
  if String.eqb slot "weapon" then weapon e
  else if String.eqb slot "armor" then armor e
  else if String.eqb slot "ring_left" then ring_left e
  else if String.eqb slot "ring_right" then ring_right e
  else if String.eqb slot "charm" then charm e
  else dict_get_default (other_attrs e) slot None.

Definition Equipment_setattr (e : Equipment) (slot : string) (v : option Item) : Equipment :=
  if String.eqb slot "weapon"
  then mkEquipment v (armor e) (ring_left e) (ring_right e) (charm e) (other_attrs e)
  else if String.eqb slot "armor"
  then mkEquipment (weapon e) v (ring_left e) (ring_right e) (charm e) (other_attrs e)
  else if String.eqb slot "ring_left"
  then mkEquipment (weapon e) (armor e) v (ring_right e) (charm e) (other_attrs e)
  else if String.eqb slot "ring_right"
  then mkEquipment (weapon e) (armor e) (ring_left e) v (charm e) (other_attrs e)
  else if String.eqb slot "charm"
  then mkEquipment (weapon e) (armor e) (ring_left e) (ring_right e) v (other_attrs e)
  else mkEquipment (weapon e) (armor e) (ring_left e) (ring_right e) (charm e)
                   (attrs_set (other_attrs e) slot v).

End Components.

(** ** status.py *)
Module Status.
Import Components.

(** [STATUS_TEMPLATES]: name, element, potency. *)
Definition STATUS_TEMPLATES : list (string * (string * Z)) :=
  [ ("bleed", ("physical", 2)); ("burn", ("fire", 3)); ("freeze", ("ice", 2));
    ("poison", ("poison", 2)); ("shock", ("shock", 2)); ("slow", ("physical", 0));
    ("haste", ("physical", 0)) ]%string.

(** [apply_status]: [duration or STATUS_DURATION_DEFAULT] takes the default
    for [None] and for 0. *)
Definition apply_status (tracker : StatusTracker) (name : string)
           (dur : option Z) (pot : option Z) : outcome StatusTracker :=
  match dict_get STATUS_TEMPLATES name with
  | None => Raise (KeyError name)
  | Some (el, template_potency) =>
      let d := match dur with
               | Some v => if v =? 0 then Settings.STATUS_DURATION_DEFAULT else v
               | None => Settings.STATUS_DURATION_DEFAULT
               end in
      let p := match pot with Some v => v | None => template_potency end in
      Ok (StatusTracker_add tracker (mkStatusEffect name d p el))
  end.

(** [d[k] = v] on a dict with string keys, kept in insertion order. *)
Fixpoint dict_set {V : Type} (d : list (string * V)) (k : string) (v : V)
  : list (string * V) :=
  match d with
  | [] => [(k, v)]
  | (k', v') :: rest =>
      if String.eqb k' k then (k', v) :: rest else (k', v') :: dict_set rest k v
  end.

(** The loop of [tick_statuses] over the effects that are left. *)
Definition ongoing_damage (stats : Stats) (effect : StatusEffect) : Stats :=
  if String.eqb (status_name effect) "bleed"
  then snd (take_damage stats (potency effect) "physical")
  else if String.eqb (status_name effect) "burn"
  then snd (take_damage stats (potency effect) "fire")
  else if String.eqb (status_name effect) "poison"
  then snd (take_damage stats (potency effect) "poison")
  else stats.

(** [tick_statuses]: the stats and the tracker after the call, and the
    returned dict of the expired effects by name. *)
Definition tick_statuses (stats : Stats) (statuses : list ref) (s : store StatusEffect)
  : outcome (Stats * list ref * store StatusEffect * list (string * ref)) :=
  let? (remaining, s1, expired) := StatusTracker_tick statuses s in
  let stats' := fold_left (fun st r => ongoing_damage st (s1 r)) remaining stats in
  Ok (stats', remaining, s1,
      fold_left (fun d r => dict_set d (status_name (s1 r)) r) expired []).

(** [base_resistances]. *)
Definition base_resistances (archetype : string) : list (string * Q) :=
  dict_get_default
    [ ("player", [("physical", 5 # 100)]);
      ("brute", [("physical", 1 # 10)]);
      ("skirmisher", [("shock", 1 # 10)]);
      ("ranged", [("fire", 5 # 100)]);
      ("summoner", [("poison", 2 # 10)]);
      ("sapper", [("physical", 5 # 100); ("poison", 1 # 10)]);
      ("boss", [("fire", 15 # 100); ("ice", 15 # 100); ("poison", 15 # 100)]) ]%string
    archetype [].

End Status.

(** ** combat.py *)
Module Combat.
Import Components.

Record AttackResult : Type := mkAttackResult {
  damage : Z;
  attack_element : string;
  critical : bool;
  status_applied : option string
}.

Section WithGenerator.
Variable R : PyRandom.generator.

(** The loop over [status_chance.items()]: the first name whose roll
    succeeds is applied and ends the loop. *)
Fixpoint roll_statuses (chances : list (string * Q)) (tracker : StatusTracker)
         (st : PyRandom.state R)
  : outcome (option string * StatusTracker * PyRandom.state R) :=
  match chances with
  | [] => Ok (None, tracker, st)
  | (status, chance) :: rest =>
      let (u, st1) := PyRandom.random R st in
      if Qlt_le_dec u chance then
        let? tracker' := Status.apply_status tracker status None None in
        Ok (Some status, tracker', st1)
      else roll_statuses rest tracker st1
  end.

(** [resolve_attack]; the attacker's tracker is never read.  The result is
    the attack record, the defender after the hit, the defender's tracker
    and the generator state. *)
Definition resolve_attack (attacker defender : Stats)
           (defender_status : option StatusTracker) (st : PyRandom.state R)
           (element : string) (base_damage : option (Z * Z)) (crit_chance : Q)
           (status_chance : list (string * Q))
  : outcome (AttackResult * Stats * option StatusTracker * PyRandom.state R) :=
  let (base_low, base_high) :=
    match base_damage with
    | Some b => b
    | None => (atk attacker / 2, atk attacker)
    end in
  let? (raw, st1) := PyRandom.randint R (Z.max 1 base_low) (Z.max base_low base_high) st in
  let (variance, st2) := PyRandom.uniform R (85 # 100) (115 # 100) st1 in
  let dmg := py_int (inject_Z raw * variance)%Q in
  let mitigated := Z.max 0 (dmg - defense defender) in
  let (u, st3) := PyRandom.random R st2 in
  let crit := if Qlt_le_dec u crit_chance then true else false in
  let mitigated :=
    if crit
    then py_int (inject_Z mitigated * (3 # 2) + inject_Z (atk attacker) * (1 # 4))%Q
    else mitigated in
  let (dealt, defender') := take_damage defender mitigated element in
  match status_chance, defender_status with
  | _ :: _, Some tracker =>
      let? (applied, tracker', st4) := roll_statuses status_chance tracker st3 in
      Ok (mkAttackResult dealt element crit applied, defender', Some tracker', st4)
  | _, _ =>
      Ok (mkAttackResult dealt element crit None, defender', defender_status, st3)
  end.

End WithGenerator.

(** [gain_xp]. *)
Definition gain_xp (stats : Stats) (reward : Z) : bool * Stats :=
  let xp1 := xp stats + reward in
  let threshold := 10 + level stats * 5 in
  if threshold <=? xp1 then
    (true, mkStats (max_hp stats + 4) (max_hp stats + 4)
                   (max_mp stats + 2) (max_mp stats + 2)
                   (atk stats + 1) (defense stats + 1)
                   (evasion stats) (speed stats)
                   (xp1 - threshold) (level stats + 1) (resistances stats))
  else
    (false, mkStats (max_hp stats) (hp stats) (max_mp stats) (mp stats)
                    (atk stats) (defense stats) (evasion stats) (speed stats)
                    xp1 (level stats) (resistances stats)).

(** The names in [{"bleed", "burn", "poison"}]. *)
Definition is_damaging (name : string) : bool :=
  String.eqb name "bleed" || String.eqb name "burn" || String.eqb name "poison".

(** [apply_status_damage]: the stats after the call and the returned log. *)
Fixpoint status_damage_loop (stats : Stats) (statuses : StatusTracker)
         (damage_log : list (string * Z)) : Stats * list (string * Z) :=
  match statuses with
  | [] => (stats, damage_log)
  | effect :: rest =>
      if is_damaging (status_name effect) then
        let (dmg, stats') := take_damage stats (potency effect) (status_element effect) in
        status_damage_loop stats' rest (Status.dict_set damage_log (status_name effect) dmg)
      else status_damage_loop stats rest damage_log
  end.

Definition apply_status_damage (stats : Stats) (tracker : StatusTracker)
  : Stats * list (string * Z) :=
  status_damage_loop stats tracker [].

End Combat.

(** ** The Mersenne Twister of CPython's [random.Random] *)
Module MT19937.

Definition N : nat := 624.
Definition M : nat := 397.
Definition MATRIX_A : Z := 2567483615.
Definition UPPER_MASK : Z := 2147483648.
Definition LOWER_MASK : Z := 2147483647.
Definition u32 (z : Z) : Z := z mod 4294967296.

Record mt_state : Type := mkState { mt : list Z; index : nat }.

Fixpoint list_set {A : Type} (l : list A) (i : nat) (v : A) : list A :=
  match l, i with
  | [], _ => []
  | _ :: t, O => v :: t
  | h :: t, S i' => h :: list_set t i' v
  end.

Definition word (l : list Z) (i : nat) : Z := nth i l 0.

(** [init_genrand]. *)
Fixpoint init_genrand_loop (n : nat) (mti : Z) (prev : Z) : list Z :=
  match n with
  | O => []
  | S n' =>
      let v := u32 (1812433253 * Z.lxor prev (Z.shiftr prev 30) + mti) in
      v :: init_genrand_loop n' (mti + 1) v
  end.

Definition init_genrand (s : Z) : list Z :=
  u32 s :: init_genrand_loop (N - 1) 1 (u32 s).

(** The two loops of [init_by_array]. *)
Fixpoint init_key_loop (k : nat) (i j : nat) (key : list Z) (mt : list Z) : nat * list Z :=
  match k with
  | O => (i, mt)
  | S k' =>
      let prev := word mt (i - 1) in
      let v := u32 (Z.lxor (word mt i) (u32 (Z.lxor prev (Z.shiftr prev 30) * 1664525))
                    + word key j + Z.of_nat j) in
      let mt1 := list_set mt i v in
      let i1 := S i in
      let j1 := S j in
      let mt2 := if (N <=? i1)%nat then list_set mt1 0 (word mt1 (N - 1)) else mt1 in
      let i2 := if (N <=? i1)%nat then 1%nat else i1 in
      let j2 := if (List.length key <=? j1)%nat then O else j1 in
      init_key_loop k' i2 j2 key mt2
  end.

Fixpoint init_index_loop (k : nat) (i : nat) (mt : list Z) : list Z :=
  match k with
  | O => mt
  | S k' =>
      let prev := word mt (i - 1) in
      let v := u32 (Z.lxor (word mt i) (u32 (Z.lxor prev (Z.shiftr prev 30) * 1566083941))
                    - Z.of_nat i) in
      let mt1 := list_set mt i v in
      let i1 := S i in
      let mt2 := if (N <=? i1)%nat then list_set mt1 0 (word mt1 (N - 1)) else mt1 in
      let i2 := if (N <=? i1)%nat then 1%nat else i1 in
      init_index_loop k' i2 mt2
  end.

Definition init_by_array (key : list Z) : mt_state :=
  let mt0 := init_genrand 19650218 in
  let (i, mt1) := init_key_loop (Nat.max N (List.length key)) 1 0 key mt0 in
  let mt2 := init_index_loop (N - 1) i mt1 in
  mkState (list_set mt2 0 2147483648) N.

(** The key of an integer seed: the 32-bit words of its absolute value,
    least significant first; one zero word for 0. *)
Fixpoint key_words (fuel : nat) (n : Z) : list Z :=
  match fuel with
  | O => []
  | S fuel' =>
      if n <? 4294967296 then [n]
      else (n mod 4294967296) :: key_words fuel' (n / 4294967296)
  end.

Definition seed (a : Z) : mt_state :=
  let n := Z.abs a in
  init_by_array (key_words (S (Z.to_nat (Z.log2 n / 32))) n).

(** The regeneration of the 624 words, in place and in index order: the
    three loops of the C source are one loop with indices modulo 624. *)
Fixpoint twist_loop (n : nat) (kk : nat) (mt : list Z) : list Z :=
  match n with
  | O => mt
  | S n' =>
      let y := Z.lor (Z.land (word mt kk) UPPER_MASK)
                     (Z.land (word mt (Nat.modulo (kk + 1) N)) LOWER_MASK) in
      let v := Z.lxor (Z.lxor (word mt (Nat.modulo (kk + M) N)) (Z.shiftr y 1))
                      (if Z.odd y then MATRIX_A else 0) in
      twist_loop n' (S kk) (list_set mt kk v)
  end.

Definition temper (y0 : Z) : Z :=
  let y1 := Z.lxor y0 (Z.shiftr y0 11) in
  let y2 := Z.lxor y1 (Z.land (Z.shiftl y1 7) 2636928640) in
  let y3 := Z.lxor y2 (Z.land (Z.shiftl y2 15) 4022730752) in
  Z.lxor y3 (Z.shiftr y3 18).

Definition genrand_uint32 (st : mt_state) : Z * mt_state :=
  let st1 := if (N <=? index st)%nat then mkState (twist_loop N 0 (mt st)) 0 else st in
  (temper (word (mt st1) (index st1)), mkState (mt st1) (S (index st1))).

Definition generator : PyRandom.generator :=
  PyRandom.mkGenerator mt_state seed genrand_uint32.

End MT19937.

(** ** numpy arrays of rank 2

    An array of shape (height, width) is the list of its rows.  An index
    [i] into an axis of length [n] is valid for [-n <= i < n], a negative
    one counting from the end; any other raises [IndexError]. *)
Module Numpy.

Definition array (A : Type) : Type := list (list A).

Definition np_index (n i : Z) : option nat :=
  if (0 <=? i) && (i <? n) then Some (Z.to_nat i)
  else if (- n <=? i) && (i <? 0) then Some (Z.to_nat (i + n))
  else None.

Definition len {A : Type} (l : list A) : Z := Z.of_nat (List.length l).

Fixpoint list_set {A : Type} (l : list A) (i : nat) (v : A) : list A :=
  match l, i with
  | [], _ => []
  | _ :: t, O => v :: t
  | h :: t, S i' => h :: list_set t i' v
  end.

(** [a[y, x]]. *)
Definition get {A : Type} (a : array A) (y x : Z) : outcome A :=
  match np_index (len a) y with
  | None => Raise IndexError
  | Some r =>
      match nth_error a r with
      | None => Raise IndexError
      | Some row =>
          match np_index (len row) x with
          | None => Raise IndexError
          | Some c =>
              match nth_error row c with
              | None => Raise IndexError
              | Some v => Ok v
              end
          end
      end
  end.

(** [a[y, x] = v]. *)
Definition set {A : Type} (a : array A) (y x : Z) (v : A) : outcome (array A) :=
  match np_index (len a) y with
  | None => Raise IndexError
  | Some r =>
      match nth_error a r with
      | None => Raise IndexError
      | Some row =>
          match np_index (len row) x with
          | None => Raise IndexError
          | Some c => Ok (list_set a r (list_set row c v))
          end
      end
  end.

(** [np.full((height, width), v)]. *)
Definition full {A : Type} (height width : Z) (v : A) : array A :=
  repeat (repeat v (Z.to_nat width)) (Z.to_nat height).

(** [range(a, b)]. *)
Definition py_range (a b : Z) : list Z :=
  map (fun i => a + Z.of_nat i) (seq 0 (Z.to_nat (b - a))).

(** Rows and cells with their indices. *)
Definition indexed {A : Type} (l : list A) : list (Z * A) :=
  combine (py_range 0 (len l)) l.

(** [a[y0:y1, x0:x1] = v] for non-negative bounds: the slice is clipped to
    the array. *)
Definition fill_slice {A : Type} (a : array A) (y0 y1 x0 x1 : Z) (v : A) : array A :=
  map (fun '(r, row) =>
         map (fun '(c, old) =>
                if (y0 <=? r) && (r <? y1) && (x0 <=? c) && (c <? x1) then v else old)
             (indexed row))
      (indexed a).

(** [np.argwhere(mask)]: the (row, column) pairs of the true cells, in
    row-major order. *)
Definition argwhere (mask : array bool) : list (Z * Z) :=
  flat_map (fun '(r, row) =>
              flat_map (fun '(c, b) => if b : bool then [(r, c)] else []) (indexed row))
           (indexed mask).

(** Column [c] of an array, from the rows that reach it. *)
Definition column {A : Type} (a : array A) (c : nat) : list A :=
  flat_map (fun row => match nth_error row c with
                       | Some v => [v]
                       | None => []
                       end) a.

(** [a.T]: column [c] of [a] becomes row [c]. *)
Definition transpose {A : Type} (a : array A) : array A :=
  match a with
  | [] => []
  | row0 :: _ => map (column a) (seq 0 (List.length row0))
  end.

End Numpy.

(** ** utils.py *)
Module Utils.

(** A cell (x, y). *)
Definition pos : Type := (Z * Z)%type.

Definition pos_eqb (a b : pos) : bool :=
  (fst a =? fst b) && (snd a =? snd b).

(** Membership in a Python set or list of cells. *)
Definition mem (p : pos) (s : list pos) : bool := existsb (pos_eqb p) s.

Record Rect : Type := mkRect { rect_x : Z; rect_y : Z; rect_w : Z; rect_h : Z }.

Definition center (r : Rect) : pos :=
  (rect_x r + rect_w r / 2, rect_y r + rect_h r / 2).

Definition intersect (self other : Rect) : bool :=
  negb ((rect_x other + rect_w other <=? rect_x self)
        || (rect_x self + rect_w self <=? rect_x other)
        || (rect_y other + rect_h other <=? rect_y self)
        || (rect_y self + rect_h self <=? rect_y other)).

Definition manhattan (a b : pos) : Z :=
  Z.abs (fst a - fst b) + Z.abs (snd a - snd b).

(** The four neighbours in the order the loops visit them. *)
Definition cardinal (p : pos) : list pos :=
  let (x, y) := p in [(x + 1, y); (x - 1, y); (x, y + 1); (x, y - 1)].

Definition shape_w (walkable : Numpy.array bool) : Z :=
  match walkable with
  | [] => 0
  | row :: _ => Numpy.len row
  end.

Definition shape_h (walkable : Numpy.array bool) : Z := Numpy.len walkable.

Definition cell (walkable : Numpy.array bool) (p : pos) : bool :=
  match Numpy.get walkable (snd p) (fst p) with
  | Ok b => b
  | _ => false
  end.

(** One pass of the inner [for] of [flood_fill] over the neighbours of a
    popped cell: the set [visited] (in insertion order) and the queue. *)
Definition flood_visit (walkable : Numpy.array bool) (blocked : list pos)
           (acc : list pos * list pos) (n : pos) : list pos * list pos :=
  let (visited, q) := acc in
  let (nx, ny) := n in
  if negb ((0 <=? nx) && (nx <? shape_w walkable) && (0 <=? ny) && (ny <? shape_h walkable))
  then acc
  else if mem n visited || mem n blocked then acc
  else if negb (cell walkable n) then acc
  else (visited ++ [n], q ++ [n]).

Fixpoint flood_loop (fuel : nat) (walkable : Numpy.array bool) (blocked : list pos)
         (visited q : list pos) : outcome (list pos) :=
  match q with
  | [] => Ok visited
  | p :: q' =>
      match fuel with
      | O => OutOfFuel
      | S fuel' =>
          let (visited', q'') :=
            fold_left (flood_visit walkable blocked) (cardinal p) (visited, q') in
          flood_loop fuel' walkable blocked visited' q''
      end
  end.

(** [flood_fill]: the returned set is the list of its members in insertion
    order.  Every cell enters the queue at most once, so the loop is given
    one round per cell of the grid. *)
Definition flood_fill (walkable : Numpy.array bool) (start : pos) (blocked : list pos)
  : outcome (list pos) :=
  let width := shape_w walkable in
  let height := shape_h walkable in
  if negb ((0 <=? fst start) && (fst start <? width)
           && (0 <=? snd start) && (snd start <? height))
  then Ok []
  else if negb (cell walkable start) || mem start blocked then Ok []
  else flood_loop (S (Z.to_nat (width * height))) walkable blocked [start] [start].

(** [weighted_choice]: the first item whose running weight reaches the
    roll, the last item when none does; [table[-1]] of an empty table
    raises IndexError. *)
Fixpoint choice_loop (roll upto : Q) (table : list (string * Z)) : option string :=
  match table with
  | [] => None
  | (item, weight) :: rest =>
      let upto' := (upto + inject_Z weight)%Q in
      if Qle_bool roll upto' then Some item else choice_loop roll upto' rest
  end.

Definition weighted_choice (R : PyRandom.generator) (st : PyRandom.state R)
           (table : list (string * Z)) : outcome (string * PyRandom.state R) :=
  let total := fold_left Z.add (map snd table) 0 in
  let (u, st1) := PyRandom.random R st in
  let roll := (u * inject_Z total)%Q in
  match choice_loop roll 0 table with
  | Some item => Ok (item, st1)
  | None =>
      match table with
      | [] => Raise IndexError
      | first :: rest => Ok (fst (last rest first), st1)
      end
  end.

(** [bresenham]: the rounds of the [while True] loop.  A round moves one
    step on at least one axis, so the loop is given one round for every
    unit of [dx - dy]. *)
Fixpoint bresenham_loop (fuel : nat) (x1 y1 dx dy sx sy : Z) (path : list pos)
         (x y err : Z) : outcome (list pos) :=
  let path' := path ++ [(x, y)] in
  if (x =? x1) && (y =? y1) then Ok path'
  else
    match fuel with
    | O => OutOfFuel
    | S fuel' =>
        let e2 := 2 * err in
        let (err1, x') := if dy <=? e2 then (err + dy, x + sx) else (err, x) in
        let (err2, y') := if e2 <=? dx then (err1 + dx, y + sy) else (err1, y) in
        bresenham_loop fuel' x1 y1 dx dy sx sy path' x' y' err2
    end.

Definition bresenham (x0 y0 x1 y1 : Z) : outcome (list pos) :=
  let dx := Z.abs (x1 - x0) in
  let dy := - Z.abs (y1 - y0) in
  let sx := if x0 <? x1 then 1 else -1 in
  let sy := if y0 <? y1 then 1 else -1 in
  bresenham_loop (Z.to_nat (dx - dy)) x1 y1 dx dy sx sy [] x0 y0 (dx + dy).

End Utils.

(** ** mapgen.py *)
Module Mapgen.
Import Utils.

Inductive Tile : Type :=
| WALL | FLOOR | DOOR | LOCKED_DOOR | STAIRS_UP | STAIRS_DOWN | ACID | LAVA | TRAP.

Definition Tile_value (t : Tile) : Z :=
  match t with
  | WALL => 0 | FLOOR => 1 | DOOR => 2 | LOCKED_DOOR => 3 | STAIRS_UP => 4
  | STAIRS_DOWN => 5 | ACID => 6 | LAVA => 7 | TRAP => 8
  end.

Definition Tile_eqb (a b : Tile) : bool := Tile_value a =? Tile_value b.

Record MapData : Type := mkMapData {
  width : Z;
  height : Z;
  tiles : Numpy.array Tile;
  start : pos;
  stairs_up : pos;
  stairs_down : pos;
  locked_doors : list pos;
  key_positions : list pos;
  door_keys : list (pos * pos);
  hazards : list pos;
  trap_hints : list pos
}.

Definition in_bounds (m : MapData) (x y : Z) : bool :=
  (0 <=? x) && (x <? width m) && (0 <=? y) && (y <? height m).

Definition tile_at (m : MapData) (x y : Z) : outcome Tile :=
  Numpy.get (tiles m) y x.

(** [MapData.walkable]: every kind of tile but the wall. *)
Definition is_walkable (t : Tile) : bool :=
  match t with
  | WALL => false
  | _ => true
  end.

Definition walkable (m : MapData) : Numpy.array bool :=
  map (map is_walkable) (tiles m).

Definition reachable (m : MapData) (from : pos) (blocked : list pos) : outcome (list pos) :=
  flood_fill (walkable m) from blocked.

Definition set_tiles (m : MapData) (t : Numpy.array Tile) : MapData :=
  mkMapData (width m) (height m) t (start m) (stairs_up m) (stairs_down m)
            (locked_doors m) (key_positions m) (door_keys m) (hazards m) (trap_hints m).

(** [d[k] = v] on a dict kept in insertion order. *)
Fixpoint dict_set (d : list (pos * pos)) (k v : pos) : list (pos * pos) :=
  match d with
  | [] => [(k, v)]
  | (k', v') :: rest =>
      if pos_eqb k' k then (k', v) :: rest else (k', v') :: dict_set rest k v
  end.

Fixpoint dict_lookup (d : list (pos * pos)) (k : pos) : option pos :=
  match d with
  | [] => None
  | (k', v) :: rest => if pos_eqb k' k then Some v else dict_lookup rest k
  end.

Definition cells_equal (t : Tile) (a : Numpy.array Tile) : Numpy.array bool :=
  map (map (Tile_eqb t)) a.

(** [_trace_back]: one step toward the goal on each axis per round. *)
Fixpoint trace_back_loop (fuel : nat) (x y gx gy : Z) : outcome (list pos) :=
  if pos_eqb (x, y) (gx, gy) then Ok []
  else
    match fuel with
    | O => OutOfFuel
    | S fuel' =>
        let x' := if x <? gx then x + 1 else if gx <? x then x - 1 else x in
        let y' := if y <? gy then y + 1 else if gy <? y then y - 1 else y in
        let? rest := trace_back_loop fuel' x' y' gx gy in
        Ok ((x, y) :: rest)
    end.

Definition trace_back (from goal : pos) : outcome (list pos) :=
  trace_back_loop (Z.to_nat (Z.max (Z.abs (fst from - fst goal)) (Z.abs (snd from - snd goal))))
                  (fst from) (snd from) (fst goal) (snd goal).

(** [_carve_h] and [_carve_v]. *)
Fixpoint carve_cells (t : Numpy.array Tile) (cells : list pos) : outcome (Numpy.array Tile) :=
  match cells with
  | [] => Ok t
  | (x, y) :: rest =>
      let? t' := Numpy.set t y x FLOOR in carve_cells t' rest
  end.

Definition carve_h (t : Numpy.array Tile) (x1 x2 y : Z) : outcome (Numpy.array Tile) :=
  carve_cells t (map (fun x => (x, y)) (Numpy.py_range (Z.min x1 x2) (Z.max x1 x2 + 1))).

Definition carve_v (t : Numpy.array Tile) (y1 y2 x : Z) : outcome (Numpy.array Tile) :=
  carve_cells t (map (fun y => (x, y)) (Numpy.py_range (Z.min y1 y2) (Z.max y1 y2 + 1))).

(** [_count_neighbours]. *)
Fixpoint count_walls (t : Numpy.array Tile) (x y : Z) (cells : list pos) : outcome Z :=
  match cells with
  | [] => Ok 0
  | (nx, ny) :: rest =>
      if (nx =? x) && (ny =? y) then count_walls t x y rest
      else
        let? v := Numpy.get t ny nx in
        let? total := count_walls t x y rest in
        Ok ((if Tile_eqb v WALL then 1 else 0) + total)
  end.

Definition count_neighbours (t : Numpy.array Tile) (x y : Z) : outcome Z :=
  count_walls t x y
    (flat_map (fun ny => map (fun nx => (nx, ny)) (Numpy.py_range (x - 1) (x + 2)))
              (Numpy.py_range (y - 1) (y + 2))).

(** The interior cells (x, y), rows outermost, as the nested [for] loops
    over [range(1, height - 1)] and [range(1, width - 1)] visit them. *)
Definition interior (w h : Z) : list pos :=
  flat_map (fun y => map (fun x => (x, y)) (Numpy.py_range 1 (w - 1)))
           (Numpy.py_range 1 (h - 1)).

(** [_smooth]: the counts are taken in the old array. *)
Fixpoint smooth_cells (old new : Numpy.array Tile) (cells : list pos)
  : outcome (Numpy.array Tile) :=
  match cells with
  | [] => Ok new
  | (x, y) :: rest =>
      let? n := count_neighbours old x y in
      let? new' :=
        (if 4 <? n then Numpy.set new y x WALL
         else if n <? 4 then Numpy.set new y x FLOOR
         else Ok new) in
      smooth_cells old new' rest
  end.

Definition smooth (w h : Z) (t : Numpy.array Tile) : outcome (Numpy.array Tile) :=
  smooth_cells t t (interior w h).

Fixpoint smooth_passes (n : nat) (w h : Z) (t : Numpy.array Tile) : outcome (Numpy.array Tile) :=
  match n with
  | O => Ok t
  | S n' => let? t' := smooth w h t in smooth_passes n' w h t'
  end.

(** [_ring_positions]. *)
Definition ring_positions (w h : Z) (x y : Z) : list pos :=
  flat_map (fun dx =>
    flat_map (fun dy =>
      if (dx =? 0) && (dy =? 0) then []
      else
        let nx := x + dx in
        let ny := y + dy in
        if (0 <=? nx) && (nx <? w) && (0 <=? ny) && (ny <? h) then [(nx, ny)] else [])
      [-1; 0; 1])
    [-1; 0; 1].

(** [max(rooms, key=...)]: the first room of the largest key. *)
Fixpoint max_by (key : Rect -> Z) (best : Rect) (rest : list Rect) : Rect :=
  match rest with
  | [] => best
  | r :: rest' => max_by key (if key best <? key r then r else best) rest'
  end.

Definition count_tile (t : Tile) (l : list Tile) : Z :=
  Numpy.len (filter (Tile_eqb t) l).

Section Generator.
Variable R : PyRandom.generator.

(** The order in which Python iterates over a set, as a function of the
    order in which its members were inserted. *)
Variable set_iter : list pos -> list pos.

Record MapGenerator : Type := mkMapGenerator {
  gen_width : Z;
  gen_height : Z;
  gen_floor : Z;
  rng : PyRandom.state R;
  _start_position : option pos
}.

Definition set_rng (g : MapGenerator) (st : PyRandom.state R) : MapGenerator :=
  mkMapGenerator (gen_width g) (gen_height g) (gen_floor g) st (_start_position g).

Definition set_start_position (g : MapGenerator) (p : pos) : MapGenerator :=
  mkMapGenerator (gen_width g) (gen_height g) (gen_floor g) (rng g) (Some p).

(** The [while] loop of [_generate_rooms].  Every round adds a room or an
    attempt, so 212 rounds end it. *)
Fixpoint place_rooms (fuel : nat) (w h : Z) (t : Numpy.array Tile) (rooms : list Rect)
         (attempts : Z) (st : PyRandom.state R)
  : outcome (Numpy.array Tile * list Rect * PyRandom.state R) :=
  if (Numpy.len rooms <? 12) && (attempts <? 200) then
    match fuel with
    | O => OutOfFuel
    | S fuel' =>
        let? (rw, st1) := PyRandom.randint R 5 10 st in
        let? (rh, st2) := PyRandom.randint R 5 10 st1 in
        let? (x, st3) := PyRandom.randint R 1 (w - rw - 1) st2 in
        let? (y, st4) := PyRandom.randint R 1 (h - rh - 1) st3 in
        let new_room := mkRect x y rw rh in
        if existsb (intersect new_room) rooms
        then place_rooms fuel' w h t rooms (attempts + 1) st4
        else place_rooms fuel' w h
               (Numpy.fill_slice t y (y + rh) x (x + rw) FLOOR)
               (rooms ++ [new_room]) attempts st4
    end
  else Ok (t, rooms, st).

(** [carve_corridor]. *)
Definition carve_corridor (t : Numpy.array Tile) (a b : pos) (st : PyRandom.state R)
  : outcome (Numpy.array Tile * PyRandom.state R) :=
  let (ax, ay) := a in
  let (bx, b_y) := b in
  let (u, st1) := PyRandom.random R st in
  if Qlt_le_dec u (1 # 2) then
    let? t1 := carve_h t ax bx ay in
    let? t2 := carve_v t1 ay b_y bx in
    Ok (t2, st1)
  else
    let? t1 := carve_v t ay b_y ax in
    let? t2 := carve_h t1 ax bx b_y in
    Ok (t2, st1).

(** The loop over [range(1, len(rooms))]. *)
Fixpoint carve_corridors (t : Numpy.array Tile) (prev : Rect) (rest : list Rect)
         (st : PyRandom.state R) : outcome (Numpy.array Tile * PyRandom.state R) :=
  match rest with
  | [] => Ok (t, st)
  | cur :: rest' =>
      let? (t1, st1) := carve_corridor t (center prev) (center cur) st in
      carve_corridors t1 cur rest' st1
  end.

(** [_generate_rooms] from the end of the placement loop on. *)
Definition finish_rooms (g : MapGenerator) (t : Numpy.array Tile) (rooms : list Rect)
           (st : PyRandom.state R) : outcome (MapData * MapGenerator) :=
  let? (t1, st1) :=
    match rooms with
    | [] => Ok (t, st)
    | first :: rest => carve_corridors t first rest st
    end in
  match rooms with
  | [] => Raise (RuntimeError "Failed to generate rooms")
  | start_room :: rest =>
      let start := center start_room in
      let down := center (max_by (fun r => manhattan (center r) start) start_room rest) in
      let? t2 := Numpy.set t1 (snd start) (fst start) STAIRS_UP in
      let? t3 := Numpy.set t2 (snd down) (fst down) STAIRS_DOWN in
      Ok (mkMapData (gen_width g) (gen_height g) t3 start start down [] [] [] [] [],
          set_start_position (set_rng g st1) start)
  end.

Definition _generate_rooms (g : MapGenerator) : outcome (MapData * MapGenerator) :=
  let t := Numpy.full (gen_height g) (gen_width g) WALL in
  let? (t1, rooms, st1) := place_rooms 212 (gen_width g) (gen_height g) t [] 0 (rng g) in
  finish_rooms g t1 rooms st1.

(** The noise loop of [_generate_caves]. *)
Fixpoint cave_noise (t : Numpy.array Tile) (cells : list pos) (st : PyRandom.state R)
  : outcome (Numpy.array Tile * PyRandom.state R) :=
  match cells with
  | [] => Ok (t, st)
  | (x, y) :: rest =>
      let (u, st1) := PyRandom.random R st in
      let? t1 := Numpy.set t y x (if Qlt_le_dec (45 # 100) u then FLOOR else WALL) in
      cave_noise t1 rest st1
  end.

(** The map after noise and the five smoothing passes. *)
Definition cave_automaton (g : MapGenerator)
  : outcome (Numpy.array Tile * PyRandom.state R) :=
  let t := Numpy.full (gen_height g) (gen_width g) WALL in
  let? (t1, st1) := cave_noise t (interior (gen_width g) (gen_height g)) (rng g) in
  let? t2 := smooth_passes 5 (gen_width g) (gen_height g) t1 in
  Ok (t2, st1).

(** [_generate_caves] from the end of the smoothing passes on. *)
Definition finish_caves (g : MapGenerator) (t : Numpy.array Tile) (st : PyRandom.state R)
  : outcome (MapData * MapGenerator) :=
  let walkable_positions := Numpy.argwhere (cells_equal FLOOR t) in
  match walkable_positions with
  | [] => Raise (RuntimeError "No floor tiles in cave generation")
  | _ :: _ =>
      let? (start_idx, st1) := PyRandom.randrange R (Numpy.len walkable_positions) st in
      let start :=
        match nth_error walkable_positions (Z.to_nat start_idx) with
        | Some (r, c) => (c, r)
        | None => (0, 0)
        end in
      let? reach := flood_fill (cells_equal FLOOR t) start [] in
      let t1 :=
        map (fun '(y, row) =>
               map (fun '(x, old) => if mem (x, y) reach then old else WALL)
                   (Numpy.indexed row))
            (Numpy.indexed t) in
      let floors := Numpy.argwhere (cells_equal FLOOR t1) in
      let? (end_idx, st2) := PyRandom.randrange R (Numpy.len floors) st1 in
      let? stop :=
        match nth_error floors (Z.to_nat end_idx) with
        | Some (r, c) => Ok (c, r)
        | None => Raise IndexError
        end in
      let? t2 := Numpy.set t1 (snd start) (fst start) STAIRS_UP in
      let? t3 := Numpy.set t2 (snd stop) (fst stop) STAIRS_DOWN in
      Ok (mkMapData (gen_width g) (gen_height g) t3 start start stop [] [] [] [] [],
          set_start_position (set_rng g st2) start)
  end.

Definition _generate_caves (g : MapGenerator) : outcome (MapData * MapGenerator) :=
  let? (t, st) := cave_automaton g in
  finish_caves g t st.

(** [_pick_key_position]. *)
Definition _pick_key_position (g : MapGenerator) (reach : list pos)
  : outcome (option pos * MapGenerator) :=
  let reachable_list := set_iter reach in
  match reachable_list with
  | [] => Ok (None, g)
  | _ :: _ =>
      let? (shuffled, st1) := PyRandom.shuffle R reachable_list (rng g) in
      let avoid :=
        match _start_position g with
        | Some p => p
        | None => nth 0 shuffled (0, 0)
        end in
      match filter (fun p => negb (pos_eqb p avoid)) shuffled with
      | p :: _ => Ok (Some p, set_rng g st1)
      | [] => Ok (Some (nth 0 shuffled (0, 0)), set_rng g st1)
      end
  end.

(** The hazard loop of [_post_process]. *)
Fixpoint place_hazards (m : MapData) (cells : list pos) (st : PyRandom.state R)
  : outcome (MapData * PyRandom.state R) :=
  match cells with
  | [] => Ok (m, st)
  | (x, y) :: rest =>
      let? t := tile_at m x y in
      if Tile_eqb t FLOOR then
        let (u, st1) := PyRandom.random R st in
        let tile := if Qlt_le_dec u (1 # 2) then ACID else LAVA in
        let? t1 := Numpy.set (tiles m) y x tile in
        place_hazards
          (mkMapData (width m) (height m) t1 (start m) (stairs_up m) (stairs_down m)
                     (locked_doors m) (key_positions m) (door_keys m)
                     (hazards m ++ [(x, y)]) (trap_hints m))
          rest st1
      else place_hazards m rest st
  end.

(** The candidates for traps: the shuffled positions whose tile is still
    floor. *)
Fixpoint floor_cells (m : MapData) (cells : list pos) : outcome (list pos) :=
  match cells with
  | [] => Ok []
  | (x, y) :: rest =>
      let? t := tile_at m x y in
      let? more := floor_cells m rest in
      Ok (if Tile_eqb t FLOOR then (x, y) :: more else more)
  end.

(** The trap loop. *)
Fixpoint place_traps (g : MapGenerator) (m : MapData) (cells : list pos) : outcome MapData :=
  match cells with
  | [] => Ok m
  | (x, y) :: rest =>
      let? t1 := Numpy.set (tiles m) y x TRAP in
      place_traps g
        (mkMapData (width m) (height m) t1 (start m) (stairs_up m) (stairs_down m)
                   (locked_doors m) (key_positions m) (door_keys m) (hazards m)
                   (trap_hints m ++ ring_positions (gen_width g) (gen_height g) x y))
        rest
  end.

(** [[data.tile_at(nx, ny) for nx, ny in self._cardinal_neighbours(x, y)]]. *)
Fixpoint tiles_at (m : MapData) (cells : list pos) : outcome (list Tile) :=
  match cells with
  | [] => Ok []
  | (x, y) :: rest =>
      let? t := tile_at m x y in
      let? more := tiles_at m rest in
      Ok (t :: more)
  end.

(** The door loop: a floor cell with two walls and two floors among its
    four neighbours becomes a door at once, so later cells see it. *)
Fixpoint place_doors (m : MapData) (doors : list pos) (cells : list pos)
  : outcome (MapData * list pos) :=
  match cells with
  | [] => Ok (m, doors)
  | (x, y) :: rest =>
      let? t := tile_at m x y in
      if negb (Tile_eqb t FLOOR) then place_doors m doors rest
      else
        let? neighbours := tiles_at m (cardinal (x, y)) in
        if (2 <=? count_tile WALL neighbours) && (2 <=? count_tile FLOOR neighbours) then
          let? t1 := Numpy.set (tiles m) y x DOOR in
          place_doors (set_tiles m t1) (doors ++ [(x, y)]) rest
        else place_doors m doors rest
  end.

(** The inner [for] of [_ensure_connection] over the neighbours of a popped
    cell. *)
Fixpoint ensure_visit (m : MapData) (visited queue : list pos) (cells : list pos)
  : outcome (list pos) :=
  match cells with
  | [] => Ok queue
  | (nx, ny) :: rest =>
      if negb (in_bounds m nx ny) then ensure_visit m visited queue rest
      else if mem (nx, ny) visited then ensure_visit m visited queue rest
      else
        let? t := tile_at m nx ny in
        if Tile_eqb t WALL then ensure_visit m visited queue rest
        else ensure_visit m visited (queue ++ [(nx, ny)]) rest
  end.

(** The carving loop over the traced path. *)
Fixpoint carve_walls (m : MapData) (path : list pos) : outcome MapData :=
  match path with
  | [] => Ok m
  | (px, py) :: rest =>
      let? t := tile_at m px py in
      if Tile_eqb t WALL then
        let? t1 := Numpy.set (tiles m) py px FLOOR in
        carve_walls (set_tiles m t1) rest
      else carve_walls m rest
  end.

(** The [while] loop of [_ensure_connection]; a cell may enter the queue
    more than once, and the loop is bounded here by [fuel] pops. *)
Fixpoint ensure_loop (fuel : nat) (m : MapData) (reach : list pos)
         (visited queue : list pos) : outcome MapData :=
  match queue with
  | [] => Ok m
  | (x, y) :: queue' =>
      match fuel with
      | O => OutOfFuel
      | S fuel' =>
          if mem (x, y) reach then
            let? path := trace_back (x, y) (start m) in
            carve_walls m path
          else
            let visited' := (x, y) :: visited in
            let? queue'' := ensure_visit m visited' queue' (cardinal (x, y)) in
            ensure_loop fuel' m reach visited' queue''
      end
  end.

Definition ensure_budget : nat := Z.to_nat 200000.

Definition _ensure_connection (m : MapData) (reach : list pos) : outcome MapData :=
  ensure_loop ensure_budget m reach [] [stairs_down m].

(** [_post_process]. *)
Definition _post_process (g : MapGenerator) (data : MapData)
  : outcome (MapData * MapGenerator) :=
  let cells := map (fun '(r, c) => (c, r)) (Numpy.argwhere (walkable data)) in
  let? (walkable_positions, st1) := PyRandom.shuffle R cells (rng g) in
  let n_hazards := Z.max 3 (Numpy.len walkable_positions / 40) in
  let? (data1, st2) :=
    place_hazards data (firstn (Z.to_nat n_hazards) walkable_positions) st1 in
  let? trap_candidates := floor_cells data1 walkable_positions in
  let? data2 :=
    place_traps g data1
      (firstn (Z.to_nat (Numpy.len trap_candidates / 30 + 1)) trap_candidates) in
  let? (data3, doors) :=
    place_doors data2 [] (interior (width data2) (height data2)) in
  let g2 := set_rng g st2 in
  let? (data4, g3) :=
    match doors with
    | [] => Ok (data3, g2)
    | _ :: _ =>
        let? (i, st3) := PyRandom.randrange R (Numpy.len doors) (rng g2) in
        let locked := nth (Z.to_nat i) doors (0, 0) in
        let? t1 := Numpy.set (tiles data3) (snd locked) (fst locked) LOCKED_DOOR in
        let d1 :=
          mkMapData (width data3) (height data3) t1 (start data3) (stairs_up data3)
                    (stairs_down data3) (locked_doors data3 ++ [locked])
                    (key_positions data3) (door_keys data3) (hazards data3)
                    (trap_hints data3) in
        let? accessible_without_lock := reachable d1 (start d1) [locked] in
        let? (key_position, g') :=
          _pick_key_position (set_rng g2 st3) accessible_without_lock in
        match key_position with
        | Some key =>
            Ok (mkMapData (width d1) (height d1) (tiles d1) (start d1) (stairs_up d1)
                          (stairs_down d1) (locked_doors d1)
                          (key_positions d1 ++ [key])
                          (dict_set (door_keys d1) locked key) (hazards d1)
                          (trap_hints d1), g')
        | None => Ok (d1, g')
        end
    end in
  let? reach := reachable data4 (start data4) (locked_doors data4) in
  if mem (stairs_down data4) reach then Ok (data4, g3)
  else
    let? data5 := _ensure_connection data4 reach in
    Ok (data5, g3).

(** [MapGenerator.generate]. *)
Definition generate (g : MapGenerator) (layout : string) : outcome (MapData * MapGenerator) :=
  let? (base, g1) :=
    (if String.eqb layout "caves" then _generate_caves g else _generate_rooms g) in
  _post_process g1 base.

(** [generate_floor]. *)
Definition generate_floor (seed floor : Z) (layout : string) : outcome MapData :=
  let rng0 := PyRandom.seed R (seed + floor * 97) in
  let gen := mkMapGenerator Settings.MAP_WIDTH Settings.MAP_HEIGHT floor rng0 None in
  let? (data, _) := generate gen layout in
  Ok data.

End Generator.
End Mapgen.

(** ** tcod.path

    The package calls the external library tcod for graph search.  Its
    documented contract is modelled here: [SimpleGraph(cost, cardinal,
    diagonal)] is the grid graph over the indices of [cost] in which a move
    into a node costs the node's cost times [cardinal] (one axis changes) or
    [diagonal] (both change), a node of cost 0 or less cannot be entered and
    a multiplier of 0 closes its directions; [Pathfinder.path_to(index)] is
    a cheapest route from a root to [index], and only [index] when no route
    reaches it.  Distances are computed by rounds of relaxation over the
    whole table; among equally cheap routes the model takes the first
    direction of [directions], which the contract leaves open. *)
Module Tcod.

Definition node : Type := (Z * Z)%type.

Definition node_eqb (a b : node) : bool := (fst a =? fst b) && (snd a =? snd b).

Record SimpleGraph : Type := mkSimpleGraph {
  cost : Numpy.array Z;
  cardinal : Z;
  diagonal : Z
}.

Definition shape0 (g : SimpleGraph) : Z := Numpy.len (cost g).

Definition shape1 (g : SimpleGraph) : Z :=
  match cost g with
  | [] => 0
  | row :: _ => Numpy.len row
  end.

Definition inside (g : SimpleGraph) (v : node) : bool :=
  (0 <=? fst v) && (fst v <? shape0 g) && (0 <=? snd v) && (snd v <? shape1 g).

Definition node_cost (g : SimpleGraph) (v : node) : Z :=
  match Numpy.get (cost g) (fst v) (snd v) with
  | Ok c => c
  | _ => 0
  end.

Definition directions : list (Z * Z) :=
  [(-1, -1); (-1, 0); (-1, 1); (0, -1); (0, 1); (1, -1); (1, 0); (1, 1)].

Definition edge_cost (g : SimpleGraph) (d : Z * Z) : Z :=
  if (fst d =? 0) || (snd d =? 0) then cardinal g else diagonal g.

(** The cost of entering [v] along direction [d]. *)
Definition move_cost (g : SimpleGraph) (d : Z * Z) (v : node) : option Z :=
  if inside g v && (0 <? node_cost g v) && (0 <? edge_cost g d)
  then Some (node_cost g v * edge_cost g d)
  else None.

Definition back (v : node) (d : Z * Z) : node := (fst v - fst d, snd v - snd d).

(** The distance table: [None] for a node not reached. *)
Definition table : Type := list (list (option Z)).

Definition tabulate (n0 n1 : Z) (f : node -> option Z) : table :=
  map (fun i => map (fun j => f (i, j)) (Numpy.py_range 0 n1)) (Numpy.py_range 0 n0).

Definition dist_at (t : table) (v : node) : option Z :=
  if (0 <=? fst v) && (0 <=? snd v) then
    match nth_error t (Z.to_nat (fst v)) with
    | Some row =>
        match nth_error row (Z.to_nat (snd v)) with
        | Some d => d
        | None => None
        end
    | None => None
    end
  else None.

Definition better (a b : option Z) : option Z :=
  match a, b with
  | Some x, Some y => Some (Z.min x y)
  | Some x, None => Some x
  | None, _ => b
  end.

(** The distance of [v] through its neighbour against direction [d]. *)
Definition candidate (g : SimpleGraph) (t : table) (v : node) (d : Z * Z) : option Z :=
  match dist_at t (back v d), move_cost g d v with
  | Some du, Some w => Some (du + w)
  | _, _ => None
  end.

Definition relax_node (g : SimpleGraph) (t : table) (v : node) : option Z :=
  fold_left better (map (candidate g t v) directions) (dist_at t v).

Definition relax (g : SimpleGraph) (t : table) : table :=
  tabulate (shape0 g) (shape1 g) (relax_node g t).

Fixpoint relax_rounds (n : nat) (g : SimpleGraph) (t : table) : table :=
  match n with
  | O => t
  | S n' => relax_rounds n' g (relax g t)
  end.

Record Pathfinder : Type := mkPathfinder {
  graph : SimpleGraph;
  roots : list node
}.

Definition new_pathfinder (g : SimpleGraph) : Pathfinder := mkPathfinder g [].

(** [Pathfinder.add_root(index)]. *)
Definition add_root (pf : Pathfinder) (index : node) : outcome Pathfinder :=
  if inside (graph pf) index
  then Ok (mkPathfinder (graph pf) (roots pf ++ [index]))
  else Raise IndexError.

(** A route has fewer moves than the graph has nodes, so that many rounds
    settle every distance. *)
Definition resolve (pf : Pathfinder) : table :=
  let g := graph pf in
  relax_rounds (Z.to_nat (shape0 g * shape1 g)) g
    (tabulate (shape0 g) (shape1 g)
       (fun v => if existsb (node_eqb v) (roots pf) then Some 0 else None)).

(** The node [v] was reached from; a root and an unreached node have none. *)
Definition travel (g : SimpleGraph) (t : table) (v : node) : option node :=
  match dist_at t v with
  | None => None
  | Some dv =>
      if dv =? 0 then None
      else
        option_map (back v)
          (find (fun d => match candidate g t v d with
                          | Some x => x =? dv
                          | None => false
                          end) directions)
  end.

Fixpoint travel_path (fuel : nat) (g : SimpleGraph) (t : table) (v : node) : list node :=
  v :: match fuel with
       | O => []
       | S fuel' =>
           match travel g t v with
           | Some u => travel_path fuel' g t u
           | None => []
           end
       end.

(** [Pathfinder.path_from(index)]: from [index] back to its root. *)
Definition path_from (pf : Pathfinder) (index : node) : outcome (list node) :=
  let g := graph pf in
  if inside g index
  then Ok (travel_path (Z.to_nat (shape0 g * shape1 g)) g (resolve pf) index)
  else Raise IndexError.

(** [Pathfinder.path_to(index)] is [path_from(index)[::-1]]. *)
Definition path_to (pf : Pathfinder) (index : node) : outcome (list node) :=
  let? p := path_from pf index in Ok (rev p).

End Tcod.

(** ** path.py *)
Module Path.
Import Utils Mapgen.

(** [p[::-1]] on a pair. *)
Definition reversed (p : Z * Z) : Z * Z := (snd p, fst p).

(** [np.where(walkable, 1.0, 0.0)]. *)
Definition cost_of (walkable : Numpy.array bool) : Numpy.array Z :=
  map (map (fun b : bool => if b then 1 else 0)) walkable.

(** The graph [astar_path] builds: [cost.T] with cardinal 2, diagonal 3. *)
Definition search_graph (map_data : MapData) : Tcod.SimpleGraph :=
  Tcod.mkSimpleGraph (Numpy.transpose (cost_of (walkable map_data))) 2 3.

Definition astar_path (map_data : MapData) (start goal : pos) : outcome (list pos) :=
  let pathfinder := Tcod.new_pathfinder (search_graph map_data) in
  let? pathfinder1 := Tcod.add_root pathfinder (reversed start) in
  let? path := Tcod.path_to pathfinder1 (reversed goal) in
  Ok (map reversed path).

End Path.

(** ** ai.py *)
Module AI.
Import Utils Mapgen Components.

Record Position : Type := mkPosition { pos_x : Z; pos_y : Z; pos_floor : Z }.

(** An action: its type and target (the payload is never set). *)
Record AIAction : Type := mkAIAction {
  action_type : string;
  target : option pos
}.

(** A value of the flow field: a finite distance or [inf]. *)
Inductive flow_value : Type :=
| Finite (q : Q)
| Inf.

(** [a < b] on flow values. *)
Definition flow_lt (a b : flow_value) : bool :=
  match a, b with
  | Finite x, Finite y => if Qlt_le_dec x y then true else false
  | Finite _, Inf => true
  | Inf, _ => false
  end.

(** [l[i]] on a Python list. *)
Definition list_get {A : Type} (l : list A) (i : Z) : outcome A :=
  match Numpy.np_index (Numpy.len l) i with
  | None => Raise IndexError
  | Some k =>
      match nth_error l k with
      | Some v => Ok v
      | None => Raise IndexError
      end
  end.

Section Brain.
Variable R : PyRandom.generator.

(** [dijkstra_flow] of path.py rests on a call into tcod whose result the
    package does not fix; [decide] is read with its result as given. *)
Variable dijkstra_flow : MapData -> list pos -> outcome (Numpy.array flow_value).

(** The neighbour loop of the sapper. *)
Fixpoint best_neighbour (map_data : MapData) (flow : Numpy.array flow_value)
         (best_step : pos) (best_cost : flow_value) (cells : list pos)
  : outcome (pos * flow_value) :=
  match cells with
  | [] => Ok (best_step, best_cost)
  | (nx, ny) :: rest =>
      if (0 <=? nx) && (nx <? width map_data) && (0 <=? ny) && (ny <? height map_data) then
        let? f := Numpy.get flow ny nx in
        if flow_lt f best_cost
        then best_neighbour map_data flow (nx, ny) f rest
        else best_neighbour map_data flow best_step best_cost rest
      else best_neighbour map_data flow best_step best_cost rest
  end.

(** The tail shared by brute, skirmisher and boss: one step along the
    path, or the fall through to [wait]. *)
Definition step_along (map_data : MapData) (here player_pos : pos) (st : PyRandom.state R)
  : outcome (AIAction * PyRandom.state R) :=
  let? path := Path.astar_path map_data here player_pos in
  if 1 <? Numpy.len path then
    let? p := list_get path 1 in Ok (mkAIAction "move" (Some p), st)
  else Ok (mkAIAction "wait" None, st).

(** [Brain.decide]. *)
Definition decide (st : PyRandom.state R) (archetype : string) (actor : Position)
           (stats : Stats) (map_data : MapData) (player_pos : pos)
  : outcome (AIAction * PyRandom.state R) :=
  let here := (pos_x actor, pos_y actor) in
  let distance := manhattan here player_pos in
  if String.eqb archetype "brute" then
    if distance <=? 1 then Ok (mkAIAction "attack" (Some player_pos), st)
    else step_along map_data here player_pos st
  else if String.eqb archetype "skirmisher" then
    if (2 <=? distance) && (distance <=? 3) then Ok (mkAIAction "attack" (Some player_pos), st)
    else if distance <? 2 then
      let dx := pos_x actor - fst player_pos in
      let dy := pos_y actor - snd player_pos in
      let retreat := (pos_x actor + (if dx <=? 0 then 1 else -1),
                      pos_y actor + (if dy <=? 0 then 1 else -1)) in
      Ok (mkAIAction "move" (Some retreat), st)
    else step_along map_data here player_pos st
  else if String.eqb archetype "ranged" then
    if 4 <=? distance then Ok (mkAIAction "attack" (Some player_pos), st)
    else
      let? path := Path.astar_path map_data here player_pos in
      if 1 <? Numpy.len path then
        let? step := list_get path (- Z.min 2 (Numpy.len path - 1)) in
        Ok (mkAIAction "move" (Some step), st)
      else Ok (mkAIAction "wait" None, st)
  else if String.eqb archetype "summoner" then
    if 4 <? distance then Ok (mkAIAction "summon" (Some player_pos), st)
    else
      let? goal :=
        (if 1 <? distance then
           let? path := Path.astar_path map_data here player_pos in list_get path 1
         else Ok player_pos) in
      Ok (mkAIAction "move" (Some goal), st)
  else if String.eqb archetype "sapper" then
    let? flow := dijkstra_flow map_data [player_pos] in
    let? here_cost := Numpy.get flow (pos_y actor) (pos_x actor) in
    let? (best_step, _) := best_neighbour map_data flow here here_cost (cardinal here) in
    if negb (pos_eqb best_step here) then Ok (mkAIAction "move" (Some best_step), st)
    else Ok (mkAIAction "trap" (Some here), st)
  else if String.eqb archetype "boss" then
    let (enrage, st1) :=
      if hp stats <=? max_hp stats / 2 then
        let (u, st') := PyRandom.random R st in
        ((if Qlt_le_dec u (3 # 10) then true else false), st')
      else (false, st) in
    if enrage then Ok (mkAIAction "enrage" None, st1)
    else if distance <=? 2 then Ok (mkAIAction "shockwave" (Some player_pos), st1)
    else step_along map_data here player_pos st1
  else Ok (mkAIAction "wait" None, st).

End Brain.
End AI.

(** ** inventory.py *)
Module InventoryHelpers.
Import Components.

Definition EQUIP_ORDER : list string :=
  ["weapon"; "armor"; "ring_left"; "ring_right"; "charm"]%string.

(** [equip_item]: [not item.slot] holds for [None] and for the empty
    string; an item object is always true. *)
Definition equip_item (equipment : Equipment) (item : Item) : bool * Equipment :=
  match item_slot item with
  | None => (false, equipment)
  | Some slot =>
      if String.eqb slot EmptyString then (false, equipment)
      else if String.eqb slot "ring" then
        match ring_left equipment, ring_right equipment with
        | Some _, Some _ => (false, equipment)
        | None, _ => (true, Equipment_setattr equipment "ring_left" (Some item))
        | Some _, None => (true, Equipment_setattr equipment "ring_right" (Some item))
        end
      else (true, Equipment_setattr equipment slot (Some item))
  end.

(** [unequip_item]. *)
Definition unequip_item (equipment : Equipment) (slot : string)
  : option Item * Equipment :=
  if String.eqb slot "ring" then
    match ring_right equipment with
    | Some item => (Some item, Equipment_setattr equipment "ring_right" None)
    | None => (ring_left equipment, Equipment_setattr equipment "ring_left" None)
    end
  else (Equipment_getattr equipment slot, Equipment_setattr equipment slot None).

(** [list_equipped]. *)
Definition list_equipped (equipment : Equipment) : list Item :=
  flat_map (fun slot => match Equipment_getattr equipment slot with
                        | Some item => [item]
                        | None => []
                        end) EQUIP_ORDER.

End InventoryHelpers.

(** ** loot.py *)
Module Loot.
Import Components.

Definition WEAPON_TABLE : list (string * Z) :=
  [("Rusty Dagger", 5); ("Iron Sword", 8); ("Glacial Shortsword of Haste", 1)]%string.

Definition ARMOR_TABLE : list (string * Z) :=
  [("Tattered Robe", 6); ("Chainmail", 4); ("Aetheric Aegis", 1)]%string.

Definition CONSUMABLE_TABLE : list (string * Z) :=
  [ ("Potion of Healing", 8); ("Scroll of Firebolt", 4); ("Scroll of Blink", 4);
    ("Scroll of Reveal", 3); ("Scroll of Silence", 2) ]%string.

(** [needle in hay] on strings. *)
Fixpoint contains (needle hay : string) : bool :=
  String.prefix needle hay
  || match hay with
     | EmptyString => false
     | String _ rest => contains needle rest
     end.

(** [Item(name=name)] with the defaults of the dataclass. *)
Definition plain_item (name : string) : Item :=
  mkItem name None false 1 false false None 0 "physical" EmptyString.

Definition create_item_from_name (name : string) : Item :=
  if contains "Sword" name
  then mkItem name (Some "weapon"%string) false 1 false false None 6 "physical"
              "A reliable blade."
  else if contains "Dagger" name
  then mkItem name (Some "weapon"%string) false 1 false false None 4 "physical"
              "Light but weak."
  else if contains "Chainmail" name || contains "Robe" name || contains "Aegis" name
  then mkItem name (Some "armor"%string) false 1 false false None 2 "physical"
              "Protective garb."
  else if contains "Potion" name
  then mkItem name None true 1 false false None 0 "physical" "Restores HP."
  else if contains "Scroll" name
  then mkItem name None true 1 false false None 0 "physical" "Casts a spell."
  else plain_item name.

Definition roll_loot (R : PyRandom.generator) (st : PyRandom.state R) (floor : Z)
  : outcome (Item * PyRandom.state R) :=
  let? (roll_type, st1) :=
    Utils.weighted_choice R st
      [("weapon", 3 + floor); ("armor", 2 + floor); ("consumable", 6 + floor * 2)]%string in
  let? (name, st2) :=
    (if String.eqb roll_type "weapon" then Utils.weighted_choice R st1 WEAPON_TABLE
     else if String.eqb roll_type "armor" then Utils.weighted_choice R st1 ARMOR_TABLE
     else Utils.weighted_choice R st1 CONSUMABLE_TABLE) in
  Ok (create_item_from_name name, st2).

End Loot.

(** ** serialization.py *)
Module Serialization.
Import Components AI.

(** An [ActorSnapshot]; the dict that [asdict] makes of a dataclass is kept
    as the record it came from. *)
Record ActorSnapshot : Type := mkActorSnapshot {
  entity_id : Z;
  snap_position : Z * Z * Z;
  snap_stats : Stats;
  snap_inventory : list Item;
  snap_equipment : list (string * option Item);
  snap_statuses : list StatusEffect
}.

(** [actor_to_snapshot]. *)
Definition actor_to_snapshot (id : Z) (position : Position) (stats : Stats)
           (inventory : option Inventory) (equipment : option Equipment)
           (statuses : option StatusTracker) : ActorSnapshot :=
  mkActorSnapshot id (pos_x position, pos_y position, pos_floor position) stats
    (match inventory with Some inv => items inv | None => [] end)
    (match equipment with Some e => Equipment_slots e | None => [] end)
    (match statuses with Some tracker => tracker | None => [] end).

(** The record that [snapshot_to_actor] returns as a dict. *)
Record Actor : Type := mkActor {
  actor_id : Z;
  actor_position : Position;
  actor_stats : Stats;
  actor_inventory : Inventory;
  actor_equipment : Equipment;
  actor_statuses : StatusTracker
}.

(** [snapshot_to_actor]: the inventory is made 5 wide and 4 high. *)
Definition snapshot_to_actor (snapshot : ActorSnapshot) : Actor :=
  let '(x, y, floor) := snap_position snapshot in
  mkActor (entity_id snapshot) (mkPosition x y floor) (snap_stats snapshot)
    (mkInventory 5 4 (snap_inventory snapshot))
    (fold_left (fun e '(slot, item) =>
                  match item with
                  | Some it => Equipment_setattr e slot (Some it)
                  | None => e
                  end) (snap_equipment snapshot) empty_equipment)
    (fold_left StatusTracker_add (snap_statuses snapshot) []).

End Serialization.

(** * Notions used in the statements *)

(** ** Maps and the order of a set *)
Section MapNotions.
Import Utils Mapgen.

(** Python iterates a set of cells in an order fixed by its history; the
    evaluations below take the order of insertion. *)
Definition insertion_order (cells : list pos) : list pos := cells.

(** [data.stairs_down in data.reachable(data.start, blocked=data.locked_doors)]
    on the map [generate_floor] returns. *)
Definition stairs_reachable (R : PyRandom.generator) (set_iter : list pos -> list pos)
           (seed floor : Z) (layout : string) : outcome bool :=
  let? m := generate_floor R set_iter seed floor layout in
  let? reach := reachable m (start m) (locked_doors m) in
  Ok (mem (stairs_down m) reach).

(** Two maps that agree on everything but the keys. *)
Definition same_layout (a b : MapData) : Prop :=
  width a = width b /\ height a = height b /\ tiles a = tiles b
  /\ start a = start b /\ stairs_up a = stairs_up b /\ stairs_down a = stairs_down b
  /\ locked_doors a = locked_doors b /\ hazards a = hazards b
  /\ trap_hints a = trap_hints b.

(** Two runs that end the same way, on maps of the same layout. *)
Definition same_outcome (a b : outcome MapData) : Prop :=
  match a, b with
  | Ok x, Ok y => same_layout x y
  | Raise e1, Raise e2 => e1 = e2
  | OutOfFuel, OutOfFuel => True
  | _, _ => False
  end.

End MapNotions.

(** ** Grid graphs *)
Section GraphNotions.
Import Tcod.

(** A node of a grid of shape [(n0, n1)]. *)
Definition within (n0 n1 : Z) (v : node) : bool :=
  (0 <=? fst v) && (fst v <? n0) && (0 <=? snd v) && (snd v <? n1).

(** The king-move distance and the cheapest cost (cardinal 2, diagonal 3)
    between two nodes of an open grid. *)
Definition chebyshev (a b : node) : Z :=
  Z.max (Z.abs (fst a - fst b)) (Z.abs (snd a - snd b)).

Definition open_cost (a b : node) : Z :=
  2 * chebyshev a b + Z.min (Z.abs (fst a - fst b)) (Z.abs (snd a - snd b)).

(** The table after [k] rounds on an open grid. *)
Definition settled (root : node) (k : nat) (v : node) : option Z :=
  if chebyshev v root <=? Z.of_nat k then Some (open_cost v root) else None.

(** The weight of a move on open ground: 2 along an axis, 3 across. *)
Definition step_weight (d : Z * Z) : Z :=
  if (fst d =? 0) || (snd d =? 0) then 2 else 3.

(** [linked g a b]: moves of the graph lead from [a] to [b]. *)
Inductive linked (g : SimpleGraph) (a : node) : node -> Prop :=
| linked_here : linked g a a
| linked_move (v : node) (d : Z * Z) :
    linked g a (back v d) -> In d directions -> move_cost g d v <> None ->
    linked g a v.

End GraphNotions.

(** ** Maps as grids to search *)
Section PathNotions.
Import Utils Mapgen Path.

(** The tile array has [height] rows of [width] tiles. *)
Definition is_well_formed (m : MapData) : bool :=
  (Numpy.len (tiles m) =? height m)
  && forallb (fun row => Numpy.len row =? width m) (tiles m).

Definition well_formed (m : MapData) : Prop :=
  Numpy.len (tiles m) = height m
  /\ Forall (fun row => Numpy.len row = width m) (tiles m).

(** No tile of the map is a wall. *)
Definition is_fully_open (m : MapData) : bool :=
  forallb (forallb is_walkable) (tiles m).

(** Two maps for examples: an open floor, and two cells walled off from
    each other. *)
Definition open_map (w h : Z) : MapData :=
  mkMapData w h (Numpy.full h w FLOOR) (0, 0) (0, 0) (0, 0) [] [] [] [] [].

Definition walled_map : MapData :=
  mkMapData 3 3 [[FLOOR; WALL; FLOOR]; [WALL; WALL; WALL]; [FLOOR; WALL; FLOOR]]
            (0, 0) (0, 0) (2, 2) [] [] [] [] [].

(** A map that is not its own transpose: one wall, at x = 1, y = 0. *)
Definition side_wall : MapData :=
  mkMapData 3 3 [[FLOOR; WALL; FLOOR]; [FLOOR; FLOOR; FLOOR]; [FLOOR; FLOOR; FLOOR]]
            (0, 0) (0, 0) (2, 0) [] [] [] [] [].

(** A cell of the map that can be entered. *)
Definition open_cell (m : MapData) (p : pos) : bool :=
  in_bounds m (fst p) (snd p)
  && match tile_at m (fst p) (snd p) with
     | Ok t => is_walkable t
     | _ => false
     end.

Definition fully_open (m : MapData) : Prop :=
  forall p, in_bounds m (fst p) (snd p) = true -> open_cell m p = true.

(** [route m a b]: king moves through cells that can be entered lead from
    [a] to [b]. *)
Inductive route (m : MapData) (a : pos) : pos -> Prop :=
| route_here : route m a a
| route_step (b c : pos) :
    route m a b -> chebyshev b c = 1 -> open_cell m c = true -> route m a c.

End PathNotions.

(** ** Rooms, lines, fills and frames *)
Section LayoutNotions.
Import Utils Mapgen.

(** A cell that a rectangle covers. *)
Definition covers (r : Rect) (p : pos) : Prop :=
  rect_x r <= fst p < rect_x r + rect_w r /\ rect_y r <= snd p < rect_y r + rect_h r.

(** No two rooms of the list intersect. *)
Definition disjoint_rooms (rooms : list Rect) : Prop :=
  ForallOrdPairs (fun a b => intersect a b = false) rooms.

(** Every cell of the list is a king move from the next one, the last
    from [goal]. *)
Fixpoint king_chain (path : list pos) (goal : pos) : Prop :=
  match path with
  | [] => True
  | p :: rest =>
      chebyshev p (match rest with [] => goal | q :: _ => q end) = 1
      /\ king_chain rest goal
  end.

(** A cell the fill may enter: inside the array, walkable, not blocked. *)
Definition fill_valid (walkable : Numpy.array bool) (blocked : list pos) (p : pos) : bool :=
  (0 <=? fst p) && (fst p <? shape_w walkable)
  && (0 <=? snd p) && (snd p <? shape_h walkable)
  && cell walkable p && negb (mem p blocked).

(** [walk walkable blocked a b]: steps to a cardinal neighbour, each onto
    a cell the fill may enter, lead from [a] to [b]. *)
Inductive walk (walkable : Numpy.array bool) (blocked : list pos) (a : pos) : pos -> Prop :=
| walk_here : walk walkable blocked a a
| walk_step (b c : pos) :
    walk walkable blocked a b -> In c (cardinal b) ->
    fill_valid walkable blocked c = true -> walk walkable blocked a c.

(** The cells (x, y) with [0 <= x < w] and [0 <= y < h]. *)
Definition grid_cells (w h : Z) : list pos :=
  list_prod (map Z.of_nat (seq 0 (Z.to_nat w))) (map Z.of_nat (seq 0 (Z.to_nat h))).

(** What the loop keeps true of the cells seen and of the queue. *)
Definition fill_invariant (walkable : Numpy.array bool) (blocked : list pos) (origin : pos)
           (visited q : list pos) : Prop :=
  NoDup visited
  /\ Forall (fun p => fill_valid walkable blocked p = true) visited
  /\ incl q visited
  /\ (forall v, In v visited -> walk walkable blocked origin v)
  /\ (forall v, In v visited ->
                In v q
                \/ forall c, In c (cardinal v) -> fill_valid walkable blocked c = true ->
                             In c visited)
  /\ In origin visited.

(** A tile and what may stand in its place later: stairs stay stairs,
    nothing becomes stairs, and a walkable tile stays walkable. *)
Definition stable (t t' : Tile) : Prop :=
  (t = STAIRS_UP <-> t' = STAIRS_UP)
  /\ (t = STAIRS_DOWN <-> t' = STAIRS_DOWN)
  /\ (is_walkable t = true -> is_walkable t' = true).

(** Every cell of [a] is a cell of [a'], with a tile that may stand in its
    place. *)
Definition tiles_stable (a a' : Numpy.array Tile) : Prop :=
  forall y x t, Numpy.get a y x = Ok t ->
                exists t', Numpy.get a' y x = Ok t' /\ stable t t'.

(** Two maps of the same size and the same start and stairs, the second
    with tiles that may stand in place of the first's. *)
Definition same_frame (m m' : MapData) : Prop :=
  width m' = width m /\ height m' = height m /\ start m' = start m
  /\ stairs_up m' = stairs_up m /\ stairs_down m' = stairs_down m
  /\ tiles_stable (tiles m) (tiles m').

(** A cell of the box that two cells span. *)
Definition in_box (a b c : pos) : Prop :=
  Z.min (fst a) (fst b) <= fst c <= Z.max (fst a) (fst b)
  /\ Z.min (snd a) (snd b) <= snd c <= Z.max (snd a) (snd b).

End LayoutNotions.

(** ** Status effects *)
Section StatusNotions.
Import Components.

(** The effect after one tick. *)
Definition ticked (e : StatusEffect) : StatusEffect := set_duration e (duration e - 1).

End StatusNotions.

(** ** Actions *)
Section ActionNotions.
Import Utils Components AI.

(** What is said of a returned action. *)
Definition well_aimed (actor : Position) (player_pos : pos) (action : AIAction) : Prop :=
  In (action_type action)
     ["attack"; "move"; "summon"; "trap"; "enrage"; "shockwave"; "wait"]%string
  /\ (In (action_type action) ["attack"; "summon"; "shockwave"]%string ->
      target action = Some player_pos)
  /\ (In (action_type action) ["enrage"; "wait"]%string -> target action = None)
  /\ (action_type action = "trap"%string ->
      target action = Some (pos_x actor, pos_y actor))
  /\ (action_type action = "move"%string -> target action <> None).

End ActionNotions.

(** * Properties *)

(** ** The generator

    Values of CPython's [random.Random]: the first word after [seed(0)],
    the first [random()], two draws of [randint(5, 10)] after
    [seed(174)], and a shuffle after [seed(42)]. *)
Section GeneratorFacts.

Example getrandbits_seed_0 :
  fst (PyRandom.getrandbits MT19937.generator 32 (MT19937.seed 0)) = 3626764237.
Proof. vm_compute. reflexivity. Qed.

Example random_seed_0 :
  Qred (fst (PyRandom.random MT19937.generator (MT19937.seed 0)))
  = (3802937935871711 # 4503599627370496).
Proof. vm_compute. reflexivity. Qed.

Example getrandbits_negative_seed :
  fst (PyRandom.getrandbits MT19937.generator 32 (MT19937.seed (-7))) = 1390851128.
Proof. vm_compute. reflexivity. Qed.

Example randint_seed_174 :
  (let? (a, st1) := PyRandom.randint MT19937.generator 5 10 (MT19937.seed 174) in
   let? (b, _) := PyRandom.randint MT19937.generator 5 10 st1 in
   Ok (a, b)) = Ok (5, 8).
Proof. vm_compute. reflexivity. Qed.

Example shuffle_seed_42 :
  (let? (l, _) := PyRandom.shuffle MT19937.generator [0; 1; 2; 3; 4; 5; 6; 7; 8; 9]
                                   (MT19937.seed 42) in
   Ok l) = Ok [7; 3; 2; 8; 5; 6; 9; 4; 0; 1].
Proof. vm_compute. reflexivity. Qed.

End GeneratorFacts.

(** ** Components: damage, experience, statuses, inventory *)
Section ComponentFacts.
Import Components.

(** [int] of a non-negative float is its floor. *)
Lemma py_int_floor (q : Q) : 0 <= Qnum q -> py_int q = Qfloor q.
Proof.
  intros H. unfold py_int, Qfloor. destruct q as [n d]; simpl in *.
  apply Z.quot_div_nonneg; lia.
Qed.

Lemma Qmax_0_pos (q : Q) : (0 < q)%Q -> Qmax 0 q = q.
Proof.
  intros H. unfold Qmax, GenericMinMax.gmax.
  assert (E : (0 ?= q)%Q = Lt) by (apply Qlt_alt; exact H).
  rewrite E. reflexivity.
Qed.

Lemma one_minus_range (r : Q) :
  (0 <= r)%Q -> (r < 1)%Q -> (0 <= 1 - r)%Q /\ (1 - r <= 1)%Q.
Proof.
  intros H0 H1. split.
  - unfold Qminus. rewrite <- (Qplus_opp_r r). apply Qplus_le_l.
    apply Qlt_le_weak. exact H1.
  - unfold Qminus. rewrite <- (Qplus_0_r 1) at 2. apply Qplus_le_r.
    apply (Qopp_le_compat 0 r). exact H0.
Qed.

Lemma mitigated_floor (amount : Z) (r : Q) :
  0 <= amount -> (r < 1)%Q ->
  py_int (inject_Z amount * Qmax 0 (1 - r))%Q = Qfloor (inject_Z amount * (1 - r))%Q.
Proof.
  intros Ha Hr.
  assert (Hpos : (0 < 1 - r)%Q).
  { rewrite <- (Qplus_opp_r r). apply Qplus_lt_l. exact Hr. }
  rewrite (Qmax_0_pos _ Hpos).
  apply py_int_floor.
  destruct (1 - r)%Q as [n d]. unfold Qlt in Hpos. simpl in *. nia.
Qed.

(** The record returned by [resolve_attack] carries the return value of
    the defender's [take_damage], and the defender is the one it left. *)
Lemma resolve_attack_reports_take_damage (R : PyRandom.generator)
      (attacker defender : Stats) (tracker : option StatusTracker)
      (st : PyRandom.state R) (element : string) (base : option (Z * Z))
      (crit_chance : Q) (chances : list (string * Q))
      (res : Combat.AttackResult) (defender' : Stats)
      (tracker' : option StatusTracker) (st' : PyRandom.state R) :
  Combat.resolve_attack R attacker defender tracker st element base crit_chance chances
    = Ok (res, defender', tracker', st') ->
  exists m : Z,
    Combat.damage res = fst (take_damage defender m element)
    /\ defender' = snd (take_damage defender m element).
Proof.
  unfold Combat.resolve_attack. intros H.
  destruct (match base with Some b => b | None => (atk attacker / 2, atk attacker) end)
    as [lo hi].
  destruct (PyRandom.randint R (Z.max 1 lo) (Z.max lo hi) st) as [[raw st1]| |];
    cbn [obind] in H; try discriminate.
  destruct (PyRandom.uniform R (85 # 100) (115 # 100) st1) as [variance st2].
  destruct (PyRandom.random R st2) as [u st3].
  match type of H with
  | context [take_damage defender ?m element] => exists m
  end.
  destruct (take_damage defender _ element) as [dealt d1].
  destruct chances as [|c cs]; [|destruct tracker as [tr|]].
  - inversion H; subst; simpl; auto.
  - destruct (Combat.roll_statuses R (c :: cs) tr st3) as [[[ap tr1] st4]| |];
      cbn [obind] in H; try discriminate.
    inversion H; subst; simpl; auto.
  - inversion H; subst; simpl; auto.
Qed.




(** C5.  One call of [gain_xp] levels up at most once.  When
    [xp + reward] reaches the threshold [10 + level * 5] the level grows by
    exactly 1, the maxima and attack and defense grow by 4, 2, 1 and 1, HP
    and MP are the new maxima, the left-over XP is [xp + reward -
    threshold] and the call returns [true]; otherwise only [xp] changes and
    it returns [false]. *)
Theorem gain_xp_levels_once (stats : Stats) (reward : Z) :
  let threshold := 10 + level stats * 5 in
  let leveled := fst (Combat.gain_xp stats reward) in
  let after := snd (Combat.gain_xp stats reward) in
  (threshold <= xp stats + reward ->
     leveled = true
     /\ level after = level stats + 1
     /\ max_hp after = max_hp stats + 4 /\ max_mp after = max_mp stats + 2
     /\ atk after = atk stats + 1 /\ defense after = defense stats + 1
     /\ hp after = max_hp after /\ mp after = max_mp after
     /\ xp after = xp stats + reward - threshold
     /\ evasion after = evasion stats /\ speed after = speed stats
     /\ resistances after = resistances stats)
  /\ (xp stats + reward < threshold ->
       leveled = false
       /\ after = mkStats (max_hp stats) (hp stats) (max_mp stats) (mp stats)
                          (atk stats) (defense stats) (evasion stats) (speed stats)
                          (xp stats + reward) (level stats) (resistances stats)).
Proof.
  cbv zeta. unfold Combat.gain_xp.
  destruct (Z.leb_spec (10 + level stats * 5) (xp stats + reward)) as [Hge|Hlt];
    cbn [fst snd max_hp hp max_mp mp atk defense evasion speed xp level resistances].
  - split; intros Hc; [repeat split | exfalso; lia].
  - split; intros Hc; [exfalso; lia | repeat split].
Qed.

(** The stats of the test suite gain 50 XP at level 1: one level, although
    the 35 left over exceed the next threshold of 20. *)
Lemma gain_xp_levels_once_witness :
  let stats := mkStats 20 20 5 5 8 2 5 90 0 1 default_resistances in
  fst (Combat.gain_xp stats 50) = true
  /\ level (snd (Combat.gain_xp stats 50)) = 2
  /\ xp (snd (Combat.gain_xp stats 50)) = 35.
Proof.
  cbv zeta.
  pose proof (proj1 (gain_xp_levels_once
                       (mkStats 20 20 5 5 8 2 5 90 0 1 default_resistances) 50)) as H.
  cbv zeta in H.
  destruct H as (H1 & H2 & _ & _ & _ & _ & _ & _ & H3 & _).
  - vm_compute. discriminate.
  - split; [exact H1 | split; [exact H2 | exact H3]].
Defined.

(** What [StatusTracker.add] does, by the place of the first entry of the
    effect's name. *)
Lemma StatusTracker_add_cases (statuses : StatusTracker) (effect : StatusEffect) :
  (~ In (status_name effect) (map status_name statuses)
   /\ StatusTracker_add statuses effect = statuses ++ [effect])
  \/ (exists before existing after,
        statuses = before ++ existing :: after
        /\ ~ In (status_name effect) (map status_name before)
        /\ status_name existing = status_name effect
        /\ StatusTracker_add statuses effect
           = before
             ++ mkStatusEffect (status_name existing)
                               (Z.max (duration existing) (duration effect))
                               (Z.max (potency existing) (potency effect))
                               (status_element existing)
             :: after).
Proof.
  induction statuses as [|s rest IH].
  - left. split; [simpl; tauto | reflexivity].
  - cbn [StatusTracker_add map].
    destruct (String.eqb_spec (status_name s) (status_name effect)) as [E|NE].
    + right. exists [], s, rest. simpl. repeat split; auto.
    + destruct IH as [[Hn Hadd] | (before & existing & after & Hs & Hn & He & Hadd)].
      * left. split; [intros [H|H]; [congruence | tauto] | rewrite Hadd; reflexivity].
      * right. exists (s :: before), existing, after.
        rewrite Hadd. split; [rewrite Hs; reflexivity|].
        split; [simpl; intros [H|H]; [congruence | tauto]|].
        split; [exact He | reflexivity].
Qed.

(** C6.  Adding an effect whose name is already tracked creates no second
    entry: the names are unchanged and the first entry of that name takes
    the larger duration and the larger potency; a new name is appended.
    Hence every [add] keeps at most one entry per name. *)
Theorem StatusTracker_add_one_per_name (statuses : StatusTracker) (effect : StatusEffect) :
  (In (status_name effect) (map status_name statuses) ->
     map status_name (StatusTracker_add statuses effect) = map status_name statuses
     /\ exists before existing after,
          statuses = before ++ existing :: after
          /\ ~ In (status_name effect) (map status_name before)
          /\ status_name existing = status_name effect
          /\ StatusTracker_add statuses effect
             = before
               ++ mkStatusEffect (status_name effect)
                                 (Z.max (duration existing) (duration effect))
                                 (Z.max (potency existing) (potency effect))
                                 (status_element existing)
               :: after)
  /\ (~ In (status_name effect) (map status_name statuses) ->
        StatusTracker_add statuses effect = statuses ++ [effect])
  /\ (NoDup (map status_name statuses) ->
        NoDup (map status_name (StatusTracker_add statuses effect))).
Proof.
  destruct (StatusTracker_add_cases statuses effect)
    as [[Hn Hadd] | (before & existing & after & Hs & Hn & He & Hadd)].
  - split; [tauto|]. split; [auto|].
    intros Hnd. rewrite Hadd, map_app. simpl.
    apply NoDup_app; [exact Hnd | repeat constructor; simpl; tauto |].
    intros a Ha [Hb|[]]. subst a. tauto.
  - assert (Hnames : map status_name (StatusTracker_add statuses effect)
                     = map status_name statuses).
    { rewrite Hadd, Hs, !map_app. reflexivity. }
    split; [|split].
    + intros _. split; [exact Hnames|].
      exists before, existing, after.
      split; [exact Hs|]. split; [exact Hn|]. split; [exact He|].
      rewrite Hadd, He. reflexivity.
    + intros Habsent. exfalso. apply Habsent. rewrite Hs, map_app. simpl.
      apply in_or_app. right. left. exact He.
    + intros Hnd. rewrite Hnames. exact Hnd.
Qed.

(** Burn applied twice: one entry, duration max 2 6 and potency max 5 3. *)
Lemma StatusTracker_add_one_per_name_witness :
  map status_name
      (StatusTracker_add [mkStatusEffect "burn" 2 5 "fire"] (mkStatusEffect "burn" 6 3 "fire"))
  = ["burn"%string].
Proof.
  refine (proj1 (proj1 (StatusTracker_add_one_per_name
                          [mkStatusEffect "burn" 2 5 "fire"]
                          (mkStatusEffect "burn" 6 3 "fire")) _)).
  simpl. left. reflexivity.
Defined.

(** The loop of [Inventory.add] merges into the first entry that passes
    its test, and falls through exactly when no entry passes it. *)
Lemma merge_into_cases (stored_items : list Item) (item : Item) :
  (existsb (fun stored => stack_match stored item) stored_items = false
   /\ merge_into stored_items item = None)
  \/ (exists before stored after,
        stored_items = before ++ stored :: after
        /\ existsb (fun s => stack_match s item) before = false
        /\ stack_match stored item = true
        /\ merge_into stored_items item
           = Some (before ++ set_quantity stored (quantity stored + quantity item) :: after)).
Proof.
  induction stored_items as [|s rest IH].
  - left. auto.
  - cbn [merge_into existsb].
    destruct (stack_match s item) eqn:E.
    + right. exists [], s, rest. simpl. auto.
    + destruct IH as [[Hn Hm] | (before & stored & after & Hs & Hn & Hmatch & Hm)].
      * left. rewrite Hm, Hn. auto.
      * right. exists (s :: before), stored, after.
        rewrite Hm. split; [rewrite Hs; reflexivity|].
        split; [simpl; rewrite E, Hn; reflexivity|].
        split; [exact Hmatch | reflexivity].
Qed.

Lemma merge_into_length (stored_items merged : list Item) (item : Item) :
  merge_into stored_items item = Some merged ->
  List.length merged = List.length stored_items.
Proof.
  destruct (merge_into_cases stored_items item)
    as [[_ Hm] | (before & stored & after & Hs & _ & _ & Hm)]; rewrite Hm.
  - discriminate.
  - intros H. inversion H. subst. rewrite !length_app. reflexivity.
Qed.






End ComponentFacts.

(** ** Map generation *)
Section MapgenFacts.
Import Utils Mapgen.


(** The guard after the placement loop. *)
Lemma finish_rooms_no_rooms (R : PyRandom.generator) (g : MapGenerator R)
      (t : Numpy.array Tile) (st : PyRandom.state R) :
  finish_rooms R g t [] st = Raise (RuntimeError "Failed to generate rooms").
Proof. reflexivity. Qed.



(** The placement loop keeps the rooms it has, and with attempts left it
    places one: a candidate that meets no room is kept. *)
Lemma place_rooms_keeps_a_room (R : PyRandom.generator) (fuel : nat) (w h : Z)
      (t t' : Numpy.array Tile) (rooms rooms' : list Rect) (attempts : Z)
      (st st' : PyRandom.state R) :
  place_rooms R fuel w h t rooms attempts st = Ok (t', rooms', st') ->
  (rooms <> [] \/ attempts < 200) ->
  rooms' <> [].
Proof.
  revert t rooms attempts st.
  induction fuel as [|fuel IH]; intros t rooms attempts st; cbn [place_rooms].
  - destruct ((Numpy.len rooms <? 12) && (attempts <? 200)) eqn:E; [discriminate|].
    intros H Hor. inversion H; subst.
    destruct Hor as [Hr | Ha]; [exact Hr|].
    apply andb_false_iff in E. destruct E as [E | E].
    + apply Z.ltb_ge in E. unfold Numpy.len in E. destruct rooms'; simpl in E; [lia | discriminate].
    + apply Z.ltb_ge in E. lia.
  - destruct ((Numpy.len rooms <? 12) && (attempts <? 200)) eqn:E.
    + destruct (PyRandom.randint R 5 10 st) as [[rw st1]| |]; cbn [obind]; try discriminate.
      destruct (PyRandom.randint R 5 10 st1) as [[rh st2]| |]; cbn [obind]; try discriminate.
      destruct (PyRandom.randint R 1 (w - rw - 1) st2) as [[x st3]| |];
        cbn [obind]; try discriminate.
      destruct (PyRandom.randint R 1 (h - rh - 1) st3) as [[y st4]| |];
        cbn [obind]; try discriminate.
      destruct (existsb (intersect (mkRect x y rw rh)) rooms) eqn:Ex.
      * intros H _. apply (IH _ _ _ _ H). left.
        destruct rooms; [discriminate | discriminate].
      * intros H _. apply (IH _ _ _ _ H). left.
        destruct rooms; discriminate.
    + intros H Hor. inversion H; subst.
      destruct Hor as [Hr | Ha]; [exact Hr|].
      apply andb_false_iff in E. destruct E as [E | E].
      * apply Z.ltb_ge in E. unfold Numpy.len in E.
        destruct rooms'; simpl in E; [lia | discriminate].
      * apply Z.ltb_ge in E. lia.
Qed.

(** X1.  The placement loop of [_generate_rooms] never ends without a room: the
    first candidate meets no room to intersect, so the guard that follows
    the loop is never taken on a run that reaches it. *)
Theorem rooms_guard_never_taken (R : PyRandom.generator) (g : MapGenerator R) :
  match place_rooms R 212 (gen_width R g) (gen_height R g)
                    (Numpy.full (gen_height R g) (gen_width R g) WALL) [] 0 (rng R g) with
  | Ok (_, rooms, _) => rooms <> []
  | _ => True
  end.
Proof.
  destruct (place_rooms R 212 (gen_width R g) (gen_height R g)
              (Numpy.full (gen_height R g) (gen_width R g) WALL) [] 0 (rng R g))
    as [[[t rooms] st]|e|] eqn:E; try exact I.
  apply (place_rooms_keeps_a_room R _ _ _ _ _ _ _ _ _ _ E). right. lia.
Qed.

End MapgenFacts.

Section ReachFacts.
Import Utils Mapgen.

Lemma same_layout_refl (a : MapData) : same_layout a a.
Proof. repeat split. Qed.

Lemma same_layout_set_tiles (a b : MapData) (t : Numpy.array Tile) :
  same_layout a b -> same_layout (set_tiles a t) (set_tiles b t).
Proof.
  intros (Hw & Hh & Ht & Hs & Hu & Hd & Hl & Hz & Hp).
  unfold same_layout, set_tiles. cbn. repeat split; assumption.
Qed.

(** The state a shuffle leaves, and whether it ends, depend on the
    length of the list alone. *)
Lemma shuffle_from_state (R : PyRandom.generator) {A : Type} (i : nat) (l l' : list A)
      (st : PyRandom.state R) (out : list A) (st' : PyRandom.state R) :
  PyRandom.shuffle_from R i l st = Ok (out, st') ->
  exists out', PyRandom.shuffle_from R i l' st = Ok (out', st').
Proof.
  revert l l' st. induction i as [|i IH]; intros l l' st; cbn [PyRandom.shuffle_from].
  - intros H. inversion H; subst. exists l'. reflexivity.
  - destruct (PyRandom.randbelow R (Z.of_nat (S i) + 1) st) as [[j st1]|e|];
      cbn [obind]; try discriminate.
    apply IH.
Qed.

Section Orders.
Variable R : PyRandom.generator.
Variables order order' : list pos -> list pos.
Hypothesis Hlength : forall cells, List.length (order' cells) = List.length (order cells).

Lemma pick_key_position_total (g g' : MapGenerator R) (reach : list pos)
      (key : option pos) :
  _pick_key_position R order g reach = Ok (key, g') ->
  exists key', _pick_key_position R order' g reach = Ok (key', g').
Proof.
  unfold _pick_key_position. pose proof (Hlength reach) as Hl.
  destruct (order reach) as [|a l] eqn:E; destruct (order' reach) as [|a' l'] eqn:E';
    try (simpl in Hl; discriminate).
  - intros H. inversion H; subst. exists None. reflexivity.
  - unfold PyRandom.shuffle. rewrite Hl.
    destruct (PyRandom.shuffle_from R (List.length (a :: l) - 1) (a :: l) (rng R g))
      as [[sh st1]|e|] eqn:Es; cbn [obind]; try discriminate.
    destruct (shuffle_from_state R _ _ (a' :: l') _ _ _ Es) as [sh' Es'].
    rewrite Es'. cbn [obind]. intros H.
    assert (Hg : g' = set_rng R g st1).
    { destruct (filter _ sh); inversion H; reflexivity. }
    subst g'.
    destruct (filter _ sh'); eexists; reflexivity.
Qed.

End Orders.

Lemma ensure_visit_layout (a b : MapData) (visited queue cells : list pos) :
  same_layout a b ->
  ensure_visit a visited queue cells = ensure_visit b visited queue cells.
Proof.
  intros (Hw & Hh & Ht & _). revert queue.
  induction cells as [|[nx ny] rest IH]; intros queue; cbn [ensure_visit]; [reflexivity|].
  unfold in_bounds, tile_at. rewrite Hw, Hh, Ht, !IH. reflexivity.
Qed.

Lemma carve_walls_layout (path : list pos) (a b : MapData) :
  same_layout a b -> same_outcome (carve_walls a path) (carve_walls b path).
Proof.
  revert a b. induction path as [|[px py] rest IH]; intros a b Hab; cbn [carve_walls].
  - exact Hab.
  - pose proof Hab as (Hw & Hh & Ht & _). unfold tile_at. rewrite Ht.
    destruct (Numpy.get (tiles b) py px) as [t|e|]; cbn [obind];
      [|reflexivity|exact I].
    destruct (Tile_eqb t WALL); [|apply IH; exact Hab].
    destruct (Numpy.set (tiles b) py px FLOOR) as [t1|e|]; cbn [obind];
      [|reflexivity|exact I].
    apply IH. apply same_layout_set_tiles. exact Hab.
Qed.

Lemma ensure_loop_layout (fuel : nat) (a b : MapData) (reach visited queue : list pos) :
  same_layout a b ->
  same_outcome (ensure_loop fuel a reach visited queue)
               (ensure_loop fuel b reach visited queue).
Proof.
  intros Hab. revert visited queue.
  induction fuel as [|fuel IH]; intros visited queue;
    destruct queue as [|[x y] queue']; cbn [ensure_loop];
    try exact Hab; try exact I.
  pose proof Hab as (_ & _ & _ & Hs & _). rewrite Hs.
  destruct (mem (x, y) reach).
  - destruct (trace_back (x, y) (start b)) as [path|e|]; cbn [obind];
      [|reflexivity|exact I].
    apply carve_walls_layout. exact Hab.
  - rewrite (ensure_visit_layout a b _ _ _ Hab).
    destruct (ensure_visit b ((x, y) :: visited) queue' (cardinal (x, y)))
      as [queue''|e|]; cbn [obind]; [|reflexivity|exact I].
    apply IH.
Qed.

(** The check that closes [_post_process], and the repair. *)
Lemma connection_layout (R : PyRandom.generator) (d d' m : MapData)
      (g g' : MapGenerator R) :
  same_layout d d' ->
  (let? reach := reachable d (start d) (locked_doors d) in
   if mem (stairs_down d) reach then Ok (d, g)
   else let? data5 := _ensure_connection d reach in Ok (data5, g)) = Ok (m, g') ->
  exists m',
    (let? reach := reachable d' (start d') (locked_doors d') in
     if mem (stairs_down d') reach then Ok (d', g)
     else let? data5 := _ensure_connection d' reach in Ok (data5, g)) = Ok (m', g')
    /\ same_layout m m'.
Proof.
  intros Hd. pose proof Hd as (Hw & Hh & Ht & Hs & Hu & Hdown & Hl & _).
  unfold reachable, walkable. rewrite Ht, Hs, Hl, Hdown.
  destruct (flood_fill _ (start d') (locked_doors d')) as [reach|e|];
    cbn [obind]; try discriminate.
  destruct (mem (stairs_down d') reach).
  - intros H. inversion H; subst. exists d'. split; [reflexivity | exact Hd].
  - unfold _ensure_connection. rewrite Hdown.
    pose proof (ensure_loop_layout ensure_budget d d' reach [] [stairs_down d'] Hd) as He.
    destruct (ensure_loop ensure_budget d reach [] [stairs_down d']) as [data5|e|];
      destruct (ensure_loop ensure_budget d' reach [] [stairs_down d']) as [data5'|e'|];
      cbn [obind]; try discriminate; try (exfalso; exact He).
    intros H. inversion H; subst. exists data5'. split; [reflexivity | exact He].
Qed.

Section OrdersOnMaps.
Variable R : PyRandom.generator.
Variables order order' : list pos -> list pos.
Hypothesis Hlength : forall cells, List.length (order' cells) = List.length (order cells).

(** The order in which a set of cells is listed reaches the key alone. *)
Lemma post_process_layout (g g' : MapGenerator R) (data m : MapData) :
  _post_process R order g data = Ok (m, g') ->
  exists m', _post_process R order' g data = Ok (m', g') /\ same_layout m m'.
Proof.
  unfold _post_process.
  destruct (PyRandom.shuffle R _ (rng R g)) as [[walkable_positions st1]|e|];
    cbn [obind]; try discriminate.
  destruct (place_hazards R data _ st1) as [[data1 st2]|e|]; cbn [obind]; try discriminate.
  destruct (floor_cells data1 walkable_positions) as [trap_candidates|e|];
    cbn [obind]; try discriminate.
  destruct (place_traps R g data1 _) as [data2|e|]; cbn [obind]; try discriminate.
  destruct (place_doors data2 [] _) as [[data3 doors]|e|]; cbn [obind]; try discriminate.
  destruct doors as [|door rest].
  - cbn [obind]. apply connection_layout. apply same_layout_refl.
  - destruct (PyRandom.randrange R _ _) as [[i st3]|e|]; cbn [obind]; try discriminate.
    destruct (Numpy.set (tiles data3) _ _ LOCKED_DOOR) as [t1|e|];
      cbn [obind]; try discriminate.
    destruct (reachable _ _ _) as [accessible_without_lock|e|];
      cbn [obind]; try discriminate.
    destruct (_pick_key_position R order _ accessible_without_lock)
      as [[key g1]|e|] eqn:Ek; cbn [obind]; try discriminate.
    destruct (pick_key_position_total R order order' Hlength _ _ _ _ Ek) as [key' Ek'].
    rewrite Ek'. cbn [obind].
    destruct key as [k|], key' as [k'|]; cbn [obind];
      apply connection_layout; unfold same_layout; cbn; repeat split.
Qed.

Lemma generate_floor_layout (seed floor : Z) (layout : string) (m : MapData) :
  generate_floor R order seed floor layout = Ok m ->
  exists m', generate_floor R order' seed floor layout = Ok m' /\ same_layout m m'.
Proof.
  unfold generate_floor, generate. cbv zeta.
  destruct (if String.eqb layout "caves" then _generate_caves R _ else _generate_rooms R _)
    as [[base g1]|e|]; cbn [obind]; try discriminate.
  destruct (_post_process R order g1 base) as [[m0 g2]|e|] eqn:Ep;
    cbn [obind]; try discriminate.
  intros H. inversion H; subst m0.
  destruct (post_process_layout _ _ _ _ Ep) as (m' & Ep' & Hl).
  rewrite Ep'. cbn [obind]. exists m'. split; [reflexivity | exact Hl].
Qed.

Lemma stairs_reachable_order (seed floor : Z) (layout : string) (b : bool) :
  stairs_reachable R order seed floor layout = Ok b ->
  stairs_reachable R order' seed floor layout = Ok b.
Proof.
  unfold stairs_reachable.
  destruct (generate_floor R order seed floor layout) as [m|e|] eqn:Eg;
    cbn [obind]; try discriminate.
  destruct (generate_floor_layout _ _ _ _ Eg) as (m' & Eg' & Hl).
  rewrite Eg'. cbn [obind].
  destruct Hl as (Hw & Hh & Ht & Hs & Hu & Hdown & Hlock & _).
  unfold reachable, walkable. rewrite Ht, Hs, Hlock, Hdown. exact (fun H => H).
Qed.

End OrdersOnMaps.

End ReachFacts.

Section Seed77.
Import Utils Mapgen.

(** C2.  The stairs down are not always reachable.  [generate_floor(77, 1,
    "rooms")] with Python's Mersenne Twister returns a map whose start is
    (4, 20), whose stairs down are at (42, 6) and whose one locked door is
    at (34, 19); with the locked door blocked the stairs down are outside
    the set reachable from the start, in whatever order the set of cells
    that the key is drawn from is listed.  (The search of
    [_ensure_connection] from the stairs passes the locked door, meets a
    cell of the start side and carves towards the start from there, which
    joins two cells that were joined already.) *)
Theorem stairs_down_cut_off (order : list pos -> list pos) :
  (forall cells, List.length (order cells) = List.length cells) ->
  stairs_reachable MT19937.generator order 77 1 "rooms" = Ok false
  /\ exists m,
       generate_floor MT19937.generator order 77 1 "rooms" = Ok m
       /\ start m = (4, 20) /\ stairs_down m = (42, 6) /\ locked_doors m = [(34, 19)].
Proof.
  intros Hlength.
  assert (Hlen : forall cells,
             List.length (order cells) = List.length (insertion_order cells))
    by exact Hlength.
  assert (H0 : match generate_floor MT19937.generator insertion_order 77 1 "rooms" with
               | Ok m =>
                   (let? reach := reachable m (start m) (locked_doors m) in
                    Ok (mem (stairs_down m) reach)) = Ok false
                   /\ start m = (4, 20) /\ stairs_down m = (42, 6)
                   /\ locked_doors m = [(34, 19)]
               | _ => False
               end).
  { vm_compute. repeat split. }
  destruct (generate_floor MT19937.generator insertion_order 77 1 "rooms")
    as [m0| |] eqn:Eg; try contradiction.
  destruct H0 as (Hr & Hs0 & Hd0 & Hl0).
  destruct (generate_floor_layout MT19937.generator insertion_order order Hlen _ _ _ _ Eg)
    as (m & Eg' & Hl).
  destruct Hl as (_ & _ & Ht & Hs & _ & Hd & Hlock & _).
  split.
  - unfold stairs_reachable. rewrite Eg'. cbn [obind].
    unfold reachable, walkable in *. rewrite <- Ht, <- Hs, <- Hd, <- Hlock. exact Hr.
  - exists m. split; [exact Eg'|].
    rewrite <- Hs, <- Hd, <- Hlock. repeat split; assumption.
Qed.

Lemma stairs_down_cut_off_witness :
  stairs_reachable MT19937.generator insertion_order 77 1 "rooms" = Ok false.
Proof.
  exact (proj1 (stairs_down_cut_off insertion_order (fun cells => eq_refl))).
Defined.

(** On the same map, with the sets listed in insertion order, the key of
    the locked door is recorded and lies in the set reachable with that
    door blocked. *)
Example key_reachable_seed_77 :
  match generate_floor MT19937.generator insertion_order 77 1 "rooms" with
  | Ok m =>
      door_keys m = [((34, 19), (14, 20))]
      /\ key_positions m = [(14, 20)]
      /\ (let? reach := reachable m (start m) [(34, 19)] in Ok (mem (14, 20) reach))
         = Ok true
  | _ => False
  end.
Proof. vm_compute. repeat split. Qed.

End Seed77.

(** ** Graph search *)
Section TcodFacts.
Import Tcod.

Lemma nth_error_py_range (n : Z) (k : nat) :
  nth_error (Numpy.py_range 0 n) k
  = if (k <? Z.to_nat n)%nat then Some (Z.of_nat k) else None.
Proof.
  unfold Numpy.py_range. rewrite Z.sub_0_r.
  destruct (Nat.ltb_spec k (Z.to_nat n)) as [Hlt|Hge].
  - rewrite nth_error_map, nth_error_seq.
    destruct (Nat.ltb_spec k (Z.to_nat n)); [|lia]. simpl. reflexivity.
  - apply nth_error_None. rewrite length_map, length_seq. exact Hge.
Qed.

(** Reading a tabulated table gives the tabulated function back. *)
Lemma dist_at_tabulate (n0 n1 : Z) (f : node -> option Z) (v : node) :
  dist_at (tabulate n0 n1 f) v = if within n0 n1 v then f v else None.
Proof.
  unfold dist_at, within, tabulate. destruct v as [i j]. simpl.
  destruct (Z.leb_spec 0 i) as [Hi|Hi]; simpl; [|reflexivity].
  destruct (Z.leb_spec 0 j) as [Hj|Hj]; simpl;
    [|destruct (i <? n0); reflexivity].
  rewrite nth_error_map, nth_error_py_range.
  destruct (Z.ltb_spec i n0) as [Hi'|Hi'];
    destruct (Nat.ltb_spec (Z.to_nat i) (Z.to_nat n0)); try lia; simpl; [|reflexivity].
  rewrite nth_error_map, nth_error_py_range.
  destruct (Z.ltb_spec j n1) as [Hj'|Hj'];
    destruct (Nat.ltb_spec (Z.to_nat j) (Z.to_nat n1)); try lia; simpl; [|reflexivity].
  rewrite !Z2Nat.id by lia. reflexivity.
Qed.

(** Two tabulations agree when their functions agree inside the table. *)
Lemma tabulate_ext (n0 n1 : Z) (f f' : node -> option Z) :
  (forall v, within n0 n1 v = true -> f v = f' v) ->
  tabulate n0 n1 f = tabulate n0 n1 f'.
Proof.
  intros H. unfold tabulate. apply map_ext_in. intros i Hi.
  apply map_ext_in. intros j Hj. apply H.
  unfold Numpy.py_range in *. rewrite in_map_iff in Hi, Hj.
  destruct Hi as (a & <- & Ha). destruct Hj as (b & <- & Hb).
  rewrite in_seq in Ha, Hb. unfold within. simpl.
  repeat (apply andb_true_intro; split); try apply Z.leb_le; try apply Z.ltb_lt; lia.
Qed.

Lemma last_cons_nonempty {A : Type} (x d d' : A) (l : list A) :
  l <> [] -> last (x :: l) d = last l d'.
Proof.
  revert x. induction l as [|a l IH]; intros x Hne; [congruence|].
  destruct l as [|b l]; [reflexivity|].
  change (last (x :: a :: b :: l) d) with (last (a :: b :: l) d).
  rewrite (IH a) by discriminate.
  change (last (a :: b :: l) d') with (last (b :: l) d'). reflexivity.
Qed.

(** The fold of [better] returns one of the values it was given ... *)
Lemma fold_better_in (cands : list (option Z)) (init : option Z) :
  In (fold_left better cands init) (init :: cands).
Proof.
  revert init. induction cands as [|c cs IH]; intros init; simpl.
  - left. reflexivity.
  - destruct (IH (better init c)) as [H|H].
    + rewrite <- H. destruct init as [x|], c as [y|]; simpl; auto.
      destruct (Z.min_spec x y) as [[_ E]|[_ E]]; rewrite E; auto.
    + right. right. exact H.
Qed.

(** ... and none of them is smaller. *)
Lemma fold_better_le (cands : list (option Z)) (init : option Z) (x : Z) :
  In (Some x) (init :: cands) ->
  exists y, fold_left better cands init = Some y /\ y <= x.
Proof.
  revert init x. induction cands as [|c cs IH]; intros init x; simpl.
  - intros [H|[]]. subst. exists x. split; [reflexivity | lia].
  - intros [H|[H|H]].
    + subst init. destruct c as [y|]; simpl.
      * destruct (IH (Some (Z.min x y)) (Z.min x y)) as (z & Hz & Hle).
        { left. reflexivity. }
        exists z. split; [exact Hz | lia].
      * apply IH. left. reflexivity.
    + subst c. destruct init as [y|]; simpl.
      * destruct (IH (Some (Z.min y x)) (Z.min y x)) as (z & Hz & Hle).
        { left. reflexivity. }
        exists z. split; [exact Hz | lia].
      * apply IH. left. reflexivity.
    + apply IH. right. exact H.
Qed.

(** A fold over values that are [None] or at least [m], one of them [m],
    is [m]. *)
Lemma fold_better_min (cands : list (option Z)) (init : option Z) (m : Z) :
  In (Some m) (init :: cands) ->
  (forall x, In (Some x) (init :: cands) -> m <= x) ->
  fold_left better cands init = Some m.
Proof.
  intros Hin Hlow.
  destruct (fold_better_le cands init m Hin) as (y & Hy & Hle).
  pose proof (fold_better_in cands init) as Hmem. rewrite Hy in Hmem.
  specialize (Hlow y Hmem). f_equal. rewrite Hy. f_equal. lia.
Qed.

Lemma fold_better_none (cands : list (option Z)) (init : option Z) :
  (forall x, ~ In (Some x) (init :: cands)) ->
  fold_left better cands init = None.
Proof.
  intros H. pose proof (fold_better_in cands init) as Hmem.
  destruct (fold_left better cands init) as [y|]; [|reflexivity].
  exfalso. exact (H y Hmem).
Qed.

Section OpenGrid.
Variable g : SimpleGraph.
Variables n0 n1 : Z.
Hypothesis Hshape0 : shape0 g = n0.
Hypothesis Hshape1 : shape1 g = n1.
Hypothesis Hcardinal : cardinal g = 2.
Hypothesis Hdiagonal : diagonal g = 3.
Hypothesis Hopen : forall v, inside g v = true -> node_cost g v = 1.
Variable root : node.
Hypothesis Hroot : within n0 n1 root = true.

Lemma inside_within (v : node) : inside g v = within n0 n1 v.
Proof. unfold inside, within. rewrite Hshape0, Hshape1. reflexivity. Qed.

Lemma move_cost_open (d : Z * Z) (v : node) :
  within n0 n1 v = true -> move_cost g d v = Some (step_weight d).
Proof.
  intros Hv. unfold move_cost, edge_cost, step_weight.
  rewrite inside_within, Hv, (Hopen v) by (rewrite inside_within; exact Hv).
  rewrite Hcardinal, Hdiagonal.
  destruct ((fst d =? 0) || (snd d =? 0)); reflexivity.
Qed.

(** What a candidate of the settled table is. *)
Lemma candidate_settled (k : nat) (v : node) (d : Z * Z) :
  within n0 n1 v = true ->
  candidate g (tabulate n0 n1 (settled root k)) v d
  = if within n0 n1 (back v d) && (chebyshev (back v d) root <=? Z.of_nat k)
    then Some (open_cost (back v d) root + step_weight d)
    else None.
Proof.
  intros Hv. unfold candidate.
  rewrite dist_at_tabulate, (move_cost_open d v Hv). unfold settled.
  destruct (within n0 n1 (back v d)); simpl; [|reflexivity].
  destruct (chebyshev (back v d) root <=? Z.of_nat k); reflexivity.
Qed.

(** One move changes the king-move distance by at most one and the cost
    by at most the weight of the move. *)
Lemma open_cost_step (v : node) (d : Z * Z) :
  In d directions ->
  open_cost v root <= open_cost (back v d) root + step_weight d
  /\ chebyshev v root <= chebyshev (back v d) root + 1.
Proof.
  unfold directions. intros Hd.
  destruct v as [i j], root as [r0 r1].
  unfold open_cost, chebyshev, back, step_weight.
  simpl in Hd.
  destruct Hd as [<-|[<-|[<-|[<-|[<-|[<-|[<-|[<-|[]]]]]]]]];
    cbn [fst snd Z.eqb orb]; lia.
Qed.

(** A node away from the root has a neighbour one step nearer to it,
    inside the grid, through which its cost is exact. *)
Lemma open_cost_pred (v : node) :
  within n0 n1 v = true -> 0 < chebyshev v root ->
  exists d, In d directions
            /\ within n0 n1 (back v d) = true
            /\ chebyshev (back v d) root = chebyshev v root - 1
            /\ open_cost (back v d) root + step_weight d = open_cost v root.
Proof.
  intros Hv Hpos. pose proof Hroot as Hr.
  destruct v as [i j], root as [r0 r1].
  unfold within, open_cost, chebyshev, back, step_weight in *. cbn [fst snd] in *.
  apply andb_prop in Hv. destruct Hv as [Hv Hv4].
  apply andb_prop in Hv. destruct Hv as [Hv Hv3].
  apply andb_prop in Hv. destruct Hv as [Hv1 Hv2].
  apply andb_prop in Hr. destruct Hr as [Hr Hr4].
  apply andb_prop in Hr. destruct Hr as [Hr Hr3].
  apply andb_prop in Hr. destruct Hr as [Hr1 Hr2].
  apply Z.leb_le in Hv1, Hv3, Hr1, Hr3. apply Z.ltb_lt in Hv2, Hv4, Hr2, Hr4.
  exists (Z.sgn (i - r0), Z.sgn (j - r1)).
  unfold directions.
  destruct (Z.sgn_spec (i - r0)) as [[Hi Ei]|[[Hi Ei]|[Hi Ei]]];
  destruct (Z.sgn_spec (j - r1)) as [[Hj Ej]|[[Hj Ej]|[Hj Ej]]];
    rewrite Ei, Ej; cbn [fst snd Z.opp Z.eqb orb]; try (exfalso; lia);
    (split; [simpl; tauto|]);
    (split; [repeat (apply andb_true_intro; split);
             try apply Z.leb_le; try apply Z.ltb_lt; lia|]);
    split; lia.
Qed.

(** One round of relaxation on the settled table settles the nodes one
    step further out. *)
Lemma relax_node_settled (k : nat) (v : node) :
  within n0 n1 v = true ->
  relax_node g (tabulate n0 n1 (settled root k)) v = settled root (S k) v.
Proof.
  intros Hv. unfold relax_node. rewrite dist_at_tabulate, Hv.
  assert (Hcand : forall x,
             In (Some x) (map (candidate g (tabulate n0 n1 (settled root k)) v) directions) ->
             chebyshev v root <= Z.of_nat k + 1 /\ open_cost v root <= x).
  { intros x Hin. apply in_map_iff in Hin. destruct Hin as (d & Hc & Hd).
    rewrite (candidate_settled k v d Hv) in Hc.
    destruct (within n0 n1 (back v d)); simpl in Hc; [|discriminate].
    destruct (Z.leb_spec (chebyshev (back v d) root) (Z.of_nat k)); [|discriminate].
    inversion Hc; subst x. destruct (open_cost_step v d Hd). lia. }
  destruct (Z.leb_spec (chebyshev v root) (Z.of_nat (S k))) as [Hle|Hgt].
  - assert (E : settled root (S k) v = Some (open_cost v root)).
    { unfold settled.
      destruct (Z.leb_spec (chebyshev v root) (Z.of_nat (S k))); [reflexivity | lia]. }
    rewrite E. apply fold_better_min.
    + destruct (Z.leb_spec (chebyshev v root) (Z.of_nat k)) as [Hk|Hk].
      { left. unfold settled.
        destruct (Z.leb_spec (chebyshev v root) (Z.of_nat k)); [reflexivity | lia]. }
      right. assert (Hpos : 0 < chebyshev v root) by lia.
      destruct (open_cost_pred v Hv Hpos) as (d & Hd & Hw & Hc & Hcost).
      apply in_map_iff. exists d. split; [|exact Hd].
      rewrite (candidate_settled k v d Hv), Hw. simpl.
      destruct (Z.leb_spec (chebyshev (back v d) root) (Z.of_nat k)); [|lia].
      rewrite Hcost. reflexivity.
    + intros x [Hx|Hx].
      * unfold settled in Hx.
        destruct (chebyshev v root <=? Z.of_nat k); inversion Hx. lia.
      * apply (Hcand x Hx).
  - assert (E : settled root (S k) v = None).
    { unfold settled.
      destruct (Z.leb_spec (chebyshev v root) (Z.of_nat (S k))); [lia | reflexivity]. }
    rewrite E. apply fold_better_none. intros x [Hx|Hx].
    + unfold settled in Hx.
      destruct (Z.leb_spec (chebyshev v root) (Z.of_nat k)); [lia | discriminate].
    + destruct (Hcand x Hx). lia.
Qed.

Lemma relax_settled (k : nat) :
  relax g (tabulate n0 n1 (settled root k)) = tabulate n0 n1 (settled root (S k)).
Proof.
  unfold relax. rewrite Hshape0, Hshape1.
  apply tabulate_ext. intros v Hv. apply relax_node_settled. exact Hv.
Qed.

Lemma relax_rounds_settled (n k : nat) :
  relax_rounds n g (tabulate n0 n1 (settled root k))
  = tabulate n0 n1 (settled root (n + k)).
Proof.
  revert k. induction n as [|n IH]; intros k; simpl.
  - reflexivity.
  - rewrite relax_settled, IH. f_equal. f_equal. lia.
Qed.

(** The table [resolve] computes for the single root. *)
Lemma resolve_open :
  resolve (mkPathfinder g [root])
  = tabulate n0 n1 (settled root (Z.to_nat (n0 * n1))).
Proof.
  unfold resolve. cbn [graph roots]. rewrite Hshape0, Hshape1.
  replace (tabulate n0 n1 (fun v => if existsb (node_eqb v) [root] then Some 0 else None))
    with (tabulate n0 n1 (settled root 0)).
  - rewrite relax_rounds_settled. f_equal. f_equal. lia.
  - apply tabulate_ext. intros v _. unfold settled, node_eqb. cbn [existsb].
    destruct v as [i j], root as [r0 r1]. unfold open_cost, chebyshev. cbn [fst snd].
    rewrite orb_false_r. change (Z.of_nat 0) with 0.
    destruct (Z.eqb_spec i r0); destruct (Z.eqb_spec j r1); cbn [andb];
      destruct (Z.leb_spec (Z.max (Z.abs (i - r0)) (Z.abs (j - r1))) 0);
      try lia; try reflexivity.
    f_equal. lia.
Qed.

(** A move along which the cost is exact leads one step nearer. *)
Lemma open_cost_exact_step (v : node) (d : Z * Z) :
  In d directions ->
  open_cost (back v d) root + step_weight d = open_cost v root ->
  chebyshev (back v d) root = chebyshev v root - 1.
Proof.
  unfold directions. intros Hd.
  destruct v as [i j], root as [r0 r1].
  unfold open_cost, chebyshev, back, step_weight.
  simpl in Hd.
  destruct Hd as [<-|[<-|[<-|[<-|[<-|[<-|[<-|[<-|[]]]]]]]]];
    cbn [fst snd Z.eqb orb]; lia.
Qed.

Section Travel.
Variable rounds : nat.
Hypothesis Hrounds :
  forall v, within n0 n1 v = true -> chebyshev v root <= Z.of_nat rounds.

(** On the settled table the root has no predecessor, and any other node
    travels to a neighbour one step nearer to the root. *)
Lemma travel_open (v : node) :
  within n0 n1 v = true ->
  (chebyshev v root = 0 -> travel g (tabulate n0 n1 (settled root rounds)) v = None)
  /\ (0 < chebyshev v root ->
      exists u, travel g (tabulate n0 n1 (settled root rounds)) v = Some u
                /\ within n0 n1 u = true
                /\ chebyshev u root = chebyshev v root - 1).
Proof.
  intros Hv. unfold travel. rewrite dist_at_tabulate, Hv.
  assert (Es : settled root rounds v = Some (open_cost v root)).
  { unfold settled. destruct (Z.leb_spec (chebyshev v root) (Z.of_nat rounds));
      [reflexivity | specialize (Hrounds v Hv); lia]. }
  rewrite Es.
  assert (Hzero : open_cost v root = 0 <-> chebyshev v root = 0).
  { unfold open_cost, chebyshev. lia. }
  split.
  - intros H0. destruct (Z.eqb_spec (open_cost v root) 0); [reflexivity | tauto].
  - intros Hpos. destruct (Z.eqb_spec (open_cost v root) 0) as [E|_].
    { apply Hzero in E. lia. }
    destruct (find _ directions) as [d|] eqn:Ef.
    + apply find_some in Ef. destruct Ef as [Hd Hc].
      rewrite (candidate_settled rounds v d Hv) in Hc.
      destruct (within n0 n1 (back v d)) eqn:Hw; simpl in Hc; [|discriminate].
      destruct (chebyshev (back v d) root <=? Z.of_nat rounds); [|discriminate].
      apply Z.eqb_eq in Hc.
      exists (back v d). split; [reflexivity|]. split; [exact Hw|].
      apply open_cost_exact_step; assumption.
    + exfalso.
      destruct (open_cost_pred v Hv Hpos) as (d & Hd & Hw & Hc & Hcost).
      pose proof (find_none _ _ Ef d Hd) as Hnone. simpl in Hnone.
      rewrite (candidate_settled rounds v d Hv), Hw in Hnone. simpl in Hnone.
      destruct (Z.leb_spec (chebyshev (back v d) root) (Z.of_nat rounds)) as [_|Hbad].
      * rewrite Hcost, Z.eqb_refl in Hnone. discriminate.
      * specialize (Hrounds (back v d) Hw). lia.
Qed.

(** The travelled path has one node per step of king-move distance, and
    ends at the root. *)
Lemma travel_path_open (fuel : nat) (v : node) :
  within n0 n1 v = true ->
  chebyshev v root <= Z.of_nat fuel ->
  Z.of_nat (List.length (travel_path fuel g (tabulate n0 n1 (settled root rounds)) v))
  = chebyshev v root + 1
  /\ last (travel_path fuel g (tabulate n0 n1 (settled root rounds)) v) v = root.
Proof.
  revert v. induction fuel as [|fuel IH]; intros v Hv Hfuel.
  - assert (H0 : chebyshev v root = 0).
    { unfold chebyshev in *. lia. }
    simpl. split; [lia|].
    destruct v as [i j], root as [r0 r1]. unfold chebyshev in H0. simpl in H0.
    f_equal; lia.
  - cbn [travel_path].
    destruct (travel_open v Hv) as [Hroot0 Hstep].
    assert (Hc : chebyshev v root = 0 \/ 0 < chebyshev v root).
    { unfold chebyshev. lia. }
    destruct Hc as [H0|Hpos].
    + rewrite (Hroot0 H0). simpl. split; [lia|].
      destruct v as [i j], root as [r0 r1]. unfold chebyshev in H0. simpl in H0.
      f_equal; lia.
    + destruct (Hstep Hpos) as (u & Hu & Hw & Hcu). rewrite Hu.
      destruct (IH u Hw) as [Hlen Hlast]; [lia|].
      split.
      * cbn [List.length]. rewrite Nat2Z.inj_succ, Hlen. lia.
      * rewrite (last_cons_nonempty v v u) by (destruct fuel; discriminate).
        exact Hlast.
Qed.

End Travel.
End OpenGrid.

(** *** Routes in a graph and what [resolve] reaches *)

Lemma relax_reaches_linked (g : SimpleGraph) (root : node) (t : table) :
  (forall v x, dist_at t v = Some x -> linked g root v) ->
  forall v x, dist_at (relax g t) v = Some x -> linked g root v.
Proof.
  intros Ht v x. unfold relax. rewrite dist_at_tabulate.
  destruct (within (shape0 g) (shape1 g) v); [|discriminate].
  unfold relax_node. intros Hx.
  pose proof (fold_better_in (map (candidate g t v) directions) (dist_at t v)) as Hin.
  rewrite Hx in Hin. destruct Hin as [Hin|Hin].
  - apply (Ht v x). exact Hin.
  - apply in_map_iff in Hin. destruct Hin as (d & Hc & Hd).
    unfold candidate in Hc.
    destruct (dist_at t (back v d)) as [du|] eqn:Eu; [|discriminate].
    destruct (move_cost g d v) as [w|] eqn:Ew; [|discriminate].
    apply (linked_move g root v d); [apply (Ht _ du Eu) | exact Hd |].
    rewrite Ew. discriminate.
Qed.

Lemma relax_rounds_reach_linked (n : nat) (g : SimpleGraph) (root : node) (t : table) :
  (forall v x, dist_at t v = Some x -> linked g root v) ->
  forall v x, dist_at (relax_rounds n g t) v = Some x -> linked g root v.
Proof.
  revert t. induction n as [|n IH]; intros t Ht; simpl.
  - exact Ht.
  - apply IH. apply relax_reaches_linked. exact Ht.
Qed.

(** Every node with a distance is linked to the root. *)
Lemma resolve_reaches_linked (g : SimpleGraph) (root v : node) (x : Z) :
  dist_at (resolve (mkPathfinder g [root])) v = Some x -> linked g root v.
Proof.
  unfold resolve. cbn [graph roots]. apply relax_rounds_reach_linked.
  intros u y. rewrite dist_at_tabulate.
  destruct (within (shape0 g) (shape1 g) u); [|discriminate].
  cbn [existsb]. rewrite orb_false_r. unfold node_eqb.
  destruct (Z.eqb_spec (fst u) (fst root)); [|discriminate].
  destruct (Z.eqb_spec (snd u) (snd root)); [|discriminate].
  intros _. destruct u, root. simpl in *. subst. apply linked_here.
Qed.

(** A node no route reaches is the only node of its path. *)
Lemma path_to_unlinked (g : SimpleGraph) (root index : node) :
  inside g index = true ->
  ~ linked g root index ->
  path_to (mkPathfinder g [root]) index = Ok [index].
Proof.
  intros Hin Hno. unfold path_to, path_from. cbv zeta. cbn [graph].
  rewrite Hin. cbn [obind].
  assert (Hd : dist_at (resolve (mkPathfinder g [root])) index = None).
  { destruct (dist_at (resolve (mkPathfinder g [root])) index) as [x|] eqn:E;
      [|reflexivity].
    exfalso. apply Hno. eapply resolve_reaches_linked. exact E. }
  assert (Ht : travel g (resolve (mkPathfinder g [root])) index = None).
  { unfold travel. rewrite Hd. reflexivity. }
  destruct (Z.to_nat (shape0 g * shape1 g)); cbn [travel_path]; [reflexivity|].
  rewrite Ht. reflexivity.
Qed.

End TcodFacts.

(** ** Paths on a map *)
Section NumpyFacts.

(** Reading with non-negative indices is plain list lookup. *)
Lemma get_nonneg {A : Type} (a : Numpy.array A) (y x : Z) :
  0 <= y -> 0 <= x ->
  Numpy.get a y x
  = match nth_error a (Z.to_nat y) with
    | Some row =>
        match nth_error row (Z.to_nat x) with
        | Some v => Ok v
        | None => Raise IndexError
        end
    | None => Raise IndexError
    end.
Proof.
  intros Hy Hx. unfold Numpy.get, Numpy.np_index, Numpy.len.
  destruct (Z.leb_spec 0 y); [|lia]. destruct (Z.leb_spec 0 x); [|lia]. simpl.
  destruct (Z.ltb_spec y (Z.of_nat (List.length a))) as [Hlt|Hge].
  - destruct (nth_error a (Z.to_nat y)) as [row|] eqn:Er; [|reflexivity].
    destruct (Z.ltb_spec x (Z.of_nat (List.length row))) as [Hlt'|Hge'].
    + reflexivity.
    + destruct (Z.ltb_spec x 0); [lia|]. rewrite andb_false_r.
      assert (E : nth_error row (Z.to_nat x) = None) by (apply nth_error_None; lia).
      rewrite E. reflexivity.
  - destruct (Z.ltb_spec y 0); [lia|]. rewrite andb_false_r.
    assert (E : nth_error a (Z.to_nat y) = None) by (apply nth_error_None; lia).
    rewrite E. reflexivity.
Qed.

Lemma get_map {A B : Type} (h : A -> B) (a : Numpy.array A) (y x : Z) :
  0 <= y -> 0 <= x ->
  Numpy.get (map (map h) a) y x
  = match Numpy.get a y x with
    | Ok v => Ok (h v)
    | Raise e => Raise e
    | OutOfFuel => OutOfFuel
    end.
Proof.
  intros Hy Hx. rewrite !get_nonneg by assumption. rewrite nth_error_map.
  destruct (nth_error a (Z.to_nat y)) as [row|]; simpl; [|reflexivity].
  rewrite nth_error_map. destruct (nth_error row (Z.to_nat x)); reflexivity.
Qed.

(** A column that every row reaches has one entry per row. *)
Lemma column_spec {A : Type} (a : Numpy.array A) (c : nat) :
  Forall (fun row => (c < List.length row)%nat) a ->
  List.length (Numpy.column a c) = List.length a
  /\ forall r, nth_error (Numpy.column a c) r
               = match nth_error a r with
                 | Some row => nth_error row c
                 | None => None
                 end.
Proof.
  induction 1 as [|row rest Hrow Hrest [IHlen IHnth]].
  - split; [reflexivity|]. intros [|r]; reflexivity.
  - unfold Numpy.column in *. cbn [flat_map].
    destruct (nth_error row c) as [v|] eqn:Ev.
    + split; [simpl; rewrite IHlen; reflexivity|].
      intros [|r]; simpl; [symmetry; exact Ev | apply IHnth].
    + apply nth_error_None in Ev. lia.
Qed.

(** Reading the transpose of a rectangular array swaps the indices. *)
Lemma get_transpose {A : Type} (a : Numpy.array A) (n1 : nat) (i j : Z) :
  a <> [] ->
  Forall (fun row => List.length row = n1) a ->
  0 <= i < Z.of_nat n1 -> 0 <= j ->
  Numpy.get (Numpy.transpose a) i j = Numpy.get a j i.
Proof.
  intros Hne Hrect Hi Hj. rewrite !get_nonneg by lia.
  unfold Numpy.transpose. destruct a as [|row0 rest]; [congruence|].
  assert (Hlen0 : List.length row0 = n1) by (inversion Hrect; assumption).
  rewrite nth_error_map, nth_error_seq, Hlen0.
  destruct (Nat.ltb_spec (Z.to_nat i) n1); [|lia]. cbn [option_map Nat.add].
  assert (Hcol : Forall (fun row => (Z.to_nat i < List.length row)%nat) (row0 :: rest)).
  { eapply Forall_impl; [|exact Hrect]. simpl. intros row Hr. lia. }
  destruct (column_spec (row0 :: rest) (Z.to_nat i) Hcol) as [_ Hnth].
  rewrite Hnth.
  destruct (nth_error (row0 :: rest) (Z.to_nat j)) as [row|]; reflexivity.
Qed.

Lemma transpose_shape {A : Type} (a : Numpy.array A) (n1 : nat) :
  a <> [] -> (0 < n1)%nat ->
  Forall (fun row => List.length row = n1) a ->
  List.length (Numpy.transpose a) = n1
  /\ exists col rest, Numpy.transpose a = col :: rest
                      /\ List.length col = List.length a.
Proof.
  intros Hne Hpos Hrect. unfold Numpy.transpose.
  destruct a as [|row0 rest]; [congruence|].
  assert (Hlen0 : List.length row0 = n1) by (inversion Hrect; assumption).
  rewrite Hlen0. split; [rewrite length_map, length_seq; reflexivity|].
  destruct n1 as [|n]; [lia|]. cbn [seq map].
  eexists. eexists. split; [reflexivity|].
  apply column_spec. eapply Forall_impl; [|exact Hrect]. simpl. intros row Hr. lia.
Qed.

End NumpyFacts.

Section PathFacts.
Import Utils Mapgen Path.

Section OnMap.
Variable m : MapData.
Hypothesis Hwf : well_formed m.
Hypothesis Hwidth : 0 < width m.
Hypothesis Hheight : 0 < height m.

Lemma tiles_rows : List.length (tiles m) = Z.to_nat (height m).
Proof. destruct Hwf as [H _]. unfold Numpy.len in H. lia. Qed.

Lemma cost_rect :
  cost_of (walkable m) <> []
  /\ Forall (fun row => List.length row = Z.to_nat (width m)) (cost_of (walkable m))
  /\ List.length (cost_of (walkable m)) = Z.to_nat (height m).
Proof.
  pose proof tiles_rows as Hrows. destruct Hwf as [_ Hcols].
  unfold cost_of, walkable. rewrite map_map.
  split; [|split].
  - destruct (tiles m); simpl in *; [lia | discriminate].
  - apply Forall_map. eapply Forall_impl; [|exact Hcols].
    simpl. intros row Hr. rewrite !length_map. unfold Numpy.len in Hr. lia.
  - rewrite length_map. exact Hrows.
Qed.

Lemma search_graph_shape :
  Tcod.shape0 (search_graph m) = width m /\ Tcod.shape1 (search_graph m) = height m.
Proof.
  destruct cost_rect as (Hne & Hrect & Hrows).
  destruct (transpose_shape (cost_of (walkable m)) (Z.to_nat (width m)) Hne
              ltac:(lia) Hrect) as (Hlen & col & rest & Ht & Hcol).
  unfold Tcod.shape0, Tcod.shape1, search_graph, Numpy.len. cbn [Tcod.cost].
  rewrite Hlen. split; [lia|]. rewrite Ht, Hcol, Hrows. lia.
Qed.

Lemma inside_in_bounds (v : Tcod.node) :
  Tcod.inside (search_graph m) v = in_bounds m (fst v) (snd v).
Proof.
  destruct search_graph_shape as [H0 H1].
  unfold Tcod.inside, in_bounds. rewrite H0, H1. reflexivity.
Qed.

(** The node (i, j) of the search graph costs what the cell x = i, y = j
    of the map does. *)
Lemma node_cost_cell (v : Tcod.node) :
  in_bounds m (fst v) (snd v) = true ->
  Tcod.node_cost (search_graph m) v = if open_cell m v then 1 else 0.
Proof.
  intros Hin. unfold open_cell. rewrite Hin. cbn [andb].
  pose proof Hin as Hb. unfold in_bounds in Hb.
  apply andb_prop in Hb. destruct Hb as [Hb Hb4].
  apply andb_prop in Hb. destruct Hb as [Hb Hb3].
  apply andb_prop in Hb. destruct Hb as [Hb1 Hb2].
  apply Z.leb_le in Hb1, Hb3. apply Z.ltb_lt in Hb2, Hb4.
  destruct cost_rect as (Hne & Hrect & Hrows).
  unfold Tcod.node_cost, search_graph. cbn [Tcod.cost].
  rewrite (get_transpose _ (Z.to_nat (width m))) by (try assumption; lia).
  unfold cost_of, walkable, tile_at. rewrite !get_map by lia.
  destruct (Numpy.get (tiles m) (snd v) (fst v)) as [t| |]; try reflexivity.
Qed.

Lemma moves_are_adjacent (v : Tcod.node) (d : Z * Z) :
  In d Tcod.directions -> chebyshev (Tcod.back v d) v = 1.
Proof.
  unfold Tcod.directions. intros Hd. destruct v as [i j].
  unfold chebyshev, Tcod.back. simpl in Hd.
  destruct Hd as [<-|[<-|[<-|[<-|[<-|[<-|[<-|[<-|[]]]]]]]]]; cbn [fst snd]; lia.
Qed.

(** A route of the search graph is a route of the map. *)
Lemma linked_route (a b : Tcod.node) :
  linked (search_graph m) a b -> route m a b.
Proof.
  induction 1 as [|v d Hl IH Hd Hmove].
  - apply route_here.
  - apply (route_step m a (Tcod.back v d) v IH (moves_are_adjacent v d Hd)).
    unfold Tcod.move_cost in Hmove.
    destruct (Tcod.inside (search_graph m) v) eqn:Hin; [|simpl in Hmove; congruence].
    rewrite inside_in_bounds in Hin.
    rewrite (node_cost_cell v Hin) in Hmove.
    destruct (open_cell m v); [reflexivity|]. simpl in Hmove. congruence.
Qed.

End OnMap.

Lemma is_well_formed_spec (m : MapData) : is_well_formed m = true -> well_formed m.
Proof.
  unfold is_well_formed, well_formed. intros H.
  apply andb_prop in H. destruct H as [H1 H2]. split; [apply Z.eqb_eq; exact H1|].
  apply Forall_forall. intros row Hin.
  apply Z.eqb_eq. exact (proj1 (forallb_forall _ _) H2 row Hin).
Qed.

Lemma is_fully_open_spec (m : MapData) :
  well_formed m -> is_fully_open m = true -> fully_open m.
Proof.
  intros [Hrows Hcols] Hopen p Hin. unfold open_cell. rewrite Hin. cbn [andb].
  unfold in_bounds in Hin.
  apply andb_prop in Hin. destruct Hin as [Hb Hb4].
  apply andb_prop in Hb. destruct Hb as [Hb Hb3].
  apply andb_prop in Hb. destruct Hb as [Hb1 Hb2].
  apply Z.leb_le in Hb1, Hb3. apply Z.ltb_lt in Hb2, Hb4.
  unfold tile_at. rewrite get_nonneg by lia.
  unfold Numpy.len in *.
  destruct (nth_error (tiles m) (Z.to_nat (snd p))) as [row|] eqn:Er.
  - pose proof (nth_error_In _ _ Er) as Hrow.
    pose proof (proj1 (Forall_forall _ _) Hcols row Hrow) as Hlen. simpl in Hlen.
    destruct (nth_error row (Z.to_nat (fst p))) as [t|] eqn:Et.
    + pose proof (proj1 (forallb_forall _ _) Hopen row Hrow) as Hr.
      exact (proj1 (forallb_forall _ _) Hr t (nth_error_In _ _ Et)).
    + apply nth_error_None in Et. lia.
  - apply nth_error_None in Er. lia.
Qed.

Lemma reversed_involutive (p : Z * Z) : reversed (reversed p) = p.
Proof. destruct p. reflexivity. Qed.

Lemma last_map {A B : Type} (f : A -> B) (l : list A) (d : A) :
  last (map f l) (f d) = f (last l d).
Proof.
  induction l as [|a l IH]; [reflexivity|].
  destruct l as [|b l]; [reflexivity|]. exact IH.
Qed.

Lemma last_rev {A : Type} (l : list A) (d : A) : last (rev l) d = hd d l.
Proof. destruct l as [|a l]; [reflexivity|]. simpl. apply last_last. Qed.

Lemma hd_error_rev {A : Type} (l : list A) (d : A) :
  l <> [] -> hd_error (rev l) = Some (last l d).
Proof.
  induction l as [|a l IH]; [congruence|]. intros _.
  destruct l as [|b l]; [reflexivity|].
  change (rev (a :: b :: l)) with (rev (b :: l) ++ [a]).
  specialize (IH ltac:(discriminate)).
  destruct (rev (b :: l)) as [|x xs]; [discriminate|]. exact IH.
Qed.


(** On [walled_map] no route leaves the corner cell. *)
Lemma walled_map_no_route : ~ route walled_map (0, 0) (2, 2).
Proof.
  assert (Hstay : forall b, route walled_map (0, 0) b -> b = (0, 0)).
  { induction 1 as [|b c Hr IH Hstep Hcell]; [reflexivity|]. subst b.
    exfalso. destruct c as [x y]. unfold chebyshev in Hstep. cbn [fst snd] in Hstep.
    assert (Hx : x = -1 \/ x = 0 \/ x = 1) by lia.
    assert (Hy : y = -1 \/ y = 0 \/ y = 1) by lia.
    destruct Hx as [ -> | [ -> | -> ] ], Hy as [ -> | [ -> | -> ] ];
      vm_compute in Hcell; try discriminate; vm_compute in Hstep; discriminate. }
  intros Hr. apply Hstay in Hr. discriminate.
Qed.



(** The search reads the grid transposed: [cost.T] is indexed by (x, y)
    and is given [start[::-1]], which is (y, x).  On [side_wall] the path
    along the row y = 0 steps on the wall at (1, 0), the path along the
    open column x = 0 leaves it, and on a grid that is not square a cell
    in bounds can be out of range. *)
Lemma astar_path_reads_transposed_cells :
  tile_at side_wall 1 0 = Ok WALL
  /\ astar_path side_wall (0, 0) (2, 0) = Ok [(0, 0); (1, 0); (2, 0)]
  /\ astar_path side_wall (0, 0) (0, 2) = Ok [(0, 0); (1, 1); (0, 2)]
  /\ in_bounds (open_map 5 3) 4 0 = true
  /\ astar_path (open_map 5 3) (0, 0) (4, 0) = Raise IndexError.
Proof. vm_compute. repeat split. Qed.

End PathFacts.

(** ** The enemy brain *)
Section BrainFacts.
Import Utils Mapgen Components Path AI.

(** What [step_along] gives for a path that was found. *)
Lemma step_along_cases (R : PyRandom.generator) (m : MapData) (here player_pos : pos)
      (st : PyRandom.state R) (path : list pos) :
  astar_path m here player_pos = Ok path ->
  step_along R m here player_pos st
  = match path with
    | _ :: p :: _ => Ok (mkAIAction "move" (Some p), st)
    | _ => Ok (mkAIAction "wait" None, st)
    end.
Proof.
  intros Hp. unfold step_along. rewrite Hp. cbn [obind].
  destruct path as [|a [|b rest]]; try reflexivity.
  unfold Numpy.len.
  destruct (Z.ltb_spec 1 (Z.of_nat (List.length (a :: b :: rest)))) as [_|H];
    [|simpl List.length in H; lia].
  unfold list_get, Numpy.np_index, Numpy.len.
  destruct (Z.ltb_spec 1 (Z.of_nat (List.length (a :: b :: rest)))) as [_|H];
    [|simpl List.length in H; lia].
  reflexivity.
Qed.



End BrainFacts.

(** ** Cells, rectangles and flood fill *)
Section UtilsFacts.
Import Utils.

Lemma pos_eqb_eq (a b : pos) : pos_eqb a b = true <-> a = b.
Proof.
  unfold pos_eqb. destruct a as [ax ay], b as [bx b_y]. cbn [fst snd].
  rewrite andb_true_iff, !Z.eqb_eq. split.
  - intros [-> ->]. reflexivity.
  - intros H. inversion H. auto.
Qed.

Lemma pos_eqb_refl (a : pos) : pos_eqb a a = true.
Proof. apply pos_eqb_eq. reflexivity. Qed.

Lemma mem_In (p : pos) (s : list pos) : mem p s = true <-> In p s.
Proof.
  unfold mem. rewrite existsb_exists. split.
  - intros (x & Hin & He). apply pos_eqb_eq in He. subst. exact Hin.
  - intros Hin. exists p. split; [exact Hin | apply pos_eqb_refl].
Qed.

Lemma mem_false (p : pos) (s : list pos) : mem p s = false <-> ~ In p s.
Proof.
  rewrite <- mem_In. destruct (mem p s); split; intros; try congruence; tauto.
Qed.

Lemma intersect_sym (a b : Rect) : intersect a b = intersect b a.
Proof.
  unfold intersect.
  destruct (Z.leb_spec (rect_x b + rect_w b) (rect_x a));
    destruct (Z.leb_spec (rect_x a + rect_w a) (rect_x b));
    destruct (Z.leb_spec (rect_y b + rect_h b) (rect_y a));
    destruct (Z.leb_spec (rect_y a + rect_h a) (rect_y b)); reflexivity.
Qed.

(** X2.  [Rect.intersect] does not depend on which rectangle is asked, and
    rectangles of positive size intersect exactly when they share a cell.
    The centre of such a rectangle is one of its cells. *)
Theorem intersect_shares_cell (a b : Rect) :
  intersect a b = intersect b a
  /\ (0 < rect_w a -> 0 < rect_h a -> 0 < rect_w b -> 0 < rect_h b ->
      (intersect a b = true <-> exists p, covers a p /\ covers b p))
  /\ (0 < rect_w a -> 0 < rect_h a -> covers a (center a)).
Proof.
  split; [apply intersect_sym|]. unfold intersect, covers, center. split.
  - intros Hwa Hha Hwb Hhb.
    rewrite negb_true_iff, !orb_false_iff, !Z.leb_gt. split.
    + intros [[[H1 H2] H3] H4].
      exists (Z.max (rect_x a) (rect_x b), Z.max (rect_y a) (rect_y b)).
      cbn [fst snd]. lia.
    + intros ([x y] & Ha & Hb). cbn [fst snd] in *. lia.
  - intros Hw Hh. cbn [fst snd].
    pose proof (Z.div_pos (rect_w a) 2 ltac:(lia) ltac:(lia)).
    pose proof (Z.div_lt (rect_w a) 2 ltac:(lia) ltac:(lia)).
    pose proof (Z.div_pos (rect_h a) 2 ltac:(lia) ltac:(lia)).
    pose proof (Z.div_lt (rect_h a) 2 ltac:(lia) ltac:(lia)).
    lia.
Qed.

End UtilsFacts.

(** ** Rooms *)
Section RoomFacts.
Import Utils Mapgen.

Lemma disjoint_rooms_snoc (rooms : list Rect) (r : Rect) :
  disjoint_rooms rooms -> existsb (intersect r) rooms = false ->
  disjoint_rooms (rooms ++ [r]).
Proof.
  unfold disjoint_rooms. induction 1 as [|a l Ha Hl IH]; cbn [app existsb].
  - intros _. constructor; constructor.
  - intros He. apply orb_false_iff in He. destruct He as [Hra Hrl].
    constructor; [|exact (IH Hrl)].
    apply Forall_app. split; [exact Ha|].
    constructor; [|constructor]. rewrite intersect_sym. exact Hra.
Qed.

Lemma place_rooms_disjoint (R : PyRandom.generator) (fuel : nat) (w h : Z)
      (t t' : Numpy.array Tile) (rooms rooms' : list Rect) (attempts : Z)
      (st st' : PyRandom.state R) :
  place_rooms R fuel w h t rooms attempts st = Ok (t', rooms', st') ->
  disjoint_rooms rooms -> (List.length rooms <= 12)%nat ->
  disjoint_rooms rooms' /\ (List.length rooms' <= 12)%nat.
Proof.
  revert t rooms attempts st.
  induction fuel as [|fuel IH]; intros t rooms attempts st; cbn [place_rooms];
    destruct ((Numpy.len rooms <? 12) && (attempts <? 200)) eqn:E;
    try discriminate;
    try (intros H Hd Hl; inversion H; subst; split; assumption).
  destruct (PyRandom.randint R 5 10 st) as [[rw st1]| |]; cbn [obind]; try discriminate.
  destruct (PyRandom.randint R 5 10 st1) as [[rh st2]| |]; cbn [obind]; try discriminate.
  destruct (PyRandom.randint R 1 (w - rw - 1) st2) as [[x st3]| |];
    cbn [obind]; try discriminate.
  destruct (PyRandom.randint R 1 (h - rh - 1) st3) as [[y st4]| |];
    cbn [obind]; try discriminate.
  apply andb_prop in E. destruct E as [E _]. apply Z.ltb_lt in E. unfold Numpy.len in E.
  destruct (existsb (intersect (mkRect x y rw rh)) rooms) eqn:Ex; intros H Hd Hl.
  - exact (IH _ _ _ _ H Hd Hl).
  - apply (IH _ _ _ _ H).
    + apply disjoint_rooms_snoc; assumption.
    + rewrite length_app. simpl. lia.
Qed.

(** X3.  The rooms that the placement loop of [_generate_rooms] ends with do not
    intersect one another, and there are at most 12 of them. *)
Theorem placed_rooms_never_overlap (R : PyRandom.generator) (w h : Z)
        (t : Numpy.array Tile) (st : PyRandom.state R) :
  match place_rooms R 212 w h t [] 0 st with
  | Ok (_, rooms, _) => disjoint_rooms rooms /\ (List.length rooms <= 12)%nat
  | _ => True
  end.
Proof.
  destruct (place_rooms R 212 w h t [] 0 st) as [[[t' rooms] st']|e|] eqn:E;
    try exact I.
  apply (place_rooms_disjoint R _ _ _ _ _ _ _ _ _ _ E).
  - constructor.
  - simpl. lia.
Qed.

End RoomFacts.

(** ** Lines and rings of cells *)
Section LineFacts.
Import Utils Mapgen.

Lemma trace_back_loop_spec (fuel : nat) (x y gx gy : Z) :
  Z.max (Z.abs (x - gx)) (Z.abs (y - gy)) <= Z.of_nat fuel ->
  exists path,
    trace_back_loop fuel x y gx gy = Ok path
    /\ Z.of_nat (List.length path) = Z.max (Z.abs (x - gx)) (Z.abs (y - gy))
    /\ hd (gx, gy) path = (x, y)
    /\ king_chain path (gx, gy)
    /\ ~ In (gx, gy) path
    /\ Forall (fun p => Z.min x gx <= fst p <= Z.max x gx
                        /\ Z.min y gy <= snd p <= Z.max y gy) path.
Proof.
  revert x y. induction fuel as [|fuel IH]; intros x y Hfuel.
  - assert (x = gx /\ y = gy) as [-> ->] by lia.
    exists []. cbn [trace_back_loop]. rewrite pos_eqb_refl.
    split; [reflexivity|]. split; [simpl; lia|]. split; [reflexivity|].
    split; [exact I|]. split; [intros []|constructor].
  - cbn [trace_back_loop].
    destruct (pos_eqb (x, y) (gx, gy)) eqn:E.
    + apply pos_eqb_eq in E. inversion E; subst.
      exists []. split; [reflexivity|]. split; [simpl; lia|]. split; [reflexivity|].
      split; [exact I|]. split; [intros []|constructor].
    + assert (Hne : (x, y) <> (gx, gy)).
      { intros H. apply pos_eqb_eq in H. congruence. }
      set (x' := if x <? gx then x + 1 else if gx <? x then x - 1 else x).
      set (y' := if y <? gy then y + 1 else if gy <? y then y - 1 else y).
      assert (Hx : (x < gx /\ x' = x + 1) \/ (gx < x /\ x' = x - 1) \/ (x = gx /\ x' = x)).
      { subst x'. destruct (Z.ltb_spec x gx); [lia|]. destruct (Z.ltb_spec gx x); lia. }
      assert (Hy : (y < gy /\ y' = y + 1) \/ (gy < y /\ y' = y - 1) \/ (y = gy /\ y' = y)).
      { subst y'. destruct (Z.ltb_spec y gy); [lia|]. destruct (Z.ltb_spec gy y); lia. }
      assert (Hxy : ~ (x = gx /\ y = gy)) by (intros [-> ->]; apply Hne; reflexivity).
      destruct (IH x' y' ltac:(lia)) as (rest & Hrest & Hlen & Hhd & Hchain & Hgoal & Hbox).
      rewrite Hrest. cbn [obind]. exists ((x, y) :: rest).
      split; [reflexivity|]. split; [cbn [List.length]; lia|].
      split; [reflexivity|]. split; [|split].
      * destruct rest as [|q rest'].
        -- simpl in Hlen. split; [|exact I]. unfold chebyshev. cbn [fst snd]. lia.
        -- cbn [hd] in Hhd. subst q. split; [|exact Hchain].
           unfold chebyshev. cbn [fst snd]. lia.
      * intros [H|H]; [apply Hne; exact H | exact (Hgoal H)].
      * constructor; [cbn [fst snd]; lia|].
        eapply Forall_impl; [|exact Hbox]. cbn beta. intros p Hp. lia.
Qed.

(** X4.  [_trace_back] always ends: the path it returns has
    [max |dx| |dy|] cells, begins with the cell it was asked from, moves
    by king moves inside the box the two cells span, and stops a king
    move short of the goal, which it never holds. *)
Theorem trace_back_line (from goal : pos) :
  exists path,
    trace_back from goal = Ok path
    /\ Z.of_nat (List.length path) = chebyshev from goal
    /\ hd goal path = from
    /\ king_chain path goal
    /\ ~ In goal path
    /\ Forall (fun p => Z.min (fst from) (fst goal) <= fst p <= Z.max (fst from) (fst goal)
                        /\ Z.min (snd from) (snd goal) <= snd p
                           <= Z.max (snd from) (snd goal)) path.
Proof.
  destruct from as [x y], goal as [gx gy]. unfold trace_back, chebyshev. cbn [fst snd].
  apply trace_back_loop_spec. lia.
Qed.

Lemma optional_cell_incl (c : bool) (p : pos) (l l' : list pos) :
  incl l l' -> incl ((if c then [p] else []) ++ l) (p :: l').
Proof.
  intros H q Hq. destruct c; cbn [app] in Hq.
  - destruct Hq as [<-|Hq]; [left; reflexivity | right; apply H; exact Hq].
  - right. apply H. exact Hq.
Qed.

Lemma optional_cell_incl_last (c : bool) (p : pos) :
  incl (if c then [p] else []) [p].
Proof. destruct c; [apply incl_refl | intros q []]. Qed.

Lemma optional_cell_NoDup (c : bool) (p : pos) (l l' : list pos) :
  incl l l' -> ~ In p l' -> NoDup l -> NoDup ((if c then [p] else []) ++ l).
Proof.
  intros Hi Hn Hl. destruct c; cbn [app]; [|exact Hl].
  constructor; [|exact Hl]. intros Hp. apply Hn. apply Hi. exact Hp.
Qed.

Lemma optional_cell_length (c : bool) (p : pos) (l : list pos) :
  (List.length ((if c then [p] else []) ++ l) <= S (List.length l))%nat.
Proof. destruct c; simpl; lia. Qed.

Lemma in_deltas (d : Z) : In d [-1; 0; 1] <-> -1 <= d <= 1.
Proof. simpl. lia. Qed.

(** X5.  [_ring_positions]: the cells of the map at king-move distance 1 from
    (x, y), each listed once; at most 8, and 8 off the border. *)
Theorem ring_positions_neighbours (w h x y : Z) :
  (forall p, In p (ring_positions w h x y)
             <-> (0 <= fst p < w /\ 0 <= snd p < h) /\ chebyshev p (x, y) = 1)
  /\ NoDup (ring_positions w h x y)
  /\ (List.length (ring_positions w h x y) <= 8)%nat
  /\ (0 < x < w - 1 -> 0 < y < h - 1 -> List.length (ring_positions w h x y) = 8%nat).
Proof.
  split; [|split; [|split]].
  - intros [px py]. unfold ring_positions, chebyshev. cbn [fst snd].
    rewrite in_flat_map. split.
    + intros (dx & Hdx & H). rewrite in_flat_map in H. destruct H as (dy & Hdy & H).
      apply in_deltas in Hdx, Hdy.
      destruct ((dx =? 0) && (dy =? 0)) eqn:E0; [destruct H|].
      destruct ((0 <=? x + dx) && (x + dx <? w) && (0 <=? y + dy) && (y + dy <? h)) eqn:Eb;
        [|destruct H].
      destruct H as [H|[]]. inversion H; subst px py.
      apply andb_prop in Eb. destruct Eb as [Eb E4].
      apply andb_prop in Eb. destruct Eb as [Eb E3].
      apply andb_prop in Eb. destruct Eb as [E1 E2].
      apply Z.leb_le in E1, E3. apply Z.ltb_lt in E2, E4.
      apply andb_false_iff in E0. rewrite !Z.eqb_neq in E0. lia.
    + intros [[Hx Hy] Hd]. exists (px - x). split; [apply in_deltas; lia|].
      rewrite in_flat_map. exists (py - y). split; [apply in_deltas; lia|].
      assert (E0 : (px - x =? 0) && (py - y =? 0) = false).
      { apply andb_false_iff. rewrite !Z.eqb_neq. lia. }
      rewrite E0.
      replace (x + (px - x)) with px by lia. replace (y + (py - y)) with py by lia.
      destruct (Z.leb_spec 0 px); [|lia]. destruct (Z.ltb_spec px w); [|lia].
      destruct (Z.leb_spec 0 py); [|lia]. destruct (Z.ltb_spec py h); [|lia].
      left. reflexivity.
  - unfold ring_positions. cbn [flat_map app]. cbn [Z.eqb andb].
    rewrite <- ?app_assoc, ?app_nil_r. cbn [app].
    repeat (eapply optional_cell_NoDup;
            [ repeat apply optional_cell_incl; apply optional_cell_incl_last
            | simpl; intros H;
              repeat match goal with
                     | H : _ \/ _ |- _ => destruct H as [H|H]
                     | H : (_, _) = (_, _) |- _ => inversion H; lia
                     | H : False |- _ => destruct H
                     end
            | ]).
    destruct (_ && _); repeat constructor. intros [].
  - unfold ring_positions. cbn [flat_map app]. cbn [Z.eqb andb].
    rewrite <- ?app_assoc, ?app_nil_r. cbn [app].
    repeat (etransitivity; [apply optional_cell_length|]; apply le_n_S).
    destruct (_ && _); simpl; lia.
  - intros Hx Hy. unfold ring_positions. cbn [flat_map app]. cbn [Z.eqb andb].
    repeat match goal with
           | |- context [(?a <=? ?b)] => destruct (Z.leb_spec a b); [|lia]
           | |- context [(?a <? ?b)] => destruct (Z.ltb_spec a b); [|lia]
           end.
    reflexivity.
Qed.

End LineFacts.

(** ** Flood fill *)
Section FloodFacts.
Import Utils.

Variable walkable : Numpy.array bool.
Variable blocked : list pos.

Lemma flood_visit_spec (visited q : list pos) (n : pos) :
  flood_visit walkable blocked (visited, q) n
  = if fill_valid walkable blocked n && negb (mem n visited)
    then (visited ++ [n], q ++ [n]) else (visited, q).
Proof.
  unfold flood_visit, fill_valid. destruct n as [nx ny]. cbn [fst snd].
  destruct ((0 <=? nx) && (nx <? shape_w walkable) && (0 <=? ny) && (ny <? shape_h walkable));
    cbn [negb andb]; [|reflexivity].
  destruct (mem (nx, ny) visited); cbn [orb negb andb].
  - rewrite andb_false_r. reflexivity.
  - destruct (mem (nx, ny) blocked); cbn [negb andb].
    + rewrite andb_false_r. reflexivity.
    + destruct (cell walkable (nx, ny)); reflexivity.
Qed.

Lemma fill_valid_in_grid (p : pos) :
  fill_valid walkable blocked p = true ->
  In p (grid_cells (shape_w walkable) (shape_h walkable)).
Proof.
  unfold fill_valid. intros H.
  apply andb_prop in H. destruct H as [H _].
  apply andb_prop in H. destruct H as [H _].
  apply andb_prop in H. destruct H as [H H4].
  apply andb_prop in H. destruct H as [H H3].
  apply andb_prop in H. destruct H as [H1 H2].
  apply Z.leb_le in H1, H3. apply Z.ltb_lt in H2, H4.
  destruct p as [x y]. cbn [fst snd] in *. unfold grid_cells.
  apply in_prod; apply in_map_iff.
  - exists (Z.to_nat x). split; [lia|]. apply in_seq. lia.
  - exists (Z.to_nat y). split; [lia|]. apply in_seq. lia.
Qed.

Lemma grid_cells_length (w h : Z) :
  List.length (grid_cells w h) = (Z.to_nat w * Z.to_nat h)%nat.
Proof.
  unfold grid_cells, pos. rewrite length_prod, !length_map, !length_seq. reflexivity.
Qed.

(** A list of distinct cells that the fill may enter is no longer than
    the grid has cells. *)
Lemma valid_cells_bound (l : list pos) :
  NoDup l -> Forall (fun p => fill_valid walkable blocked p = true) l ->
  (List.length l <= Z.to_nat (shape_w walkable) * Z.to_nat (shape_h walkable))%nat.
Proof.
  intros Hnd Hv. rewrite <- grid_cells_length. apply NoDup_incl_length; [exact Hnd|].
  intros p Hp. apply fill_valid_in_grid. exact (proj1 (Forall_forall _ _) Hv p Hp).
Qed.

(** One pass over the neighbours [ns] of a popped cell. *)
Lemma flood_pass (ns visited q : list pos) :
  NoDup visited ->
  exists added,
    fold_left (flood_visit walkable blocked) ns (visited, q) = (visited ++ added, q ++ added)
    /\ NoDup (visited ++ added)
    /\ Forall (fun p => fill_valid walkable blocked p = true) added
    /\ incl added ns
    /\ (forall c, In c ns -> fill_valid walkable blocked c = true -> In c (visited ++ added)).
Proof.
  revert visited q. induction ns as [|n ns IH]; intros visited q Hnd.
  - exists []. rewrite !app_nil_r. split; [reflexivity|]. split; [exact Hnd|].
    split; [constructor|]. split; [intros p []|intros c []].
  - cbn [fold_left]. rewrite flood_visit_spec.
    destruct (fill_valid walkable blocked n) eqn:Ev; cbn [andb].
    + destruct (mem n visited) eqn:Em; cbn [negb].
      * destruct (IH visited q Hnd) as (added & Hf & Hn & Hvalid & Hincl & Hall).
        exists added. split; [exact Hf|]. split; [exact Hn|]. split; [exact Hvalid|].
        split; [intros p Hp; right; apply Hincl; exact Hp|].
        intros c [<-|Hc] Hcv.
        -- apply in_or_app. left. apply mem_In. exact Em.
        -- apply Hall; assumption.
      * assert (Hnd' : NoDup (visited ++ [n])).
        { apply NoDup_app; [exact Hnd | repeat constructor; intros [] |].
          intros a Ha [<-|[]]. apply mem_false in Em. tauto. }
        destruct (IH (visited ++ [n]) (q ++ [n]) Hnd')
          as (added & Hf & Hn & Hvalid & Hincl & Hall).
        exists (n :: added). rewrite <- !app_assoc in Hf. cbn [app] in Hf.
        split; [exact Hf|].
        rewrite <- app_assoc in Hn. cbn [app] in Hn. split; [exact Hn|].
        split; [constructor; assumption|].
        split; [intros p [<-|Hp]; [left; reflexivity | right; apply Hincl; exact Hp]|].
        intros c [<-|Hc] Hcv.
        -- apply in_or_app. right. left. reflexivity.
        -- specialize (Hall c Hc Hcv). rewrite <- app_assoc in Hall. exact Hall.
    + destruct (IH visited q Hnd) as (added & Hf & Hn & Hvalid & Hincl & Hall).
      exists added. split; [exact Hf|]. split; [exact Hn|]. split; [exact Hvalid|].
      split; [intros p Hp; right; apply Hincl; exact Hp|].
      intros c [<-|Hc] Hcv; [congruence | apply Hall; assumption].
Qed.

Variable origin : pos.

Lemma flood_loop_spec (fuel : nat) (visited q : list pos) :
  fill_invariant walkable blocked origin visited q ->
  (List.length q + Z.to_nat (shape_w walkable) * Z.to_nat (shape_h walkable)
   <= fuel + List.length visited)%nat ->
  exists cells,
    flood_loop fuel walkable blocked visited q = Ok cells
    /\ fill_invariant walkable blocked origin cells [].
Proof.
  revert visited q. induction fuel as [|fuel IH]; intros visited q Hinv Hfuel.
  - destruct q as [|p q'].
    + exists visited. split; [reflexivity | exact Hinv].
    + exfalso. destruct Hinv as (Hnd & Hv & _).
      pose proof (valid_cells_bound visited Hnd Hv). simpl in Hfuel. lia.
  - destruct q as [|p q'].
    + exists visited. split; [reflexivity | exact Hinv].
    + cbn [flood_loop].
      destruct Hinv as (Hnd & Hv & Hq & Hwalk & Hclosed & Horigin).
      destruct (flood_pass (cardinal p) visited q' Hnd)
        as (added & Hf & Hnd' & Hvalid & Hincl & Hall).
      rewrite Hf. apply IH.
      * split; [exact Hnd'|]. split; [apply Forall_app; split; assumption|].
        split.
        { intros a Ha. apply in_app_or in Ha. apply in_or_app.
          destruct Ha as [Ha|Ha]; [left; apply Hq; right; exact Ha | right; exact Ha]. }
        split.
        { intros v Hin. apply in_app_or in Hin. destruct Hin as [Hin|Hin].
          - apply Hwalk. exact Hin.
          - apply (walk_step walkable blocked origin p v).
            + apply Hwalk. apply Hq. left. reflexivity.
            + apply Hincl. exact Hin.
            + exact (proj1 (Forall_forall _ _) Hvalid v Hin). }
        split.
        { intros v Hin. apply in_app_or in Hin. destruct Hin as [Hin|Hin].
          - destruct (Hclosed v Hin) as [[<-|Hvq]|Hc].
            + right. intros c Hc Hcv. apply Hall; assumption.
            + left. apply in_or_app. left. exact Hvq.
            + right. intros c Hc' Hcv. apply in_or_app. left. apply Hc; assumption.
          - left. apply in_or_app. right. exact Hin. }
        apply in_or_app. left. exact Horigin.
      * rewrite !length_app. simpl in Hfuel. lia.
Qed.

End FloodFacts.

Section FloodResults.
Import Utils Mapgen.

Lemma shape_nonneg (walkable : Numpy.array bool) :
  0 <= shape_w walkable /\ 0 <= shape_h walkable.
Proof.
  unfold shape_w, shape_h, Numpy.len. destruct walkable; split; lia.
Qed.

Lemma flood_fill_cells (walkable : Numpy.array bool) (start : pos) (blocked : list pos) :
  exists cells,
    flood_fill walkable start blocked = Ok cells
    /\ NoDup cells
    /\ Forall (fun p => fill_valid walkable blocked p = true) cells
    /\ (forall p, In p cells
                  <-> fill_valid walkable blocked start = true
                      /\ walk walkable blocked start p).
Proof.
  unfold flood_fill. cbv zeta.
  destruct (fill_valid walkable blocked start) eqn:Ev.
  - pose proof Ev as Ev'. unfold fill_valid in Ev'.
    apply andb_prop in Ev'. destruct Ev' as [Ev' Hb].
    apply andb_prop in Ev'. destruct Ev' as [Hin Hc].
    rewrite Hin, Hc. apply negb_true_iff in Hb. rewrite Hb. cbn [negb orb].
    destruct (shape_nonneg walkable) as [Hw Hh].
    destruct (flood_loop_spec walkable blocked start
                (S (Z.to_nat (shape_w walkable * shape_h walkable))) [start] [start])
      as (cells & Hloop & Hnd & Hvalid & _ & Hwalk & Hclosed & Horigin).
    + split; [repeat constructor; intros []|].
      split; [repeat constructor; exact Ev|].
      split; [apply incl_refl|].
      split; [intros v [<-|[]]; apply walk_here|].
      split; [intros v [<-|[]]; left; left; reflexivity|].
      left. reflexivity.
    + rewrite Z2Nat.inj_mul by assumption. simpl. lia.
    + exists cells. split; [exact Hloop|]. split; [exact Hnd|]. split; [exact Hvalid|].
      intros p. split.
      * intros Hp. split; [reflexivity | apply Hwalk; exact Hp].
      * intros [_ Hp]. induction Hp as [|b c Hb' IH Hc' Hcv]; [exact Horigin|].
        destruct (Hclosed b IH) as [[]|Hcl]. apply Hcl; assumption.
  - exists []. split.
    + unfold fill_valid in Ev.
      destruct ((0 <=? fst start) && (fst start <? shape_w walkable)
                && (0 <=? snd start) && (snd start <? shape_h walkable));
        cbn [negb andb] in *; [|reflexivity].
      destruct (cell walkable start); cbn [negb andb orb] in *; [|reflexivity].
      apply negb_false_iff in Ev. rewrite Ev. reflexivity.
    + split; [constructor|]. split; [constructor|].
      intros p. split; [intros [] | intros [H _]; discriminate].
Qed.

(** X6.  [flood_fill] always ends, and what it returns is the set of cells that
    steps between cardinal neighbours reach from the start without leaving
    the array, entering a cell that is not walkable or entering a blocked
    cell; no cell is listed twice.  It is empty exactly when the start
    itself is such a cell or outside the array. *)
Theorem flood_fill_component (walkable : Numpy.array bool) (start : pos)
        (blocked : list pos) :
  exists cells,
    flood_fill walkable start blocked = Ok cells
    /\ NoDup cells
    /\ Forall (fun p => fill_valid walkable blocked p = true) cells
    /\ (forall p, In p cells
                  <-> fill_valid walkable blocked start = true
                      /\ walk walkable blocked start p)
    /\ (cells = [] <-> fill_valid walkable blocked start = false).
Proof.
  destruct (flood_fill_cells walkable start blocked) as (cells & Hfill & Hnd & Hvalid & Hin).
  exists cells. split; [exact Hfill|]. split; [exact Hnd|]. split; [exact Hvalid|].
  split; [exact Hin|]. split.
  - intros ->. destruct (fill_valid walkable blocked start) eqn:Ev; [|reflexivity].
    exfalso. apply (proj2 (Hin start)). split; [reflexivity | apply walk_here].
  - intros Ev. destruct cells as [|c rest]; [reflexivity|].
    destruct (proj1 (Hin c) (or_introl eq_refl)) as [Hs _]. congruence.
Qed.

(** X7.  [MapData.reachable] always returns a set: it lists no cell twice, no
    blocked cell and no wall, and with any of its cells it holds the
    cardinal neighbours that the fill may enter. *)
Theorem reachable_avoids_blocked (m : MapData) (from : pos) (blocked : list pos) :
  exists cells,
    reachable m from blocked = Ok cells
    /\ NoDup cells
    /\ (forall p, In p cells ->
                  ~ In p blocked
                  /\ exists t, tile_at m (fst p) (snd p) = Ok t /\ t <> WALL)
    /\ (forall p c, In p cells -> In c (cardinal p) ->
                    fill_valid (walkable m) blocked c = true -> In c cells).
Proof.
  unfold reachable.
  destruct (flood_fill_cells (walkable m) from blocked)
    as (cells & Hfill & Hnd & Hvalid & Hin).
  exists cells. split; [exact Hfill|]. split; [exact Hnd|]. split.
  - intros p Hp. pose proof (proj1 (Forall_forall _ _) Hvalid p Hp) as Hv.
    unfold fill_valid in Hv.
    apply andb_prop in Hv. destruct Hv as [Hv Hb].
    apply andb_prop in Hv. destruct Hv as [Hv Hc].
    apply andb_prop in Hv. destruct Hv as [Hv _].
    apply andb_prop in Hv. destruct Hv as [Hv H3].
    apply andb_prop in Hv. destruct Hv as [H1 _].
    apply Z.leb_le in H1, H3. apply negb_true_iff in Hb.
    split; [apply mem_false; exact Hb|].
    unfold cell, walkable in Hc. unfold tile_at.
    rewrite get_map in Hc by assumption.
    destruct (Numpy.get (tiles m) (snd p) (fst p)) as [t| |]; try discriminate.
    exists t. split; [reflexivity|]. intros ->. discriminate.
  - intros p c Hp Hc Hcv. apply Hin. destruct (proj1 (Hin p) Hp) as [Hs Hw].
    split; [exact Hs|]. exact (walk_step _ _ _ p c Hw Hc Hcv).
Qed.

End FloodResults.

(** ** Healing, energy and the objects of a tracker *)
Section ObjectFacts.
Import Components.

(** X8.  [Stats.heal] on a creature that is not above its maximum: HP grows by
    the amount or up to the maximum, whichever is less, the call returns
    the growth, and nothing but HP changes.  A creature above its maximum
    is cut down to it and the call returns the negative change. *)
Theorem heal_stops_at_max_hp (s : Stats) (amount : Z) :
  let gained := fst (heal s amount) in
  let after := snd (heal s amount) in
  after = set_hp s (hp s + gained)
  /\ (hp s <= max_hp s -> 0 <= amount ->
      gained = Z.min amount (max_hp s - hp s) /\ 0 <= gained <= amount
      /\ hp after <= max_hp after)
  /\ (max_hp s < hp s -> 0 <= amount -> hp after = max_hp s /\ gained < 0).
Proof.
  cbv zeta. unfold heal. cbn [fst snd]. split; [|split].
  - f_equal. lia.
  - intros Hle Ha. unfold set_hp. cbn [hp max_hp]. lia.
  - intros Hlt Ha. unfold set_hp. cbn [hp max_hp]. lia.
Qed.

(** X9.  [Energy.spend] succeeds exactly when the amount is covered; it then
    takes the amount and a covered amount that is not negative leaves no
    debt; a refused call changes nothing.  Spending what was just gained
    gives the energy back as it was. *)
Theorem Energy_spend_covered (e : Energy) (amount : Z) :
  (fst (Energy_spend e amount) = true <-> amount <= current e)
  /\ (amount <= current e ->
      snd (Energy_spend e amount) = mkEnergy (current e - amount) (recovery e)
      /\ (0 <= amount -> 0 <= current (snd (Energy_spend e amount)) <= current e))
  /\ (current e < amount -> Energy_spend e amount = (false, e))
  /\ (0 <= current e -> Energy_spend (Energy_gain e amount) amount = (true, e)).
Proof.
  unfold Energy_spend, Energy_gain. cbn [current recovery].
  destruct (Z.leb_spec amount (current e)) as [Hle|Hgt]; cbn [fst snd].
  - split; [tauto|]. split; [intros _; split; [reflexivity | cbn [current]; lia]|].
    split; [lia|]. intros H0.
    destruct (Z.leb_spec amount (current e + amount)); [|lia].
    destruct e as [c r]. cbn [current recovery]. f_equal. f_equal. lia.
  - split; [split; [discriminate | lia]|]. split; [lia|].
    split; [reflexivity|]. intros H0.
    destruct (Z.leb_spec amount (current e + amount)); [|lia].
    destruct e as [c r]. cbn [current recovery]. f_equal. f_equal. lia.
Qed.

Lemma store_set_same {A : Type} (s : store A) (r : ref) (v : A) : store_set s r v r = v.
Proof. unfold store_set. rewrite Nat.eqb_refl. reflexivity. Qed.

Lemma store_set_other {A : Type} (s : store A) (r r' : ref) (v : A) :
  r' <> r -> store_set s r v r' = s r'.
Proof.
  intros H. unfold store_set. destruct (Nat.eqb_spec r' r); [contradiction | reflexivity].
Qed.

Lemma StatusEffect_eqb_duration (a b : StatusEffect) :
  StatusEffect_eqb a b = true -> duration a = duration b.
Proof.
  unfold StatusEffect_eqb. intros H.
  apply andb_prop in H. destruct H as [H _].
  apply andb_prop in H. destruct H as [H _].
  apply andb_prop in H. destruct H as [_ H]. apply Z.eqb_eq. exact H.
Qed.

(** Removing an expired effect finds the effect itself: those kept before
    it are other objects, and their durations are positive. *)
Lemma list_remove_expired (s : store StatusEffect) (kept rest : list ref) (effect : ref) :
  ~ In effect kept ->
  Forall (fun r => 0 < duration (s r)) kept ->
  duration (s effect) <= 0 ->
  list_remove StatusEffect_eqb s effect (kept ++ effect :: rest) = Some (kept ++ rest).
Proof.
  intros Hn Hk Hd. induction kept as [|r kept IH]; cbn [app list_remove].
  - rewrite Nat.eqb_refl. reflexivity.
  - inversion Hk as [|? ? Hr Hk']; subst.
    destruct (Nat.eqb_spec r effect) as [->|Hne]; [exfalso; apply Hn; left; reflexivity|].
    destruct (StatusEffect_eqb (s r) (s effect)) eqn:E.
    + apply StatusEffect_eqb_duration in E. lia.
    + cbn [orb]. rewrite IH; [reflexivity | | exact Hk'].
      intros H. apply Hn. right. exact H.
Qed.

Lemma tick_loop_spec (snapshot kept : list ref) (s : store StatusEffect)
      (expired : list ref) :
  NoDup (kept ++ snapshot) ->
  Forall (fun r => 0 < duration (s r)) kept ->
  exists s',
    tick_loop snapshot (kept ++ snapshot) s expired
    = Ok (kept ++ filter (fun r => 1 <? duration (s r)) snapshot, s',
          expired ++ filter (fun r => duration (s r) <=? 1) snapshot)
    /\ forall r, s' r = if existsb (Nat.eqb r) snapshot then ticked (s r) else s r.
Proof.
  revert kept s expired. induction snapshot as [|effect rest IH]; intros kept s expired Hnd Hk.
  - exists s. cbn [tick_loop filter existsb]. rewrite !app_nil_r. auto.
  - cbn [tick_loop]. rewrite store_set_same. cbn [set_duration duration filter].
    assert (Hfresh : ~ In effect kept /\ ~ In effect rest).
    { apply NoDup_remove_2 in Hnd. split; intros H; apply Hnd; apply in_or_app; tauto. }
    destruct Hfresh as [Hfk Hfr].
    set (s1 := store_set s effect (set_duration (s effect) (duration (s effect) - 1))).
    assert (Hs1 : forall r, r <> effect -> s1 r = s r).
    { intros r Hr. unfold s1. apply store_set_other. exact Hr. }
    assert (Hrest : forall r, In r rest -> s1 r = s r).
    { intros r Hr. apply Hs1. intros ->. contradiction. }
    assert (Hkept : Forall (fun r => 0 < duration (s1 r)) kept).
    { apply Forall_forall. intros r Hr. rewrite Hs1.
      - exact (proj1 (Forall_forall _ _) Hk r Hr).
      - intros ->. contradiction. }
    assert (Hfinal : forall (s' : store StatusEffect),
               (forall r, s' r = if existsb (Nat.eqb r) rest then ticked (s1 r) else s1 r) ->
               forall r, s' r = if existsb (Nat.eqb r) (effect :: rest)
                                then ticked (s r) else s r).
    { intros s' Hs' r. rewrite Hs'. cbn [existsb].
      destruct (Nat.eqb_spec r effect) as [->|Hne]; cbn [orb].
      - assert (E : existsb (Nat.eqb effect) rest = false).
        { destruct (existsb (Nat.eqb effect) rest) eqn:E; [|reflexivity].
          apply existsb_exists in E. destruct E as (x & Hx & He).
          apply Nat.eqb_eq in He. subst x. contradiction. }
        rewrite E. unfold s1. rewrite store_set_same. reflexivity.
      - rewrite (Hs1 r Hne). reflexivity. }
    destruct (Z.leb_spec (duration (s effect) - 1) 0) as [Hdead|Halive].
    + destruct (Z.ltb_spec 1 (duration (s effect))); [lia|].
      destruct (Z.leb_spec (duration (s effect)) 1); [|lia].
      rewrite (list_remove_expired s1 kept rest effect Hfk Hkept).
      2:{ unfold s1. rewrite store_set_same. cbn [set_duration duration]. lia. }
      destruct (IH kept s1 (expired ++ [effect])) as (s' & Hloop & Hs').
      { apply NoDup_remove_1 in Hnd. exact Hnd. }
      { exact Hkept. }
      exists s'. split; [|exact (Hfinal s' Hs')].
      rewrite Hloop. rewrite <- app_assoc. cbn [app].
      rewrite (filter_ext_in (fun r => 1 <? duration (s1 r)) (fun r => 1 <? duration (s r))),
        (filter_ext_in (fun r => duration (s1 r) <=? 1) (fun r => duration (s r) <=? 1));
        try reflexivity; intros r Hr; rewrite (Hrest r Hr); reflexivity.
    + destruct (Z.ltb_spec 1 (duration (s effect))); [|lia].
      destruct (Z.leb_spec (duration (s effect)) 1); [lia|].
      destruct (IH (kept ++ [effect]) s1 expired) as (s' & Hloop & Hs').
      { rewrite <- app_assoc. exact Hnd. }
      { apply Forall_app. split; [exact Hkept|]. constructor; [|constructor].
        unfold s1. rewrite store_set_same. cbn [set_duration duration]. lia. }
      exists s'. split; [|exact (Hfinal s' Hs')].
      rewrite <- app_assoc in Hloop. cbn [app] in Hloop. rewrite Hloop.
      rewrite <- app_assoc. cbn [app].
      rewrite (filter_ext_in (fun r => 1 <? duration (s1 r)) (fun r => 1 <? duration (s r))),
        (filter_ext_in (fun r => duration (s1 r) <=? 1) (fun r => duration (s r) <=? 1));
        try reflexivity; intros r Hr; rewrite (Hrest r Hr); reflexivity.
Qed.

Lemma tick_drops_expired_objects (statuses : list ref) (s : store StatusEffect) :
  NoDup statuses ->
  exists s',
    StatusTracker_tick statuses s
    = Ok (filter (fun r => 1 <? duration (s r)) statuses, s',
          filter (fun r => duration (s r) <=? 1) statuses)
    /\ (forall r, s' r = if existsb (Nat.eqb r) statuses then ticked (s r) else s r)
    /\ map s' (filter (fun r => 1 <? duration (s r)) statuses)
       = filter (fun e => 0 <? duration e) (map (fun r => ticked (s r)) statuses)
    /\ map s' (filter (fun r => duration (s r) <=? 1) statuses)
       = filter (fun e => duration e <=? 0) (map (fun r => ticked (s r)) statuses).
Proof.
  intros Hnd.
  destruct (tick_loop_spec statuses [] s [] Hnd (Forall_nil _)) as (s' & Hloop & Hs').
  exists s'. split; [exact Hloop|]. split; [exact Hs'|].
  assert (Hin : forall r, In r statuses -> s' r = ticked (s r)).
  { intros r Hr. rewrite Hs'.
    assert (E : existsb (Nat.eqb r) statuses = true).
    { apply existsb_exists. exists r. split; [exact Hr | apply Nat.eqb_refl]. }
    rewrite E. reflexivity. }
  clear Hloop Hs' Hnd. split.
  - induction statuses as [|r rest IH]; [reflexivity|]. cbn [filter map].
    change (duration (ticked (s r))) with (duration (s r) - 1).
    destruct (Z.ltb_spec 1 (duration (s r)));
      destruct (Z.ltb_spec 0 (duration (s r) - 1)); try lia.
    + cbn [map]. rewrite (Hin r (or_introl eq_refl)).
      f_equal. apply IH. intros x Hx. apply Hin. right. exact Hx.
    + apply IH. intros x Hx. apply Hin. right. exact Hx.
  - induction statuses as [|r rest IH]; [reflexivity|]. cbn [filter map].
    change (duration (ticked (s r))) with (duration (s r) - 1).
    destruct (Z.leb_spec (duration (s r)) 1);
      destruct (Z.leb_spec (duration (s r) - 1) 0); try lia.
    + cbn [map]. rewrite (Hin r (or_introl eq_refl)).
      f_equal. apply IH. intros x Hx. apply Hin. right. exact Hx.
    + apply IH. intros x Hx. apply Hin. right. exact Hx.
Qed.

(** X10.  [StatusTracker.tick] on a tracker of distinct objects: every effect
    loses one turn; those that had one turn or less left are removed and
    returned, in order; the others stay, in order.  (The removal is by
    value, and it always finds the expired object itself.) *)
Theorem tick_drops_expired (statuses : list ref) (s : store StatusEffect) :
  NoDup statuses ->
  exists s',
    StatusTracker_tick statuses s
    = Ok (filter (fun r => 1 <? duration (s r)) statuses, s',
          filter (fun r => duration (s r) <=? 1) statuses)
    /\ (forall r, s' r = if existsb (Nat.eqb r) statuses then ticked (s r) else s r)
    /\ map s' (filter (fun r => 1 <? duration (s r)) statuses)
       = filter (fun e => 0 <? duration e) (map (fun r => ticked (s r)) statuses)
    /\ map s' (filter (fun r => duration (s r) <=? 1) statuses)
       = filter (fun e => duration e <=? 0) (map (fun r => ticked (s r)) statuses).
Proof. exact (tick_drops_expired_objects statuses s). Qed.

(** Three effects with 1, 3 and 0 turns left: the second stays with 2. *)
Lemma tick_drops_expired_witness :
  exists s',
    StatusTracker_tick [0%nat; 1%nat; 2%nat]
      (fun r => mkStatusEffect "burn" (match r with 0%nat => 1 | 1%nat => 3 | _ => 0 end)
                               3 "fire")
    = Ok ([1%nat], s', [0%nat; 2%nat])
    /\ duration (s' 1%nat) = 2.
Proof.
  destruct (tick_drops_expired [0%nat; 1%nat; 2%nat]
              (fun r => mkStatusEffect "burn"
                          (match r with 0%nat => 1 | 1%nat => 3 | _ => 0 end) 3 "fire"))
    as (s' & Htick & Hs' & _).
  - repeat constructor; simpl; intuition discriminate.
  - exists s'. split; [exact Htick|]. rewrite Hs'. reflexivity.
Defined.

Lemma list_remove_contains {A : Type} (eqb : A -> A -> bool) (s : store A) (x : ref)
      (l : list ref) :
  if list_contains eqb s x l
  then exists before r after,
      l = before ++ r :: after
      /\ list_remove eqb s x l = Some (before ++ after)
      /\ (Nat.eqb r x || eqb (s r) (s x) = true)
      /\ existsb (fun r' => Nat.eqb r' x || eqb (s r') (s x)) before = false
  else list_remove eqb s x l = None.
Proof.
  unfold list_contains. induction l as [|r l IH]; cbn [existsb list_remove].
  - reflexivity.
  - destruct (Nat.eqb r x || eqb (s r) (s x)) eqn:E; cbn [orb].
    + exists [], r, l. cbn [app existsb]. auto.
    + destruct (existsb (fun r0 => Nat.eqb r0 x || eqb (s r0) (s x)) l).
      * destruct IH as (before & r' & after & Hl & Hrem & Hmatch & Hbefore).
        exists (r :: before), r', after. rewrite Hrem, Hl. cbn [app existsb option_map].
        rewrite E, Hbefore. auto.
      * rewrite IH. reflexivity.
Qed.

(** X11.  [Inventory.remove] never raises and takes at most one entry.  A stack
    of more than one that is passed as the stored object itself loses one
    unit and stays.  Passed as an equal copy that is not in the list, such
    a stack costs the inventory nothing: only the copy loses a unit.  Any
    other item that matches an entry takes the first matching entry out. *)
Theorem Inventory_remove_cases (stored : list ref) (s : store Item) (item : ref) :
  (exists stored' s',
      Inventory_remove stored s item = Ok (stored', s')
      /\ (List.length stored' <= List.length stored <= S (List.length stored'))%nat)
  /\ (list_contains Item_eqb s item stored = false ->
      Inventory_remove stored s item = Ok (stored, s))
  /\ (list_contains Item_eqb s item stored = true ->
      stackable (s item) = true -> 1 < quantity (s item) ->
      exists s',
        Inventory_remove stored s item = Ok (stored, s')
        /\ quantity (s' item) = quantity (s item) - 1
        /\ (forall r, r <> item -> s' r = s r)
        /\ (~ In item stored -> map s' stored = map s stored))
  /\ (list_contains Item_eqb s item stored = true ->
      (stackable (s item) = false \/ quantity (s item) <= 1) ->
      exists before r after,
        stored = before ++ r :: after
        /\ Inventory_remove stored s item = Ok (before ++ after, s)
        /\ (r = item \/ Item_eqb (s r) (s item) = true)
        /\ ~ In item before).
Proof.
  pose proof (list_remove_contains Item_eqb s item stored) as Hrem.
  unfold Inventory_remove.
  destruct (list_contains Item_eqb s item stored) eqn:Ec.
  - destruct Hrem as (before & r & after & Hl & Hrem & Hmatch & Hbefore).
    rewrite Hrem.
    destruct (stackable (s item) && (1 <? quantity (s item))) eqn:Estack.
    + apply andb_prop in Estack. destruct Estack as [Hst Hq]. apply Z.ltb_lt in Hq.
      split; [eexists; eexists; split; [reflexivity | lia]|].
      split; [discriminate|]. split.
      * intros _ _ _. eexists. split; [reflexivity|].
        split; [rewrite store_set_same; reflexivity|].
        split; [intros r' Hr'; apply store_set_other; exact Hr'|].
        intros Hn. apply map_ext_in. intros r' Hr'. apply store_set_other.
        intros ->. contradiction.
      * intros _ [Hns|Hq1]; [congruence | lia].
    + split.
      { eexists. eexists. split; [reflexivity|]. rewrite Hl, !length_app. simpl. lia. }
      split; [discriminate|]. split.
      * intros _ Hst Hq. rewrite Hst in Estack. cbn [andb] in Estack.
        apply Z.ltb_ge in Estack. lia.
      * intros _ _. exists before, r, after. split; [exact Hl|]. split; [reflexivity|].
        split.
        -- apply orb_prop in Hmatch. destruct Hmatch as [H|H];
             [left; apply Nat.eqb_eq; exact H | right; exact H].
        -- intros Hin.
           assert (E : existsb (fun r' => Nat.eqb r' item || Item_eqb (s r') (s item)) before
                       = true).
           { apply existsb_exists. exists item. split; [exact Hin|].
             rewrite Nat.eqb_refl. reflexivity. }
           congruence.
  - split; [exists stored, s; split; [reflexivity | lia]|].
    split; [reflexivity|]. split; discriminate.
Qed.

End ObjectFacts.

(** ** Attacks and damage over time *)
Section CombatFacts.
Import Components Combat.

Lemma Qnum_nonneg (q : Q) : (0 <= q)%Q -> 0 <= Qnum q.
Proof. unfold Qle. simpl. lia. Qed.

Lemma py_int_nonneg (q : Q) : (0 <= q)%Q -> 0 <= py_int q.
Proof.
  intros H. apply Qnum_nonneg in H. unfold py_int.
  apply Z.quot_pos; lia.
Qed.

Lemma inject_Z_nonneg (z : Z) : 0 <= z -> (0 <= inject_Z z)%Q.
Proof. intros H. unfold Qle. simpl. lia. Qed.

(** Damage that is not negative never raises HP, and leaves HP at 0 or
    above. *)
Lemma take_damage_nonneg (s : Stats) (amount : Z) (element : string) :
  0 <= amount ->
  0 <= fst (take_damage s amount element)
  /\ snd (take_damage s amount element)
     = set_hp s (Z.max 0 (hp s - fst (take_damage s amount element)))
  /\ 0 <= hp (snd (take_damage s amount element))
  /\ (0 <= hp s -> hp (snd (take_damage s amount element)) <= hp s).
Proof.
  intros Ha. unfold take_damage. cbn [fst snd].
  set (d := py_int _).
  assert (Hd : 0 <= d).
  { apply py_int_nonneg. apply Qmult_le_0_compat; [apply inject_Z_nonneg; exact Ha|].
    apply Q.le_max_l. }
  split; [exact Hd|]. split; [reflexivity|]. unfold set_hp. cbn [hp]. lia.
Qed.

(** X12.  [resolve_attack] needs attack power: when the larger end of the damage
    range (by default the attacker's [atk]) is below 1, [randint] is asked
    for an empty range and the call raises ValueError. *)
Theorem resolve_attack_empty_range (R : PyRandom.generator) (attacker defender : Stats)
        (tracker : option StatusTracker) (st : PyRandom.state R) (element : string)
        (base : option (Z * Z)) (crit_chance : Q) (chances : list (string * Q)) :
  let range := match base with
               | Some b => b
               | None => (atk attacker / 2, atk attacker)
               end in
  Z.max (fst range) (snd range) < 1 ->
  resolve_attack R attacker defender tracker st element base crit_chance chances
  = Raise ValueError.
Proof.
  cbv zeta. unfold resolve_attack.
  destruct (match base with Some b => b | None => (atk attacker / 2, atk attacker) end)
    as [lo hi]. cbn [fst snd]. intros H.
  unfold PyRandom.randint.
  destruct (Z.ltb_spec 0 (Z.max lo hi + 1 - Z.max 1 lo)); [lia|]. reflexivity.
Qed.

Lemma resolve_attack_empty_range_witness :
  resolve_attack MT19937.generator (mkStats 10 10 0 0 0 0 0 100 0 1 default_resistances)
                 (mkStats 10 10 0 0 3 1 0 100 0 1 default_resistances)
                 None (MT19937.seed 0) "physical" None (1 # 10) []
  = Raise ValueError.
Proof.
  apply (resolve_attack_empty_range MT19937.generator
           (mkStats 10 10 0 0 0 0 0 100 0 1 default_resistances)).
  vm_compute. reflexivity.
Defined.

(** X13.  An attack by an attacker whose [atk] is not negative never heals: the
    damage reported is 0 or more, the defender's HP does not grow and does
    not fall below 0, and nothing else of the defender changes. *)
Theorem resolve_attack_never_heals (R : PyRandom.generator) (attacker defender : Stats)
        (tracker : option StatusTracker) (st : PyRandom.state R) (element : string)
        (base : option (Z * Z)) (crit_chance : Q) (chances : list (string * Q)) :
  0 <= atk attacker -> 0 <= hp defender ->
  match resolve_attack R attacker defender tracker st element base crit_chance chances with
  | Ok (res, defender', tracker', _) =>
      0 <= damage res
      /\ 0 <= hp defender' <= hp defender
      /\ defender' = set_hp defender (Z.max 0 (hp defender - damage res))
      /\ attack_element res = element
      /\ (tracker = None -> tracker' = None /\ status_applied res = None)
  | _ => True
  end.
Proof.
  intros Hatk Hhp. unfold resolve_attack.
  destruct (match base with Some b => b | None => (atk attacker / 2, atk attacker) end)
    as [lo hi].
  destruct (PyRandom.randint R (Z.max 1 lo) (Z.max lo hi) st) as [[raw st1]| |];
    cbn [obind]; try exact I.
  destruct (PyRandom.uniform R (85 # 100) (115 # 100) st1) as [variance st2].
  destruct (PyRandom.random R st2) as [u st3].
  match goal with
  | |- context [take_damage defender ?m element] => set (amount := m)
  end.
  assert (Hamount : 0 <= amount).
  { subst amount. destruct (Qlt_le_dec u crit_chance); [|lia].
    apply py_int_nonneg.
    apply (Qplus_le_compat 0 _ 0); apply Qmult_le_0_compat;
      try (apply inject_Z_nonneg; lia); unfold Qle; simpl; lia. }
  destruct (take_damage_nonneg defender amount element Hamount) as (Hd & Hafter & H0 & Hle).
  destruct (take_damage defender amount element) as [dealt defender'] eqn:Et.
  cbn [fst snd] in *.
  destruct chances as [|c cs]; [|destruct tracker as [tr|]].
  - cbn [damage attack_element status_applied].
    split; [exact Hd|]. split; [split; [exact H0 | exact (Hle Hhp)]|].
    split; [exact Hafter|]. split; [reflexivity|]. intros ->. auto.
  - destruct (roll_statuses R (c :: cs) tr st3) as [[[ap tr1] st4]| |];
      cbn [obind]; try exact I.
    cbn [damage attack_element status_applied].
    split; [exact Hd|]. split; [split; [exact H0 | exact (Hle Hhp)]|].
    split; [exact Hafter|]. split; [reflexivity|]. discriminate.
  - cbn [damage attack_element status_applied].
    split; [exact Hd|]. split; [split; [exact H0 | exact (Hle Hhp)]|].
    split; [exact Hafter|]. split; [reflexivity|]. auto.
Qed.

Lemma resolve_attack_never_heals_witness :
  match resolve_attack MT19937.generator
                       (mkStats 10 10 0 0 6 3 5 90 0 1 default_resistances)
                       (mkStats 12 12 0 0 4 1 2 100 0 1 default_resistances)
                       None (MT19937.seed 0) "physical" None (1 # 10) [] with
  | Ok (res, defender', tracker', _) =>
      0 <= damage res
      /\ 0 <= hp defender' <= 12
      /\ defender' = set_hp (mkStats 12 12 0 0 4 1 2 100 0 1 default_resistances)
                            (Z.max 0 (12 - damage res))
      /\ attack_element res = "physical"%string
      /\ (@None StatusTracker = None -> tracker' = None /\ status_applied res = None)
  | _ => True
  end.
Proof.
  apply (resolve_attack_never_heals MT19937.generator
           (mkStats 10 10 0 0 6 3 5 90 0 1 default_resistances)
           (mkStats 12 12 0 0 4 1 2 100 0 1 default_resistances)); simpl; lia.
Defined.

(** Reading a string-keyed dict after a write. *)
Lemma dict_get_set {V : Type} (d : list (string * V)) (k k' : string) (v : V) :
  dict_get (Status.dict_set d k v) k'
  = if String.eqb k k' then Some v else dict_get d k'.
Proof.
  induction d as [|[k0 v0] rest IH]; cbn [Status.dict_set dict_get].
  - destruct (String.eqb k k'); reflexivity.
  - destruct (String.eqb_spec k0 k) as [->|Hne]; cbn [dict_get].
    + destruct (String.eqb k k'); reflexivity.
    + destruct (String.eqb_spec k0 k') as [->|Hne'].
      * destruct (String.eqb_spec k k'); [congruence | reflexivity].
      * exact IH.
Qed.

Lemma status_damage_loop_spec (tracker : StatusTracker) (stats : Stats)
      (damage_log : list (string * Z)) :
  let r := status_damage_loop stats tracker damage_log in
  fst r = set_hp stats (hp (fst r))
  /\ (0 <= hp stats -> 0 <= hp (fst r))
  /\ (0 <= hp stats -> Forall (fun e => 0 <= potency e) tracker -> hp (fst r) <= hp stats)
  /\ (forall name,
        dict_get (snd r) name <> None
        <-> dict_get damage_log name <> None
            \/ (is_damaging name = true /\ In name (map status_name tracker)))
  /\ r = status_damage_loop stats (filter (fun e => is_damaging (status_name e)) tracker)
                            damage_log.
Proof.
  cbv zeta. revert stats damage_log.
  induction tracker as [|effect rest IH]; intros stats damage_log;
    cbn [status_damage_loop filter map].
  - cbn [fst snd]. split; [destruct stats; reflexivity|]. split; [auto|].
    split; [intros; lia|]. split; [|reflexivity]. intros name. simpl. tauto.
  - destruct (is_damaging (status_name effect)) eqn:Ed.
    + cbn [status_damage_loop]. rewrite Ed.
      destruct (take_damage stats (potency effect) (status_element effect))
        as [dmg stats1] eqn:Et.
      destruct (IH stats1 (Status.dict_set damage_log (status_name effect) dmg))
        as (Hset & Hpos & Hle & Hlog & Hfilter).
      assert (Hstats1 : stats1 = set_hp stats (hp stats1) /\ 0 <= hp stats1).
      { unfold take_damage in Et. inversion Et. unfold set_hp. cbn [hp]. split; [reflexivity|lia]. }
      destruct Hstats1 as [Hs1 Hs1pos].
      split.
      { rewrite Hset at 1. rewrite Hs1 at 1. unfold set_hp. cbn. reflexivity. }
      split; [intros _; apply Hpos; exact Hs1pos|].
      split.
      { intros H0 Hall. inversion Hall as [|? ? He Hrest]; subst.
        pose proof (take_damage_nonneg stats (potency effect) (status_element effect) He)
          as (_ & _ & _ & Hdown).
        rewrite Et in Hdown. cbn [snd] in Hdown.
        specialize (Hle Hs1pos Hrest). specialize (Hdown H0). lia. }
      split; [|exact Hfilter].
      intros name. rewrite Hlog, dict_get_set.
      destruct (String.eqb_spec (status_name effect) name) as [<-|Hne].
      * split; [intros _; right; split; [exact Ed | left; reflexivity]|].
        intros _. left. discriminate.
      * split.
        -- intros [H|[H1 H2]]; [left; exact H | right; split; [exact H1 | right; exact H2]].
        -- intros [H|[H1 [H2|H2]]]; [left; exact H | congruence | right; auto].
    + destruct (IH stats damage_log) as (Hset & Hpos & Hle & Hlog & Hfilter).
      split; [exact Hset|]. split; [exact Hpos|].
      split; [intros H0 Hall; inversion Hall; subst; apply Hle; assumption|].
      split; [|exact Hfilter].
      intros name. rewrite Hlog. split.
      * intros [H|[H1 H2]]; [left; exact H | right; split; [exact H1 | right; exact H2]].
      * intros [H|[H1 [H2|H2]]]; [left; exact H | congruence | right; auto].
Qed.

(** X14.  [apply_status_damage] touches nothing but HP and never takes HP below
    0; effects with potencies that are not negative never raise it.  The
    log has an entry for each of bleed, burn and poison that is tracked,
    and for nothing else; effects of other names are passed over. *)
Theorem apply_status_damage_only_damaging (stats : Stats) (tracker : StatusTracker) :
  let r := apply_status_damage stats tracker in
  fst r = set_hp stats (hp (fst r))
  /\ (0 <= hp stats -> 0 <= hp (fst r))
  /\ (0 <= hp stats -> Forall (fun e => 0 <= potency e) tracker -> hp (fst r) <= hp stats)
  /\ (forall name,
        dict_get (snd r) name <> None
        <-> is_damaging name = true /\ In name (map status_name tracker))
  /\ r = apply_status_damage stats (filter (fun e => is_damaging (status_name e)) tracker).
Proof.
  cbv zeta. unfold apply_status_damage.
  destruct (status_damage_loop_spec tracker stats []) as (H1 & H2 & H3 & H4 & H5).
  split; [exact H1|]. split; [exact H2|]. split; [exact H3|]. split; [|exact H5].
  intros name. rewrite H4. simpl. tauto.
Qed.

End CombatFacts.

(** ** Applying and ticking statuses *)
Section StatusFacts.
Import Components Status.

Lemma StatusTracker_add_names (statuses : StatusTracker) (effect : StatusEffect) :
  map status_name (StatusTracker_add statuses effect)
  = if existsb (String.eqb (status_name effect)) (map status_name statuses)
    then map status_name statuses
    else map status_name statuses ++ [status_name effect].
Proof.
  induction statuses as [|e rest IH]; cbn [StatusTracker_add map existsb]; [reflexivity|].
  rewrite (String.eqb_sym (status_name effect) (status_name e)).
  destruct (String.eqb (status_name e) (status_name effect)); cbn [orb map].
  - reflexivity.
  - rewrite IH. destruct (existsb _ _); reflexivity.
Qed.

(** X15.  [apply_status] raises KeyError for a name without a template; a
    duration of 0 is read as no duration and becomes the default of 6;
    the effect's name is tracked afterwards, once if every name was
    tracked once before. *)
Theorem apply_status_edges (tracker : StatusTracker) (name : string)
        (dur pot : option Z) :
  (dict_get STATUS_TEMPLATES name = None ->
     apply_status tracker name dur pot = Raise (KeyError name))
  /\ apply_status tracker name (Some 0) pot = apply_status tracker name None pot
  /\ (forall tracker',
        apply_status tracker name dur pot = Ok tracker' ->
        In name (map status_name tracker')
        /\ (NoDup (map status_name tracker) -> NoDup (map status_name tracker'))
        /\ (~ In name (map status_name tracker) -> (dur = None \/ dur = Some 0) ->
            exists new, tracker' = tracker ++ [new]
                        /\ status_name new = name /\ duration new = 6)).
Proof.
  unfold apply_status. split; [|split].
  - intros ->. reflexivity.
  - reflexivity.
  - intros tracker'. destruct (dict_get STATUS_TEMPLATES name) as [[el p]|]; [|discriminate].
    intros H. inversion H as [Hadd]. clear H.
    set (effect := mkStatusEffect name _ _ el).
    pose proof (StatusTracker_add_names tracker effect) as Hnames.
    change (status_name effect) with name in Hnames.
    destruct (existsb (String.eqb name) (map status_name tracker)) eqn:Ex.
    + apply existsb_exists in Ex. destruct Ex as (x & Hx & He).
      apply String.eqb_eq in He. subst x.
      split; [rewrite Hnames; exact Hx|]. split; [rewrite Hnames; auto|].
      intros Hn. contradiction.
    + assert (Hn : ~ In name (map status_name tracker)).
      { intros Hin. assert (E : existsb (String.eqb name) (map status_name tracker) = true).
        { apply existsb_exists. exists name. split; [exact Hin | apply String.eqb_refl]. }
        congruence. }
      split; [rewrite Hnames; apply in_or_app; right; left; reflexivity|].
      split.
      * intros Hnd. rewrite Hnames. apply NoDup_app; [exact Hnd | repeat constructor; intros [] |].
        intros a Ha [<-|[]]. contradiction.
      * intros _ Hdur. exists effect.
        destruct (StatusTracker_add_cases tracker effect)
          as [[_ Happ] | (before & existing & after & Hs & _ & He & _)].
        -- split; [exact Happ|]. split; [reflexivity|].
           unfold effect. cbn [duration]. destruct Hdur as [->| ->]; reflexivity.
        -- exfalso. apply Hn. rewrite Hs, map_app. apply in_or_app. right. left. exact He.
Qed.

Lemma ongoing_damage_hp (stats : Stats) (effect : StatusEffect) :
  ongoing_damage stats effect = set_hp stats (hp (ongoing_damage stats effect))
  /\ (0 <= hp stats -> 0 <= hp (ongoing_damage stats effect))
  /\ (Combat.is_damaging (status_name effect) = false ->
      ongoing_damage stats effect = stats).
Proof.
  unfold ongoing_damage, Combat.is_damaging.
  destruct (String.eqb (status_name effect) "bleed");
    [|destruct (String.eqb (status_name effect) "burn");
      [|destruct (String.eqb (status_name effect) "poison")]];
    cbn [orb]; unfold take_damage, set_hp; cbn [snd hp];
    (split; [try reflexivity; destruct stats; reflexivity|]);
    (split; [intros; lia|]); intros; try discriminate; reflexivity.
Qed.

(** X16.  [tick_statuses] on a tracker of distinct objects: the effects are
    ticked first, so an effect deals nothing on the tick it expires;
    bleed, burn and poison that are left deal their potency (to HP only,
    never below 0), other effects deal nothing; the returned dict has the
    names of the expired effects. *)
Theorem tick_statuses_spares_expired (stats : Stats) (statuses : list ref)
        (s : store StatusEffect) :
  NoDup statuses ->
  exists stats' s' expired,
    tick_statuses stats statuses s
    = Ok (stats', filter (fun r => 1 <? duration (s r)) statuses, s', expired)
    /\ stats'
       = fold_left ongoing_damage
           (filter (fun e => 0 <? duration e) (map (fun r => ticked (s r)) statuses)) stats
    /\ stats' = set_hp stats (hp stats')
    /\ (0 <= hp stats -> 0 <= hp stats')
    /\ (forall name,
          dict_get expired name <> None
          <-> exists r, In r statuses /\ duration (s r) <= 1 /\ status_name (s r) = name).
Proof.
  intros Hnd. unfold tick_statuses.
  destruct (tick_drops_expired_objects statuses s Hnd) as (s' & Htick & Hs' & Halive & Hdead).
  rewrite Htick. cbn [obind]. eexists. exists s'. eexists.
  split; [reflexivity|].
  assert (Hfold : forall (l : list ref) (st : Stats),
             fold_left (fun st0 r => ongoing_damage st0 (s' r)) l st
             = fold_left ongoing_damage (map s' l) st).
  { induction l as [|r l IH]; intros st; [reflexivity|]. cbn [fold_left map]. apply IH. }
  rewrite Hfold, Halive. split; [reflexivity|].
  assert (Hhp : forall (l : list StatusEffect) (st : Stats),
             fold_left ongoing_damage l st = set_hp st (hp (fold_left ongoing_damage l st))
             /\ (0 <= hp st -> 0 <= hp (fold_left ongoing_damage l st))).
  { induction l as [|e l IH]; intros st; cbn [fold_left].
    - split; [destruct st; reflexivity | auto].
    - destruct (IH (ongoing_damage st e)) as [H1 H2].
      destruct (ongoing_damage_hp st e) as (H3 & H4 & _).
      split; [|intros H0; apply H2; apply H4; exact H0].
      rewrite H1 at 1. rewrite H3 at 1. unfold set_hp. cbn. reflexivity. }
  destruct (Hhp (filter (fun e => 0 <? duration e) (map (fun r => ticked (s r)) statuses))
               stats) as [H1 H2].
  split; [exact H1|]. split; [exact H2|].
  assert (Hdict : forall (l : list ref) (d : list (string * ref)) (name : string),
             dict_get (fold_left (fun d0 r => dict_set d0 (status_name (s' r)) r) l d) name
             <> None
             <-> dict_get d name <> None \/ exists r, In r l /\ status_name (s' r) = name).
  { induction l as [|r l IH]; intros d name; cbn [fold_left].
    - split; [auto | intros [H|(r & [] & _)]; exact H].
    - rewrite IH, dict_get_set.
      destruct (String.eqb_spec (status_name (s' r)) name) as [E|NE].
      + split; [intros _; right; exists r; split; [left; reflexivity | exact E]|].
        intros _. left. discriminate.
      + split.
        * intros [H|(r' & Hr' & E)];
            [left; exact H | right; exists r'; split; [right; exact Hr' | exact E]].
        * intros [H|(r' & [<-|Hr'] & E)];
            [left; exact H | congruence | right; exists r'; split; assumption]. }
  intros name. rewrite Hdict. cbn [dict_get]. split.
  - intros [H|(r & Hr & E)]; [congruence|].
    apply filter_In in Hr. destruct Hr as [Hr Hd]. apply Z.leb_le in Hd.
    exists r. split; [exact Hr|]. split; [exact Hd|].
    rewrite Hs' in E.
    assert (Ex : existsb (Nat.eqb r) statuses = true).
    { apply existsb_exists. exists r. split; [exact Hr | apply Nat.eqb_refl]. }
    rewrite Ex in E. exact E.
  - intros (r & Hr & Hd & E). right. exists r. split.
    + apply filter_In. split; [exact Hr | apply Z.leb_le; exact Hd].
    + rewrite Hs'.
      assert (Ex : existsb (Nat.eqb r) statuses = true).
      { apply existsb_exists. exists r. split; [exact Hr | apply Nat.eqb_refl]. }
      rewrite Ex. exact E.
Qed.

(** A burn on its last turn and a poison with three turns left: only the
    poison deals its 2. *)
Lemma tick_statuses_spares_expired_witness :
  exists stats' s' expired,
    tick_statuses (mkStats 20 20 5 5 8 2 5 90 0 1 default_resistances) [0%nat; 1%nat]
      (fun r => match r with
                | 0%nat => mkStatusEffect "burn" 1 3 "fire"
                | _ => mkStatusEffect "poison" 3 2 "poison"
                end)
    = Ok (stats', [1%nat], s', expired)
    /\ hp stats' = 18.
Proof.
  destruct (tick_statuses_spares_expired
              (mkStats 20 20 5 5 8 2 5 90 0 1 default_resistances) [0%nat; 1%nat]
              (fun r => match r with
                        | 0%nat => mkStatusEffect "burn" 1 3 "fire"
                        | _ => mkStatusEffect "poison" 3 2 "poison"
                        end))
    as (stats' & s' & expired & Htick & Hstats & _).
  - repeat constructor; simpl; intuition discriminate.
  - exists stats', s', expired. split; [exact Htick|]. rewrite Hstats. reflexivity.
Defined.

End StatusFacts.

(** ** Archetypes *)
Section ArchetypeFacts.
Import Utils Mapgen Components Path AI.

(** X17.  The skirmisher's retreat does not retreat: next to the player (at
    Manhattan distance 1) the cell it moves to is again at distance 1 from
    the player, and on the player's own cell it moves to distance 2.  The
    move is returned whatever the map holds at that cell, and without a
    draw from the generator. *)
Theorem skirmisher_retreat_stays_adjacent (R : PyRandom.generator)
        (dijkstra_flow : MapData -> list pos -> outcome (Numpy.array flow_value))
        (st : PyRandom.state R) (actor : Position) (stats : Stats) (m : MapData)
        (player_pos : pos) :
  manhattan (pos_x actor, pos_y actor) player_pos < 2 ->
  exists cell,
    decide R dijkstra_flow st "skirmisher" actor stats m player_pos
    = Ok (mkAIAction "move" (Some cell), st)
    /\ manhattan cell player_pos = 2 - manhattan (pos_x actor, pos_y actor) player_pos
    /\ chebyshev cell (pos_x actor, pos_y actor) = 1.
Proof.
  intros Hd. unfold decide. cbv zeta.
  change (String.eqb "skirmisher" "brute") with false.
  change (String.eqb "skirmisher" "skirmisher") with true. cbv iota.
  destruct (Z.leb_spec 2 (manhattan (pos_x actor, pos_y actor) player_pos)); [lia|].
  cbn [andb].
  destruct (Z.ltb_spec (manhattan (pos_x actor, pos_y actor) player_pos) 2); [|lia].
  eexists. split; [reflexivity|].
  unfold manhattan, chebyshev in *. cbn [fst snd] in *.
  destruct (Z.leb_spec (pos_x actor - fst player_pos) 0);
    destruct (Z.leb_spec (pos_y actor - snd player_pos) 0); lia.
Qed.

(** A skirmisher to the right of the player steps left, onto the column
    of the player. *)
Lemma skirmisher_retreat_stays_adjacent_witness :
  exists cell,
    decide MT19937.generator (fun _ _ => Raise ValueError) (MT19937.seed 0) "skirmisher"
           (mkPosition 5 5 1) (mkStats 20 20 5 5 8 2 5 90 0 1 default_resistances)
           (open_map 8 8) (4, 5)
    = Ok (mkAIAction "move" (Some cell), MT19937.seed 0)
    /\ manhattan cell (4, 5) = 2 - manhattan (5, 5) (4, 5)
    /\ chebyshev cell (5, 5) = 1.
Proof.
  apply (skirmisher_retreat_stays_adjacent MT19937.generator (fun _ _ => Raise ValueError)
           (MT19937.seed 0) (mkPosition 5 5 1)
           (mkStats 20 20 5 5 8 2 5 90 0 1 default_resistances) (open_map 8 8) (4, 5)).
  vm_compute. reflexivity.
Defined.

Lemma list_get_nth {A : Type} (l : list A) (i : Z) (d : A) :
  - Z.of_nat (List.length l) <= i < 0 ->
  list_get l i = Ok (nth (Z.to_nat (i + Z.of_nat (List.length l))) l d).
Proof.
  intros Hi. unfold list_get, Numpy.np_index, Numpy.len.
  destruct (Z.leb_spec 0 i); [lia|]. cbn [andb].
  destruct (Z.leb_spec (- Z.of_nat (List.length l)) i); [|lia].
  destruct (Z.ltb_spec i 0); [|lia]. cbn [andb].
  destruct (nth_error l (Z.to_nat (i + Z.of_nat (List.length l)))) as [v|] eqn:E.
  - rewrite (nth_error_nth _ _ d E). reflexivity.
  - apply nth_error_None in E. lia.
Qed.



Lemma flow_lt_trans (a b c : flow_value) :
  flow_lt a b = true -> flow_lt b c = true -> flow_lt a c = true.
Proof.
  destruct a as [x|], b as [y|], c as [z|]; cbn [flow_lt]; try discriminate; auto.
  destruct (Qlt_le_dec x y) as [Hxy|]; [|discriminate].
  destruct (Qlt_le_dec y z) as [Hyz|]; [|discriminate].
  intros _ _. destruct (Qlt_le_dec x z) as [|Hzx]; [reflexivity|].
  exfalso. apply (Qlt_irrefl x). eapply Qlt_le_trans; [|exact Hzx].
  eapply Qlt_trans; eassumption.
Qed.

(** The neighbour loop ends on the cell it began with, or on a neighbour
    inside the map whose flow value is below the one it began with. *)
Lemma best_neighbour_spec (m : MapData) (flow : Numpy.array flow_value)
      (cells : list pos) (best_step step : pos) (best_cost cost : flow_value) :
  best_neighbour m flow best_step best_cost cells = Ok (step, cost) ->
  (step = best_step /\ cost = best_cost)
  \/ (In step cells
      /\ in_bounds m (fst step) (snd step) = true
      /\ Numpy.get flow (snd step) (fst step) = Ok cost
      /\ flow_lt cost best_cost = true).
Proof.
  revert best_step best_cost.
  induction cells as [|[nx ny] rest IH]; intros best_step best_cost; cbn [best_neighbour].
  - intros H. inversion H. left. auto.
  - destruct ((0 <=? nx) && (nx <? width m) && (0 <=? ny) && (ny <? height m)) eqn:Eb.
    + destruct (Numpy.get flow ny nx) as [f| |] eqn:Ef; cbn [obind]; try discriminate.
      destruct (flow_lt f best_cost) eqn:Elt; intros H; apply IH in H.
      * destruct H as [[-> ->] | (Hin & Hb & Hget & Hlt)].
        -- right. split; [left; reflexivity|]. cbn [fst snd]. auto.
        -- right. split; [right; exact Hin|]. split; [exact Hb|]. split; [exact Hget|].
           eapply flow_lt_trans; eassumption.
      * destruct H as [H | (Hin & H)]; [left; exact H | right; split; [right; exact Hin | exact H]].
    + intros H. apply IH in H.
      destruct H as [H | (Hin & H)]; [left; exact H | right; split; [right; exact Hin | exact H]].
Qed.



(** X20.  [astar_path] hands tcod the transposed cost array together with the
    coordinates in (y, x) order: a start or goal cell of the map whose x is
    not below the height, or whose y is not below the width, is out of range
    there and the call raises IndexError. *)
Theorem astar_path_swapped_out_of_range (m : MapData) (start goal : pos) :
  is_well_formed m = true ->
  in_bounds m (fst start) (snd start) = true ->
  in_bounds m (fst goal) (snd goal) = true ->
  in_bounds m (snd start) (fst start) = false
  \/ in_bounds m (snd goal) (fst goal) = false ->
  astar_path m start goal = Raise IndexError.
Proof.
  intros Hwf Hs Hg Hout. apply is_well_formed_spec in Hwf.
  assert (Hpos : 0 < width m /\ 0 < height m).
  { unfold in_bounds in Hs.
    apply andb_prop in Hs. destruct Hs as [Hb Hb4].
    apply andb_prop in Hb. destruct Hb as [Hb Hb3].
    apply andb_prop in Hb. destruct Hb as [Hb1 Hb2].
    apply Z.leb_le in Hb1, Hb3. apply Z.ltb_lt in Hb2, Hb4. lia. }
  destruct Hpos as [Hw Hh].
  unfold astar_path. cbv zeta. unfold Tcod.add_root, Tcod.new_pathfinder. cbn [Tcod.graph].
  rewrite (inside_in_bounds m Hwf Hw Hh (reversed start)).
  unfold reversed at 1 2. cbn [fst snd].
  destruct (in_bounds m (snd start) (fst start)) eqn:Es; [|reflexivity].
  destruct Hout as [Hout|Hout]; [discriminate|]. cbn [obind].
  unfold Tcod.path_to, Tcod.path_from. cbv zeta. cbn [Tcod.graph].
  rewrite (inside_in_bounds m Hwf Hw Hh (reversed goal)).
  unfold reversed at 1 2. cbn [fst snd]. rewrite Hout. reflexivity.
Qed.

(** On a map 5 wide and 3 high the cell (4, 0) is in bounds and out of
    range for the search. *)
Lemma astar_path_swapped_out_of_range_witness :
  astar_path (open_map 5 3) (4, 0) (0, 0) = Raise IndexError.
Proof.
  apply astar_path_swapped_out_of_range; try reflexivity. left. reflexivity.
Defined.

End ArchetypeFacts.

(** ** Writing into an array *)
Section ArrayFacts.

Lemma list_set_length {A : Type} (l : list A) (i : nat) (v : A) :
  List.length (Numpy.list_set l i v) = List.length l.
Proof.
  revert i. induction l as [|h t IH]; intros [|i]; cbn [Numpy.list_set List.length];
    try reflexivity. rewrite IH. reflexivity.
Qed.

Lemma list_set_nth {A : Type} (l : list A) (i j : nat) (v : A) :
  nth_error (Numpy.list_set l i v) j
  = if Nat.eqb i j then (if Nat.ltb i (List.length l) then Some v else None)
    else nth_error l j.
Proof.
  revert i j. induction l as [|h t IH]; intros i j.
  - destruct i, j; cbn; try reflexivity. destruct (Nat.eqb i j); reflexivity.
  - destruct i as [|i], j as [|j]; cbn [Numpy.list_set nth_error Nat.eqb List.length];
      try reflexivity.
    rewrite IH. destruct (Nat.eqb i j); [|reflexivity].
    change (Nat.ltb (S i) (S (List.length t))) with (Nat.ltb i (List.length t)).
    reflexivity.
Qed.

Lemma In_firstn {A : Type} (n : nat) (l : list A) (x : A) :
  In x (firstn n l) -> In x l.
Proof.
  revert l. induction n as [|n IH]; intros [|h t]; cbn [firstn]; try (intros []).
  - left. assumption.
  - right. apply IH. assumption.
Qed.

(** What a successful read found. *)
Lemma get_cell {A : Type} (a : Numpy.array A) (y x : Z) (t : A) :
  Numpy.get a y x = Ok t
  <-> exists r row c,
      Numpy.np_index (Numpy.len a) y = Some r /\ nth_error a r = Some row
      /\ Numpy.np_index (Numpy.len row) x = Some c /\ nth_error row c = Some t.
Proof.
  unfold Numpy.get. split.
  - destruct (Numpy.np_index (Numpy.len a) y) as [r|]; [|discriminate].
    destruct (nth_error a r) as [row|] eqn:Er; [|discriminate].
    destruct (Numpy.np_index (Numpy.len row) x) as [c|] eqn:Ec; [|discriminate].
    destruct (nth_error row c) as [v|] eqn:Ev; [|discriminate].
    intros H. inversion H; subst. exists r, row, c. auto.
  - intros (r & row & c & -> & -> & -> & ->). reflexivity.
Qed.

Lemma set_cell {A : Type} (a a' : Numpy.array A) (y x : Z) (v : A) :
  Numpy.set a y x v = Ok a'
  <-> exists r row c,
      Numpy.np_index (Numpy.len a) y = Some r /\ nth_error a r = Some row
      /\ Numpy.np_index (Numpy.len row) x = Some c
      /\ a' = Numpy.list_set a r (Numpy.list_set row c v).
Proof.
  unfold Numpy.set. split.
  - destruct (Numpy.np_index (Numpy.len a) y) as [r|]; [|discriminate].
    destruct (nth_error a r) as [row|] eqn:Er; [|discriminate].
    destruct (Numpy.np_index (Numpy.len row) x) as [c|] eqn:Ec; [|discriminate].
    intros H. inversion H; subst. exists r, row, c. auto.
  - intros (r & row & c & -> & -> & -> & ->). reflexivity.
Qed.

Lemma np_index_bound (n i : Z) (k : nat) :
  Numpy.np_index n i = Some k -> Z.of_nat k < n.
Proof.
  unfold Numpy.np_index.
  destruct ((0 <=? i) && (i <? n)) eqn:E1.
  - apply andb_prop in E1. destruct E1 as [Ha Hb].
    apply Z.leb_le in Ha. apply Z.ltb_lt in Hb.
    intros Heq. inversion Heq. lia.
  - destruct ((- n <=? i) && (i <? 0)) eqn:E2; [|discriminate].
    apply andb_prop in E2. destruct E2 as [Ha Hb].
    apply Z.leb_le in Ha. apply Z.ltb_lt in Hb.
    intros Heq. inversion Heq. lia.
Qed.

(** A write keeps the shape; a read after it finds the written value in
    the written cell and the old value elsewhere. *)
Lemma set_get {A : Type} (a a' : Numpy.array A) (y x : Z) (v : A) :
  Numpy.set a y x v = Ok a' ->
  Numpy.len a' = Numpy.len a
  /\ map (@List.length A) a' = map (@List.length A) a
  /\ Numpy.get a' y x = Ok v
  /\ (exists old, Numpy.get a y x = Ok old)
  /\ forall y' x' t,
       Numpy.get a y' x' = Ok t ->
       Numpy.get a' y' x' = Ok t
       \/ (Numpy.get a' y' x' = Ok v /\ Numpy.get a y x = Ok t).
Proof.
  intros Hset. apply set_cell in Hset.
  destruct Hset as (r & row & c & Hy & Hrow & Hx & ->).
  pose proof (np_index_bound _ _ _ Hy) as Hr. pose proof (np_index_bound _ _ _ Hx) as Hc.
  unfold Numpy.len in Hr, Hc.
  assert (Hlen : Numpy.len (Numpy.list_set a r (Numpy.list_set row c v)) = Numpy.len a).
  { unfold Numpy.len. rewrite list_set_length. reflexivity. }
  assert (Hrowlen : Numpy.len (Numpy.list_set row c v) = Numpy.len row).
  { unfold Numpy.len. rewrite list_set_length. reflexivity. }
  assert (Hnew : nth_error (Numpy.list_set a r (Numpy.list_set row c v)) r
                 = Some (Numpy.list_set row c v)).
  { rewrite list_set_nth, Nat.eqb_refl.
    destruct (Nat.ltb_spec r (List.length a)); [reflexivity | lia]. }
  assert (Hcell : nth_error (Numpy.list_set row c v) c = Some v).
  { rewrite list_set_nth, Nat.eqb_refl.
    destruct (Nat.ltb_spec c (List.length row)); [reflexivity | lia]. }
  split; [exact Hlen|]. split.
  { clear Hy Hr Hnew Hlen. revert r Hrow. induction a as [|h t IH]; intros [|r] Hrow;
      cbn [Numpy.list_set map nth_error] in *; try discriminate.
    - inversion Hrow; subst. rewrite list_set_length. reflexivity.
    - rewrite (IH r Hrow). reflexivity. }
  split.
  { apply get_cell. exists r, (Numpy.list_set row c v), c.
    rewrite Hlen, Hrowlen. auto. }
  split.
  { destruct (nth_error row c) as [old|] eqn:Eo.
    - exists old. apply get_cell. exists r, row, c. auto.
    - apply nth_error_None in Eo. lia. }
  intros y' x' t Hget. apply get_cell in Hget.
  destruct Hget as (r' & row' & c' & Hy' & Hrow' & Hx' & Ht).
  destruct (Nat.eqb_spec r r') as [<-|Hne].
  - assert (row' = row) by congruence. subst row'.
    destruct (Nat.eqb_spec c c') as [<-|Hnc].
    + right. split.
      * apply get_cell. exists r, (Numpy.list_set row c v), c.
        rewrite Hlen, Hrowlen. auto.
      * apply get_cell. exists r, row, c. auto.
    + left. apply get_cell. exists r, (Numpy.list_set row c v), c'.
      rewrite Hlen, Hrowlen. split; [exact Hy'|]. split; [exact Hnew|].
      split; [exact Hx'|]. rewrite list_set_nth.
      destruct (Nat.eqb_spec c c'); [contradiction | exact Ht].
  - left. apply get_cell. exists r', row', c'. rewrite Hlen.
    split; [exact Hy'|]. split; [|auto].
    rewrite list_set_nth. destruct (Nat.eqb_spec r r'); [contradiction | exact Hrow'].
Qed.

End ArrayFacts.

(** ** What post-processing keeps *)
Section FrameFacts.
Import Utils Mapgen.

Lemma stable_refl (t : Tile) : stable t t.
Proof. unfold stable. tauto. Qed.

Lemma stable_trans (a b c : Tile) : stable a b -> stable b c -> stable a c.
Proof. unfold stable. intros (H1 & H2 & H3) (H4 & H5 & H6). tauto. Qed.

Lemma tiles_stable_refl (a : Numpy.array Tile) : tiles_stable a a.
Proof. intros y x t H. exists t. split; [exact H | apply stable_refl]. Qed.

Lemma tiles_stable_trans (a b c : Numpy.array Tile) :
  tiles_stable a b -> tiles_stable b c -> tiles_stable a c.
Proof.
  intros Hab Hbc y x t H. destruct (Hab y x t H) as (t1 & H1 & S1).
  destruct (Hbc y x t1 H1) as (t2 & H2 & S2).
  exists t2. split; [exact H2 | exact (stable_trans _ _ _ S1 S2)].
Qed.

Lemma same_frame_refl (m : MapData) : same_frame m m.
Proof. unfold same_frame. repeat split; apply tiles_stable_refl. Qed.

Lemma same_frame_trans (a b c : MapData) : same_frame a b -> same_frame b c -> same_frame a c.
Proof.
  unfold same_frame. intros (A1 & A2 & A3 & A4 & A5 & A6) (B1 & B2 & B3 & B4 & B5 & B6).
  repeat split; try congruence. exact (tiles_stable_trans _ _ _ A6 B6).
Qed.

(** A write over a tile that the new tile may replace. *)
Lemma set_stable (a a' : Numpy.array Tile) (y x : Z) (old v : Tile) :
  Numpy.set a y x v = Ok a' -> Numpy.get a y x = Ok old -> stable old v ->
  tiles_stable a a'.
Proof.
  intros Hset Hold Hst y' x' t Hget.
  destruct (set_get a a' y x v Hset) as (_ & _ & _ & _ & Hread).
  destruct (Hread y' x' t Hget) as [H|[H Hsame]].
  - exists t. split; [exact H | apply stable_refl].
  - exists v. split; [exact H|]. assert (t = old) by congruence. subst t. exact Hst.
Qed.

Lemma Tile_eqb_eq (a b : Tile) : Tile_eqb a b = true <-> a = b.
Proof.
  unfold Tile_eqb. rewrite Z.eqb_eq. split; [|intros ->; reflexivity].
  destruct a, b; cbn; intros H; try reflexivity; discriminate.
Qed.

Section WithGenerator.
Variable R : PyRandom.generator.

Lemma place_hazards_frame (cells : list pos) (m m' : MapData) (st st' : PyRandom.state R) :
  place_hazards R m cells st = Ok (m', st') ->
  same_frame m m' /\ locked_doors m' = locked_doors m.
Proof.
  revert m st. induction cells as [|[x y] rest IH]; intros m st; cbn [place_hazards].
  - intros H. inversion H; subst. split; [apply same_frame_refl | reflexivity].
  - unfold tile_at at 1.
    destruct (Numpy.get (tiles m) y x) as [t| |] eqn:Et; cbn [obind]; try discriminate.
    destruct (Tile_eqb t FLOOR) eqn:Ef; [|apply IH].
    apply Tile_eqb_eq in Ef. subst t.
    destruct (PyRandom.random R st) as [u st1].
    set (tile := if Qlt_le_dec u (1 # 2) then ACID else LAVA).
    destruct (Numpy.set (tiles m) y x tile) as [t1| |] eqn:Es; cbn [obind]; try discriminate.
    intros H. apply IH in H. destruct H as [H Hl]. cbn [locked_doors] in Hl.
    split; [|exact Hl].
    eapply same_frame_trans; [|exact H].
    unfold same_frame. cbn [width height start stairs_up stairs_down tiles].
    repeat split. apply (set_stable _ _ _ _ FLOOR tile Es Et).
    unfold stable, tile. destruct (Qlt_le_dec u (1 # 2)); repeat split; intros; discriminate.
Qed.

Lemma floor_cells_are_floor (m : MapData) (cells found : list pos) :
  floor_cells m cells = Ok found ->
  Forall (fun p => tile_at m (fst p) (snd p) = Ok FLOOR) found /\ incl found cells.
Proof.
  revert found. induction cells as [|[x y] rest IH]; intros found; cbn [floor_cells].
  - intros H. inversion H. split; [constructor | apply incl_refl].
  - destruct (tile_at m x y) as [t| |] eqn:Et; cbn [obind]; try discriminate.
    destruct (floor_cells m rest) as [more| |]; cbn [obind]; try discriminate.
    destruct (IH more eq_refl) as [Hall Hincl].
    destruct (Tile_eqb t FLOOR) eqn:Ef; intros H; inversion H; subst.
    + apply Tile_eqb_eq in Ef. subst t. split.
      * constructor; [exact Et | exact Hall].
      * intros p [<-|Hp]; [left; reflexivity | right; apply Hincl; exact Hp].
    + split; [exact Hall|]. intros p Hp. right. apply Hincl. exact Hp.
Qed.

Lemma place_traps_frame (g : MapGenerator R) (cells : list pos) (m m' : MapData) :
  Forall (fun p => tile_at m (fst p) (snd p) = Ok FLOOR
                   \/ tile_at m (fst p) (snd p) = Ok TRAP) cells ->
  place_traps R g m cells = Ok m' ->
  same_frame m m' /\ locked_doors m' = locked_doors m.
Proof.
  revert m. induction cells as [|[x y] rest IH]; intros m Hcells; cbn [place_traps].
  - intros H. inversion H; subst. split; [apply same_frame_refl | reflexivity].
  - destruct (Numpy.set (tiles m) y x TRAP) as [t1| |] eqn:Es; cbn [obind]; try discriminate.
    inversion Hcells as [|? ? Hhere Hrest]; subst. cbn [fst snd] in Hhere.
    destruct (set_get _ _ _ _ _ Es) as (_ & _ & _ & _ & Hread).
    intros H. apply IH in H.
    + destruct H as [H Hl]. cbn [locked_doors] in Hl. split; [|exact Hl].
      eapply same_frame_trans; [|exact H].
      unfold same_frame. cbn [width height start stairs_up stairs_down tiles].
      repeat split. unfold tile_at in Hhere.
      destruct Hhere as [Hf|Ht].
      * apply (set_stable _ _ _ _ FLOOR TRAP Es Hf).
        unfold stable. repeat split; intros; discriminate.
      * apply (set_stable _ _ _ _ TRAP TRAP Es Ht). apply stable_refl.
    + eapply Forall_impl; [|exact Hrest]. cbn beta. intros p Hp.
      unfold tile_at in *. cbn [tiles].
      destruct Hp as [Hp|Hp]; destruct (Hread _ _ _ Hp) as [H'|[H' _]]; auto.
Qed.

Lemma place_doors_frame (cells : list pos) (m m' : MapData) (doors doors' : list pos) :
  Forall (fun p => tile_at m (fst p) (snd p) = Ok DOOR) doors ->
  place_doors m doors cells = Ok (m', doors') ->
  same_frame m m' /\ locked_doors m' = locked_doors m
  /\ Forall (fun p => tile_at m' (fst p) (snd p) = Ok DOOR) doors'.
Proof.
  revert m doors. induction cells as [|[x y] rest IH]; intros m doors Hdoors;
    cbn [place_doors].
  - intros H. inversion H; subst. split; [apply same_frame_refl|]. split; [reflexivity|].
    exact Hdoors.
  - unfold tile_at at 1.
    destruct (Numpy.get (tiles m) y x) as [t| |] eqn:Et; cbn [obind]; try discriminate.
    destruct (Tile_eqb t FLOOR) eqn:Ef; cbn [negb]; [|apply IH; exact Hdoors].
    apply Tile_eqb_eq in Ef. subst t.
    destruct (tiles_at m (cardinal (x, y))) as [neighbours| |]; cbn [obind]; try discriminate.
    destruct ((2 <=? count_tile WALL neighbours) && (2 <=? count_tile FLOOR neighbours));
      [|apply IH; exact Hdoors].
    destruct (Numpy.set (tiles m) y x DOOR) as [t1| |] eqn:Es; cbn [obind]; try discriminate.
    destruct (set_get _ _ _ _ _ Es) as (_ & _ & Hnew & _ & Hread).
    intros H. apply IH in H.
    + destruct H as (H & Hl & Hd). split; [|split; [exact Hl | exact Hd]].
      eapply same_frame_trans; [|exact H].
      unfold same_frame, set_tiles. cbn [width height start stairs_up stairs_down tiles].
      repeat split. apply (set_stable _ _ _ _ FLOOR DOOR Es Et).
      unfold stable. repeat split; intros; discriminate.
    + apply Forall_app. split.
      * eapply Forall_impl; [|exact Hdoors]. cbn beta. intros p Hp.
        unfold tile_at, set_tiles in *. cbn [tiles].
        destruct (Hread _ _ _ Hp) as [H'|[H' _]]; exact H'.
      * constructor; [|constructor]. unfold tile_at, set_tiles. cbn [tiles fst snd].
        exact Hnew.
Qed.

Lemma carve_walls_frame (path : list pos) (m m' : MapData) :
  carve_walls m path = Ok m' ->
  same_frame m m' /\ locked_doors m' = locked_doors m
  /\ key_positions m' = key_positions m /\ door_keys m' = door_keys m.
Proof.
  revert m. induction path as [|[px py] rest IH]; intros m; cbn [carve_walls].
  - intros H. inversion H; subst. split; [apply same_frame_refl | auto].
  - unfold tile_at at 1.
    destruct (Numpy.get (tiles m) py px) as [t| |] eqn:Et; cbn [obind]; try discriminate.
    destruct (Tile_eqb t WALL) eqn:Ew; [|apply IH].
    apply Tile_eqb_eq in Ew. subst t.
    destruct (Numpy.set (tiles m) py px FLOOR) as [t1| |] eqn:Es; cbn [obind];
      try discriminate.
    intros H. apply IH in H. destruct H as (H & Hl & Hk & Hd).
    split; [|split; [exact Hl | split; [exact Hk | exact Hd]]].
    eapply same_frame_trans; [|exact H].
    unfold same_frame, set_tiles. cbn [width height start stairs_up stairs_down tiles].
    repeat split. apply (set_stable _ _ _ _ WALL FLOOR Es Et).
    unfold stable. repeat split; intros; discriminate.
Qed.

Lemma ensure_loop_frame (fuel : nat) (m m' : MapData) (reach visited queue : list pos) :
  ensure_loop fuel m reach visited queue = Ok m' ->
  same_frame m m' /\ locked_doors m' = locked_doors m
  /\ key_positions m' = key_positions m /\ door_keys m' = door_keys m.
Proof.
  revert visited queue. induction fuel as [|fuel IH]; intros visited queue;
    destruct queue as [|[x y] queue']; cbn [ensure_loop]; try discriminate;
    try (intros H; inversion H; subst; split; [apply same_frame_refl | auto]).
  destruct (mem (x, y) reach).
  - destruct (trace_back (x, y) (start m)) as [path| |]; cbn [obind]; try discriminate.
    apply carve_walls_frame.
  - destruct (ensure_visit m ((x, y) :: visited) queue' (cardinal (x, y)))
      as [queue''| |]; cbn [obind]; try discriminate.
    apply IH.
Qed.

(** [_randbelow(n)] stays below [n]. *)
Lemma randbelow_below (n : Z) (st st' : PyRandom.state R) (r : Z) :
  PyRandom.randbelow R n st = Ok (r, st') -> r < n.
Proof.
  unfold PyRandom.randbelow. generalize PyRandom.randbelow_fuel. intros fuel. revert st.
  induction fuel as [|fuel IH]; intros st; cbn [PyRandom.randbelow_loop]; [discriminate|].
  destruct (PyRandom.getrandbits R (PyRandom.bit_length n) st) as [v st1].
  destruct (Z.ltb_spec v n) as [Hlt|Hge].
  - intros Heq. inversion Heq; subst. exact Hlt.
  - apply IH.
Qed.

Lemma post_process_frame (set_iter : list pos -> list pos) (g g' : MapGenerator R)
      (data m : MapData) :
  _post_process R set_iter g data = Ok (m, g') ->
  same_frame data m
  /\ (List.length (locked_doors m) <= S (List.length (locked_doors data)))%nat.
Proof.
  unfold _post_process.
  destruct (PyRandom.shuffle R _ (rng R g)) as [[walkable_positions st1]|e|];
    cbn [obind]; try discriminate.
  destruct (place_hazards R data _ st1) as [[data1 st2]|e|] eqn:Eh;
    cbn [obind]; try discriminate.
  apply place_hazards_frame in Eh. destruct Eh as [F1 L1].
  destruct (floor_cells data1 walkable_positions) as [trap_candidates|e|] eqn:Ec;
    cbn [obind]; try discriminate.
  apply floor_cells_are_floor in Ec. destruct Ec as [Hfloor _].
  destruct (place_traps R g data1 _) as [data2|e|] eqn:Et; cbn [obind]; try discriminate.
  apply place_traps_frame in Et.
  2:{ apply Forall_forall. intros p Hp. left.
      apply (proj1 (Forall_forall _ _) Hfloor). eapply In_firstn. exact Hp. }
  destruct Et as [F2 L2].
  destruct (place_doors data2 [] _) as [[data3 doors]|e|] eqn:Ed;
    cbn [obind]; try discriminate.
  apply place_doors_frame in Ed; [|constructor]. destruct Ed as (F3 & L3 & Hdoors).
  pose proof (same_frame_trans _ _ _ (same_frame_trans _ _ _ F1 F2) F3) as F123.
  assert (L123 : locked_doors data3 = locked_doors data) by congruence.
  assert (Hconnect :
            forall (d : MapData) (gen : MapGenerator R),
              same_frame data d ->
              (List.length (locked_doors d) <= S (List.length (locked_doors data)))%nat ->
              (let? reach := reachable d (start d) (locked_doors d) in
               if mem (stairs_down d) reach then Ok (d, gen)
               else let? data5 := _ensure_connection d reach in Ok (data5, gen))
              = Ok (m, g') ->
              same_frame data m
              /\ (List.length (locked_doors m) <= S (List.length (locked_doors data)))%nat).
  { intros d gen Fd Ld.
    destruct (reachable d (start d) (locked_doors d)) as [reach|e|];
      cbn [obind]; try discriminate.
    destruct (mem (stairs_down d) reach).
    - intros H. inversion H; subst. auto.
    - destruct (_ensure_connection d reach) as [data5|e|] eqn:Ee;
        cbn [obind]; try discriminate.
      apply ensure_loop_frame in Ee. destruct Ee as (F5 & L5 & _).
      intros H. inversion H; subst.
      split; [exact (same_frame_trans _ _ _ Fd F5) | rewrite L5; exact Ld]. }
  destruct doors as [|door rest].
  - cbn [obind]. apply Hconnect; [exact F123 | rewrite L123; lia].
  - destruct (PyRandom.randrange R _ _) as [[i st3]|e|] eqn:Er;
      cbn [obind]; try discriminate.
    assert (Hi : i < Numpy.len (door :: rest)).
    { unfold PyRandom.randrange in Er.
      destruct (0 <? Numpy.len (door :: rest)); [|discriminate].
      exact (randbelow_below _ _ _ _ Er). }
    set (locked := nth (Z.to_nat i) (door :: rest) (0, 0)) in *.
    assert (Hlocked : tile_at data3 (fst locked) (snd locked) = Ok DOOR).
    { apply (proj1 (Forall_forall _ _) Hdoors). apply nth_In.
      unfold Numpy.len in Hi. cbn [List.length] in *. lia. }
    destruct (Numpy.set (tiles data3) (snd locked) (fst locked) LOCKED_DOOR)
      as [t1|e|] eqn:Es; cbn [obind]; try discriminate.
    assert (Ft : tiles_stable (tiles data3) t1).
    { apply (set_stable _ _ _ _ DOOR LOCKED_DOOR Es Hlocked).
      unfold stable. repeat split; intros; discriminate. }
    destruct (reachable _ _ _) as [accessible_without_lock|e|];
      cbn [obind]; try discriminate.
    destruct (_pick_key_position R set_iter _ accessible_without_lock)
      as [[key g1]|e|]; cbn [obind]; try discriminate.
    destruct F123 as (W & H & S & U & D & T).
    destruct key as [k|]; apply Hconnect;
      try (unfold same_frame; cbn [width height start stairs_up stairs_down tiles];
           repeat split; try assumption; exact (tiles_stable_trans _ _ _ T Ft));
      cbn [locked_doors]; rewrite length_app, L123; simpl; lia.
Qed.

(** X21.  [_post_process] keeps the size of the map, its start and its stairs,
    never puts another tile where stairs are or stairs where another tile
    is, never walls up a walkable cell, and locks at most one door. *)
Theorem post_process_keeps_frame (set_iter : list pos -> list pos) (g : MapGenerator R)
        (data : MapData) :
  match _post_process R set_iter g data with
  | Ok (m, _) =>
      same_frame data m
      /\ (List.length (locked_doors m) <= S (List.length (locked_doors data)))%nat
  | _ => True
  end.
Proof.
  destruct (_post_process R set_iter g data) as [[m g']|e|] eqn:E; try exact I.
  exact (post_process_frame set_iter g g' data m E).
Qed.

Lemma finish_rooms_stairs (g g' : MapGenerator R) (t : Numpy.array Tile)
      (rooms : list Rect) (st : PyRandom.state R) (m : MapData) :
  finish_rooms R g t rooms st = Ok (m, g') ->
  width m = gen_width R g /\ height m = gen_height R g /\ stairs_up m = start m
  /\ locked_doors m = []
  /\ tile_at m (fst (stairs_down m)) (snd (stairs_down m)) = Ok STAIRS_DOWN
  /\ (tile_at m (fst (start m)) (snd (start m)) = Ok STAIRS_UP
      \/ tile_at m (fst (start m)) (snd (start m)) = Ok STAIRS_DOWN).
Proof.
  unfold finish_rooms.
  destruct (match rooms with
            | [] => Ok (t, st)
            | first :: rest => carve_corridors R t first rest st
            end) as [[t1 st1]|e|]; cbn [obind]; try discriminate.
  destruct rooms as [|start_room rest]; [discriminate|].
  set (s := center start_room).
  set (d := center (max_by (fun r => manhattan (center r) s) start_room rest)).
  destruct (Numpy.set t1 (snd s) (fst s) STAIRS_UP) as [t2|e|] eqn:E2;
    cbn [obind]; try discriminate.
  destruct (Numpy.set t2 (snd d) (fst d) STAIRS_DOWN) as [t3|e|] eqn:E3;
    cbn [obind]; try discriminate.
  intros H. inversion H; subst. cbn [width height stairs_up start stairs_down locked_doors].
  destruct (set_get _ _ _ _ _ E2) as (_ & _ & Hup & _ & _).
  destruct (set_get _ _ _ _ _ E3) as (_ & _ & Hdown & _ & Hread).
  unfold tile_at. cbn [tiles].
  repeat (split; [reflexivity|]). split; [exact Hdown|].
  destruct (Hread _ _ _ Hup) as [H'|[H' _]]; auto.
Qed.

Lemma finish_caves_stairs (g g' : MapGenerator R) (t : Numpy.array Tile)
      (st : PyRandom.state R) (m : MapData) :
  finish_caves R g t st = Ok (m, g') ->
  width m = gen_width R g /\ height m = gen_height R g /\ stairs_up m = start m
  /\ locked_doors m = []
  /\ tile_at m (fst (stairs_down m)) (snd (stairs_down m)) = Ok STAIRS_DOWN
  /\ (tile_at m (fst (start m)) (snd (start m)) = Ok STAIRS_UP
      \/ tile_at m (fst (start m)) (snd (start m)) = Ok STAIRS_DOWN).
Proof.
  unfold finish_caves. cbv zeta.
  destruct (Numpy.argwhere (cells_equal FLOOR t)) as [|w0 ws]; [discriminate|].
  destruct (PyRandom.randrange R _ st) as [[start_idx st1]|e|]; cbn [obind]; try discriminate.
  set (s := match nth_error (w0 :: ws) (Z.to_nat start_idx) with
            | Some (r, c) => (c, r)
            | None => (0, 0)
            end).
  destruct (flood_fill (cells_equal FLOOR t) s []) as [reach|e|]; cbn [obind];
    try discriminate.
  set (t1 := map _ (Numpy.indexed t)).
  destruct (PyRandom.randrange R _ st1) as [[end_idx st2]|e|]; cbn [obind]; try discriminate.
  destruct (match nth_error (Numpy.argwhere (cells_equal FLOOR t1)) (Z.to_nat end_idx) with
            | Some (r, c) => Ok (c, r)
            | None => Raise IndexError
            end) as [d|e|]; cbn [obind]; try discriminate.
  destruct (Numpy.set t1 (snd s) (fst s) STAIRS_UP) as [t2|e|] eqn:E2;
    cbn [obind]; try discriminate.
  destruct (Numpy.set t2 (snd d) (fst d) STAIRS_DOWN) as [t3|e|] eqn:E3;
    cbn [obind]; try discriminate.
  intros H. inversion H; subst. cbn [width height stairs_up start stairs_down locked_doors].
  destruct (set_get _ _ _ _ _ E2) as (_ & _ & Hup & _ & _).
  destruct (set_get _ _ _ _ _ E3) as (_ & _ & Hdown & _ & Hread).
  unfold tile_at. cbn [tiles].
  repeat (split; [reflexivity|]). split; [exact Hdown|].
  destruct (Hread _ _ _ Hup) as [H'|[H' _]]; auto.
Qed.

(** X22.  A map that [generate] returns has the size of the generator, its
    stairs up at the start, a stairs-down tile at [stairs_down], a stairs
    tile at the start (stairs down when both are one cell), and at most one
    locked door. *)
Theorem generated_map_has_stairs (set_iter : list pos -> list pos) (g : MapGenerator R)
        (layout : string) :
  match generate R set_iter g layout with
  | Ok (m, _) =>
      width m = gen_width R g /\ height m = gen_height R g /\ stairs_up m = start m
      /\ tile_at m (fst (stairs_down m)) (snd (stairs_down m)) = Ok STAIRS_DOWN
      /\ (tile_at m (fst (start m)) (snd (start m)) = Ok STAIRS_UP
          \/ tile_at m (fst (start m)) (snd (start m)) = Ok STAIRS_DOWN)
      /\ (List.length (locked_doors m) <= 1)%nat
  | _ => True
  end.
Proof.
  unfold generate.
  assert (Hbase : forall base g1,
             (if String.eqb layout "caves" then _generate_caves R g else _generate_rooms R g)
             = Ok (base, g1) ->
             width base = gen_width R g /\ height base = gen_height R g
             /\ stairs_up base = start base /\ locked_doors base = []
             /\ tile_at base (fst (stairs_down base)) (snd (stairs_down base))
                = Ok STAIRS_DOWN
             /\ (tile_at base (fst (start base)) (snd (start base)) = Ok STAIRS_UP
                 \/ tile_at base (fst (start base)) (snd (start base)) = Ok STAIRS_DOWN)).
  { intros base g1. destruct (String.eqb layout "caves").
    - unfold _generate_caves.
      destruct (cave_automaton R g) as [[t st]|e|]; cbn [obind]; try discriminate.
      apply finish_caves_stairs.
    - unfold _generate_rooms. cbv zeta.
      destruct (place_rooms R 212 _ _ _ [] 0 (rng R g)) as [[[t rooms] st]|e|];
        cbn [obind]; try discriminate.
      apply finish_rooms_stairs. }
  destruct (if String.eqb layout "caves" then _generate_caves R g else _generate_rooms R g)
    as [[base g1]|e|]; cbn [obind]; try exact I.
  destruct (Hbase base g1 eq_refl) as (W & H & U & L & Hd & Hs).
  destruct (_post_process R set_iter g1 base) as [[m g2]|e|] eqn:Ep; try exact I.
  apply post_process_frame in Ep.
  destruct Ep as ((W' & H' & S' & U' & D' & T) & Ll).
  split; [congruence|]. split; [congruence|]. split; [congruence|].
  rewrite D', S'. unfold tile_at in *.
  split.
  - destruct (T _ _ _ Hd) as (t' & Ht' & (_ & Hdown & _)).
    rewrite Ht'. f_equal. apply (proj1 Hdown). reflexivity.
  - split; [|rewrite L in Ll; exact Ll].
    destruct Hs as [Hs|Hs]; destruct (T _ _ _ Hs) as (t' & Ht' & (Hup & Hdown & _)).
    + left. rewrite Ht'. f_equal. apply (proj1 Hup). reflexivity.
    + right. rewrite Ht'. f_equal. apply (proj1 Hdown). reflexivity.
Qed.

End WithGenerator.
End FrameFacts.

(** ** Shuffles and the key *)
Section ShuffleFacts.

Lemma split_at {A : Type} (p q : list A) (a : A) :
  firstn (List.length p) (p ++ a :: q) = p
  /\ skipn (S (List.length p)) (p ++ a :: q) = q.
Proof.
  induction p as [|h p [IH1 IH2]]; [split; reflexivity|].
  cbn [List.length app firstn skipn]. rewrite IH1. split; [reflexivity | exact IH2].
Qed.

Lemma replace_at_perm {A : Type} (l : list A) (i : nat) (a b : A) :
  nth_error l i = Some a ->
  Permutation (a :: (firstn i l ++ b :: skipn (S i) l)) (b :: l).
Proof.
  intros H. apply nth_error_split in H. destruct H as (p & q & -> & <-).
  destruct (split_at p q a) as [-> ->].
  transitivity (a :: b :: p ++ q).
  - constructor. symmetry. apply Permutation_middle.
  - rewrite perm_swap. constructor. apply Permutation_middle.
Qed.

Lemma replace_at_nth {A : Type} (l : list A) (i j : nat) (a b : A) :
  nth_error l i = Some a -> nth_error l j = Some b ->
  nth_error (firstn i l ++ b :: skipn (S i) l) j = Some b.
Proof.
  intros Hi Hj. apply nth_error_split in Hi. destruct Hi as (p & q & -> & <-).
  destruct (split_at p q a) as [-> ->].
  destruct (Nat.lt_ge_cases j (List.length p)) as [Hlt|Hge].
  - rewrite nth_error_app1 in * by assumption. exact Hj.
  - rewrite nth_error_app2 in * by assumption.
    destruct (j - List.length p)%nat; [reflexivity | exact Hj].
Qed.

(** [x[i], x[j] = x[j], x[i]] rearranges. *)
Lemma swap_perm {A : Type} (l : list A) (i j : nat) : Permutation (PyRandom.swap l i j) l.
Proof.
  unfold PyRandom.swap.
  destruct (nth_error l i) as [a|] eqn:Ei; [|reflexivity].
  destruct (nth_error l j) as [b|] eqn:Ej; [|reflexivity].
  cbv zeta. set (l1 := firstn i l ++ b :: skipn (S i) l).
  pose proof (replace_at_nth l i j a b Ei Ej) as Hj1. fold l1 in Hj1.
  pose proof (replace_at_perm l1 j b a Hj1) as P1.
  pose proof (replace_at_perm l i a b Ei) as P2. fold l1 in P2.
  apply (Permutation_cons_inv (a := b)).
  transitivity (a :: l1); assumption.
Qed.

Lemma shuffle_from_perm (R : PyRandom.generator) {A : Type} (i : nat) (l out : list A)
      (st st' : PyRandom.state R) :
  PyRandom.shuffle_from R i l st = Ok (out, st') -> Permutation out l.
Proof.
  revert l st. induction i as [|i IH]; intros l st; cbn [PyRandom.shuffle_from].
  - intros H. inversion H. reflexivity.
  - destruct (PyRandom.randbelow R (Z.of_nat (S i) + 1) st) as [[j st1]|e|];
      cbn [obind]; try discriminate.
    intros H. apply IH in H. rewrite H. apply swap_perm.
Qed.

End ShuffleFacts.

Section KeyFacts.
Import Utils Mapgen.

(** X23.  The key of the locked door is drawn from the cells it is given: no
    key for an empty set; otherwise one of the cells, and not the start
    cell of the generator unless that is the only cell there is. *)
Theorem pick_key_position_member (R : PyRandom.generator) (set_iter : list pos -> list pos)
        (g : MapGenerator R) (reach : list pos) :
  match _pick_key_position R set_iter g reach with
  | Ok (None, g') => set_iter reach = [] /\ g' = g
  | Ok (Some key, _) =>
      In key (set_iter reach)
      /\ forall p, _start_position R g = Some p -> key = p ->
                   forall c, In c (set_iter reach) -> c = p
  | _ => True
  end.
Proof.
  unfold _pick_key_position. cbv zeta.
  destruct (set_iter reach) as [|c0 cs] eqn:El; [split; reflexivity|].
  destruct (PyRandom.shuffle R (c0 :: cs) (rng R g)) as [[shuffled st1]|e|] eqn:Es;
    cbn [obind]; try exact I.
  apply shuffle_from_perm in Es.
  set (avoid := match _start_position R g with
                | Some p => p
                | None => nth 0 shuffled (0, 0)
                end).
  assert (Hne : shuffled <> []).
  { intros ->. apply Permutation_nil in Es. discriminate. }
  destruct (filter (fun p => negb (pos_eqb p avoid)) shuffled) as [|k ks] eqn:Ef.
  - split.
    + apply (Permutation_in _ Es). destruct shuffled; [congruence | left; reflexivity].
    + intros p Hp _ c Hc. unfold avoid in Ef. rewrite Hp in Ef.
      apply (Permutation_in _ (Permutation_sym Es)) in Hc.
      destruct (pos_eqb c p) eqn:Ec; [apply pos_eqb_eq; exact Ec|].
      assert (Hin : In c (filter (fun q => negb (pos_eqb q p)) shuffled)).
      { apply filter_In. split; [exact Hc | rewrite Ec; reflexivity]. }
      rewrite Ef in Hin. destruct Hin.
  - assert (Hk : In k (filter (fun p => negb (pos_eqb p avoid)) shuffled)).
    { rewrite Ef. left. reflexivity. }
    apply filter_In in Hk. destruct Hk as [Hk Hneq].
    split; [apply (Permutation_in _ Es); exact Hk|].
    intros p Hp Hkp. exfalso. unfold avoid in Hneq. rewrite Hp in Hneq. subst k.
    rewrite pos_eqb_refl in Hneq. discriminate.
Qed.

End KeyFacts.

(** ** Equipment: [inventory.py] *)

Section EquipFacts.
Import Components InventoryHelpers.

Lemma attrs_get_set (d : list (string * option Item)) (k k' : string) (v : option Item) :
  dict_get_default (attrs_set d k v) k' None
  = if String.eqb k' k then v else dict_get_default d k' None.
Proof.
  unfold dict_get_default.
  induction d as [|[k0 v0] rest IH]; cbn [attrs_set dict_get].
  - rewrite (String.eqb_sym k k'). destruct (String.eqb k' k), v; reflexivity.
  - destruct (String.eqb_spec k0 k) as [->|Hk]; cbn [dict_get].
    + rewrite (String.eqb_sym k k'). destruct (String.eqb k' k); reflexivity.
    + destruct (String.eqb_spec k0 k') as [->|Hk'].
      * destruct (String.eqb_spec k' k); [congruence | reflexivity].
      * exact IH.
Qed.

Ltac split_names :=
  repeat match goal with
         | |- context [String.eqb ?a ?b] =>
             destruct (String.eqb_spec a b);
             subst; cbn [weapon armor ring_left ring_right charm other_attrs]
         end.

Lemma getattr_setattr (e : Equipment) (s s' : string) (v : option Item) :
  Equipment_getattr (Equipment_setattr e s v) s'
  = if String.eqb s' s then v else Equipment_getattr e s'.
Proof.
  unfold Equipment_getattr, Equipment_setattr.
  destruct (String.eqb_spec s' s) as [->|Hne].
  - split_names; try reflexivity; try congruence.
    rewrite attrs_get_set, String.eqb_refl. reflexivity.
  - split_names; try reflexivity; try congruence.
    rewrite attrs_get_set.
    destruct (String.eqb_spec s' s); [congruence | reflexivity].
Qed.

Lemma setattr_listed (e : Equipment) (s : string) (v : option Item) :
  existsb (String.eqb s) EQUIP_ORDER = false ->
  list_equipped (Equipment_setattr e s v) = list_equipped e.
Proof.
  intros H. unfold list_equipped, EQUIP_ORDER in *.
  cbn [existsb] in H.
  repeat (apply orb_false_elim in H; destruct H as [? H]).
  cbn [flat_map].
  rewrite !getattr_setattr.
  repeat match goal with
         | Hs : String.eqb s ?n = false |- _ =>
             rewrite (String.eqb_sym s n) in Hs; rewrite Hs; clear Hs
         end.
  reflexivity.
Qed.

(** X24.  [equip_item] refuses an item without a slot (none, or the empty
    name) and a ring when both ring slots are taken, and then leaves the
    equipment as it was.  Any other item is stored under its slot name,
    in place of what was there; [unequip_item] of that slot gives the
    item back and empties the slot, the other slots being as before, and
    a slot name outside [EQUIP_ORDER] is never listed by
    [list_equipped].  A ring that was put on comes off first, except
    when it went to the left hand while the right hand had a ring. *)
Theorem equip_then_unequip (e : Equipment) (item : Item) :
  let (ok, e1) := equip_item e item in
  (ok = false <->
     item_slot item = None \/ item_slot item = Some EmptyString
     \/ (item_slot item = Some "ring"%string
         /\ ring_left e <> None /\ ring_right e <> None))
  /\ (ok = false -> e1 = e)
  /\ (forall slot, ok = true -> item_slot item = Some slot -> slot <> "ring"%string ->
        Equipment_getattr e1 slot = Some item
        /\ (forall other, other <> slot ->
              Equipment_getattr e1 other = Equipment_getattr e other)
        /\ fst (unequip_item e1 slot) = Some item
        /\ (forall s', Equipment_getattr (snd (unequip_item e1 slot)) s'
                       = if String.eqb s' slot then None else Equipment_getattr e s')
        /\ (existsb (String.eqb slot) EQUIP_ORDER = false ->
              list_equipped e1 = list_equipped e))
  /\ (ok = true -> item_slot item = Some "ring"%string ->
        match ring_left e, ring_right e with
        | None, Some worn => fst (unequip_item e1 "ring") = Some worn
        | _, _ => unequip_item e1 "ring" = (Some item, e)
        end).
Proof.
  unfold equip_item.
  destruct (item_slot item) as [slot|] eqn:Hslot.
  2:{ split; [split; [intros _; left; reflexivity | reflexivity]|].
      split; [reflexivity|]. split; [intros s H; discriminate H | intros H; discriminate H]. }
  destruct (String.eqb_spec slot EmptyString) as [->|Hne].
  { split; [split; [intros _; right; left; reflexivity | reflexivity]|].
    split; [reflexivity|]. split; [intros s H; discriminate H | intros H; discriminate H]. }
  destruct (String.eqb_spec slot "ring") as [->|Hring].
  - destruct (ring_left e) as [l|] eqn:Hl; [destruct (ring_right e) as [r|] eqn:Hr|].
    + split; [split; [intros _; right; right; repeat split; congruence | reflexivity]|].
      split; [reflexivity|]. split; [intros s H; discriminate H | intros H; discriminate H].
    + split.
      { split; [intros H; discriminate H|].
        intros [H|[H|[_ [_ H]]]]; congruence. }
      split; [intros H; discriminate H|].
      split; [intros s _ H Hs; congruence|].
      intros _ _. unfold unequip_item, Equipment_setattr.
      change (String.eqb "ring" "ring") with true.
      change (String.eqb "ring_right" "weapon") with false.
      change (String.eqb "ring_right" "armor") with false.
      change (String.eqb "ring_right" "ring_left") with false.
      change (String.eqb "ring_right" "ring_right") with true.
      cbv iota. cbn [ring_right weapon armor ring_left charm other_attrs].
      destruct e; cbn in *; subst; reflexivity.
    + split.
      { split; [intros H; discriminate H|].
        intros [H|[H|[_ [H _]]]]; congruence. }
      split; [intros H; discriminate H|].
      split; [intros s _ H Hs; congruence|].
      intros _ _. unfold unequip_item, Equipment_setattr.
      change (String.eqb "ring" "ring") with true.
      change (String.eqb "ring_left" "weapon") with false.
      change (String.eqb "ring_left" "armor") with false.
      change (String.eqb "ring_left" "ring_left") with true.
      cbv iota. cbn [ring_right weapon armor ring_left charm other_attrs].
      destruct (ring_right e) as [r|] eqn:Hr; [reflexivity|].
      destruct e; cbn in *; subst; reflexivity.
  - split.
    { split; [intros H; discriminate H|].
      intros [H|[H|[H _]]]; congruence. }
    split; [intros H; discriminate H|].
    split; [|intros _ H; congruence].
    intros s _ Hs Hs'. injection Hs as <-.
    split; [rewrite getattr_setattr, String.eqb_refl; reflexivity|].
    split.
    { intros other Ho. rewrite getattr_setattr.
      destruct (String.eqb_spec other slot); [congruence | reflexivity]. }
    unfold unequip_item.
    destruct (String.eqb_spec slot "ring") as [|_]; [congruence|].
    cbn [fst snd].
    split; [rewrite getattr_setattr, String.eqb_refl; reflexivity|].
    split.
    { intros s'. rewrite !getattr_setattr. destruct (String.eqb s' slot); reflexivity. }
    apply setattr_listed.
Qed.

End EquipFacts.

(** ** Saved actors: [serialization.py] *)

Section SaveFacts.
Import Components AI Serialization.

Lemma add_fresh (statuses : StatusTracker) (effect : StatusEffect) :
  ~ In (status_name effect) (map status_name statuses) ->
  StatusTracker_add statuses effect = statuses ++ [effect].
Proof.
  induction statuses as [|x rest IH]; cbn [StatusTracker_add map In app]; intros H.
  - reflexivity.
  - destruct (String.eqb_spec (status_name x) (status_name effect)) as [E|_].
    + exfalso. apply H. left. exact E.
    + rewrite IH; [reflexivity | intros Hin; apply H; right; exact Hin].
Qed.

Lemma fold_add_distinct (l acc : list StatusEffect) :
  NoDup (map status_name (acc ++ l)) ->
  fold_left StatusTracker_add l acc = acc ++ l.
Proof.
  revert acc. induction l as [|x l IH]; intros acc H; cbn [fold_left].
  - rewrite app_nil_r. reflexivity.
  - assert (Hx : ~ In (status_name x) (map status_name acc)).
    { rewrite map_app in H. cbn [map] in H.
      apply NoDup_remove_2 in H. intros Hin. apply H.
      apply in_or_app. left. exact Hin. }
    rewrite (add_fresh acc x Hx).
    rewrite IH; rewrite <- app_assoc; [reflexivity | exact H].
Qed.

Lemma add_names_NoDup (statuses : StatusTracker) (effect : StatusEffect) :
  NoDup (map status_name statuses) ->
  NoDup (map status_name (StatusTracker_add statuses effect)).
Proof.
  intros H. rewrite StatusTracker_add_names.
  destruct (existsb _ _) eqn:E; [exact H|].
  apply (NoDup_Add (a:=status_name effect) (l:=map status_name statuses ++ [])).
  - apply Add_app.
  - rewrite app_nil_r. split; [exact H|].
    intros Hin.
    assert (existsb (String.eqb (status_name effect)) (map status_name statuses) = true).
    { apply existsb_exists. exists (status_name effect). split; [exact Hin|].
      apply String.eqb_refl. }
    congruence.
Qed.

Lemma fold_add_NoDup (l acc : list StatusEffect) :
  NoDup (map status_name acc) ->
  NoDup (map status_name (fold_left StatusTracker_add l acc)).
Proof.
  revert acc. induction l as [|x l IH]; intros acc H; cbn [fold_left]; [exact H|].
  apply IH. apply add_names_NoDup. exact H.
Qed.

(** X25.  Saving an actor and loading it again gives back its id, position
    and stats, its items in an inventory that is always 5 by 4, the five
    slots of its equipment, and its statuses with every name once: the
    statuses themselves when their names were distinct. *)
Theorem actor_snapshot_round_trip (id : Z) (position : Position) (stats : Stats)
        (inventory : option Inventory) (equipment : option Equipment)
        (statuses : option StatusTracker) :
  let actor :=
    snapshot_to_actor (actor_to_snapshot id position stats inventory equipment statuses) in
  actor_id actor = id
  /\ actor_position actor = position
  /\ actor_stats actor = stats
  /\ actor_inventory actor
     = mkInventory 5 4 (match inventory with Some inv => items inv | None => [] end)
  /\ actor_equipment actor
     = match equipment with
       | Some e => mkEquipment (weapon e) (armor e) (ring_left e) (ring_right e) (charm e) []
       | None => empty_equipment
       end
  /\ NoDup (map status_name (actor_statuses actor))
  /\ (forall tracker, statuses = Some tracker -> NoDup (map status_name tracker) ->
        actor_statuses actor = tracker)
  /\ (statuses = None -> actor_statuses actor = []).
Proof.
  cbv zeta. unfold snapshot_to_actor, actor_to_snapshot.
  cbn [snap_position entity_id snap_stats snap_inventory snap_equipment snap_statuses
       actor_id actor_position actor_stats actor_inventory actor_equipment actor_statuses].
  split; [reflexivity|].
  split; [destruct position; reflexivity|].
  split; [reflexivity|].
  split; [reflexivity|].
  split.
  { destruct equipment as [e|]; [|reflexivity].
    destruct e as [w a l r c o]; unfold Equipment_slots, empty_equipment.
    cbn [weapon armor ring_left ring_right charm other_attrs].
    destruct w, a, l, r, c; reflexivity. }
  split; [apply fold_add_NoDup; constructor|].
  split.
  - intros tracker -> Hnd. apply (fold_add_distinct tracker []). exact Hnd.
  - intros ->. reflexivity.
Qed.

End SaveFacts.

(** ** Loot: [utils.weighted_choice] and [loot.py] *)

Section LootFacts.
Import Components InventoryHelpers Utils Loot.

Lemma choice_loop_member (roll upto : Q) (table : list (string * Z)) (item : string) :
  choice_loop roll upto table = Some item -> In item (map fst table).
Proof.
  revert upto. induction table as [|[name w] rest IH]; intros upto; cbn [choice_loop].
  - discriminate.
  - destruct (Qle_bool roll (upto + inject_Z w)).
    + intros H. injection H as <-. left. reflexivity.
    + intros H. right. exact (IH _ H).
Qed.

Lemma last_member {A : Type} (rest : list A) (first : A) :
  In (last rest first) (first :: rest).
Proof.
  revert first. induction rest as [|x rest IH]; intros first.
  - left. reflexivity.
  - right. destruct rest as [|y rest'].
    + left. reflexivity.
    + change (last (x :: y :: rest') first) with (last (y :: rest') first).
      destruct (IH x) as [H|H].
      * left. rewrite H.
        clear. revert x first y. induction rest' as [|z r IHr]; intros x first y.
        -- reflexivity.
        -- change (last (y :: z :: r) x) with (last (z :: r) x).
           change (last (y :: z :: r) first) with (last (z :: r) first).
           apply (IHr x first z).
      * right.
        assert (E : last (y :: rest') first = last (y :: rest') x).
        { clear. revert y. induction rest' as [|z r IHr]; intros y.
          - reflexivity.
          - change (last (y :: z :: r) first) with (last (z :: r) first).
            change (last (y :: z :: r) x) with (last (z :: r) x).
            apply IHr. }
        rewrite E. exact H.
Qed.

Lemma weighted_choice_nonempty (R : PyRandom.generator) (st : PyRandom.state R)
      (table : list (string * Z)) :
  table <> [] ->
  exists item,
    weighted_choice R st table = Ok (item, snd (PyRandom.random R st))
    /\ In item (map fst table).
Proof.
  unfold weighted_choice.
  destruct (PyRandom.random R st) as [u st1]; cbn [snd].
  intros Hne.
  destruct (choice_loop _ _ table) as [item|] eqn:E.
  - exists item. split; [reflexivity | exact (choice_loop_member _ _ _ _ E)].
  - destruct table as [|first rest]; [congruence|].
    exists (fst (last rest first)). split; [reflexivity|].
    apply in_map. apply last_member.
Qed.

(** X26.  [weighted_choice] draws one number; on an empty table it raises
    IndexError, on any other it returns an item of the table, whatever
    the weights are. *)
Theorem weighted_choice_member (R : PyRandom.generator) (st : PyRandom.state R)
        (table : list (string * Z)) :
  (table = [] -> weighted_choice R st table = Raise IndexError)
  /\ (table <> [] ->
      exists item,
        weighted_choice R st table = Ok (item, snd (PyRandom.random R st))
        /\ In item (map fst table)).
Proof.
  split.
  - intros ->. unfold weighted_choice.
    destruct (PyRandom.random R st) as [u st1]. reflexivity.
  - apply weighted_choice_nonempty.
Qed.

Ltac make_item :=
  match goal with
  | |- context [create_item_from_name ?n] =>
      let v := eval vm_compute in (create_item_from_name n) in
      change (create_item_from_name n) with v
  end.

Lemma drop_facts (name : string) :
  In name (map fst (WEAPON_TABLE ++ ARMOR_TABLE ++ CONSUMABLE_TABLE)) ->
  let item := create_item_from_name name in
  item_name item = name
  /\ (stackable item = true <-> In name (map fst CONSUMABLE_TABLE))
  /\ (forall e, fst (equip_item e item) = true
                <-> In name ["Rusty Dagger"; "Iron Sword"; "Tattered Robe";
                             "Chainmail"; "Aetheric Aegis"]%string)
  /\ (name = "Glacial Shortsword of Haste"%string -> item = plain_item name).
Proof.
  intros Hin. cbv zeta.
  cbn [WEAPON_TABLE ARMOR_TABLE CONSUMABLE_TABLE app map fst] in Hin.
  cbn [CONSUMABLE_TABLE map fst].
  repeat (destruct Hin as [<-|Hin]); [..|destruct Hin];
    make_item; cbn [item_name stackable];
    (split; [reflexivity|]);
    (split; [split; [intros H; try discriminate H; vm_compute; tauto
                    | intros H; try reflexivity;
                      repeat (destruct H as [H|H]; [discriminate H|]); destruct H]|]);
    (split; [|intros H; try discriminate H; reflexivity]);
    intros e; unfold equip_item; cbn [item_slot];
    try (change (String.eqb "weapon" EmptyString) with false;
         change (String.eqb "weapon" "ring") with false);
    try (change (String.eqb "armor" EmptyString) with false;
         change (String.eqb "armor" "ring") with false);
    cbv iota; cbn [fst];
    (split; [intros H; try discriminate H; vm_compute; tauto
            | intros H; try reflexivity;
              repeat (destruct H as [H|H]; [discriminate H|]); destruct H]).
Qed.

(** X27.  [roll_loot] draws two numbers and returns the item made from a name of
    one of the three tables.  The item stacks exactly when the name is a
    consumable's, and [equip_item] takes it exactly when it is one of
    five names: the third weapon of the table, the Glacial Shortsword of
    Haste, matches no rule of [create_item_from_name], is made without a
    slot and cannot be equipped. *)
Theorem roll_loot_drops (R : PyRandom.generator) (st : PyRandom.state R) (floor : Z) :
  match roll_loot R st floor with
  | Ok (item, st') =>
      In (item_name item) (map fst (WEAPON_TABLE ++ ARMOR_TABLE ++ CONSUMABLE_TABLE))
      /\ item = create_item_from_name (item_name item)
      /\ st' = snd (PyRandom.random R (snd (PyRandom.random R st)))
      /\ (stackable item = true <-> In (item_name item) (map fst CONSUMABLE_TABLE))
      /\ (forall e, fst (equip_item e item) = true
                    <-> In (item_name item)
                           ["Rusty Dagger"; "Iron Sword"; "Tattered Robe";
                            "Chainmail"; "Aetheric Aegis"]%string)
      /\ (item_name item = "Glacial Shortsword of Haste"%string ->
          item = plain_item (item_name item))
  | Raise _ => False
  | OutOfFuel => False
  end.
Proof.
  unfold roll_loot.
  destruct (weighted_choice_nonempty R st
              [("weapon", 3 + floor); ("armor", 2 + floor);
               ("consumable", 6 + floor * 2)]%string) as [roll_type [E1 _]];
    [discriminate|].
  rewrite E1. cbn [obind].
  set (st1 := snd (PyRandom.random R st)).
  assert (Hname : exists name,
             (if String.eqb roll_type "weapon" then weighted_choice R st1 WEAPON_TABLE
              else if String.eqb roll_type "armor" then weighted_choice R st1 ARMOR_TABLE
              else weighted_choice R st1 CONSUMABLE_TABLE)
             = Ok (name, snd (PyRandom.random R st1))
             /\ In name (map fst (WEAPON_TABLE ++ ARMOR_TABLE ++ CONSUMABLE_TABLE))).
  { rewrite !map_app.
    destruct (String.eqb roll_type "weapon"); [|destruct (String.eqb roll_type "armor")].
    - destruct (weighted_choice_nonempty R st1 WEAPON_TABLE) as [name [E2 Hin]];
        [discriminate|].
      exists name. split; [exact E2|]. apply in_or_app. left. exact Hin.
    - destruct (weighted_choice_nonempty R st1 ARMOR_TABLE) as [name [E2 Hin]];
        [discriminate|].
      exists name. split; [exact E2|]. apply in_or_app. right.
      apply in_or_app. left. exact Hin.
    - destruct (weighted_choice_nonempty R st1 CONSUMABLE_TABLE) as [name [E2 Hin]];
        [discriminate|].
      exists name. split; [exact E2|]. apply in_or_app. right.
      apply in_or_app. right. exact Hin. }
  destruct Hname as [name [E2 Hin]].
  rewrite E2. cbn [obind].
  destruct (drop_facts name Hin) as [Hn [Hs [He Hg]]].
  rewrite Hn.
  split; [exact Hin|].
  split; [reflexivity|].
  split; [reflexivity|].
  split; [exact Hs|].
  split; [exact He | exact Hg].
Qed.

End LootFacts.

(** ** Caves: [_generate_caves] *)

Section IndexedFacts.

Lemma combine_seq_nth {A B : Type} (f : nat -> B) (l : list A) (s i : nat) :
  nth_error (combine (map f (seq s (List.length l))) l) i
  = option_map (pair (f (s + i)%nat)) (nth_error l i).
Proof.
  revert s i. induction l as [|a l IH]; intros s i; cbn [List.length seq map combine].
  - destruct i; reflexivity.
  - destruct i as [|i]; cbn [nth_error option_map].
    + rewrite Nat.add_0_r. reflexivity.
    + rewrite IH. rewrite Nat.add_succ_r. reflexivity.
Qed.

Lemma indexed_nth {A : Type} (l : list A) (i : nat) :
  nth_error (Numpy.indexed l) i = option_map (pair (Z.of_nat i)) (nth_error l i).
Proof.
  unfold Numpy.indexed, Numpy.py_range, Numpy.len.
  rewrite Z.sub_0_r, Nat2Z.id.
  rewrite (combine_seq_nth (fun k => 0 + Z.of_nat k) l 0 i). reflexivity.
Qed.

Lemma indexed_In {A : Type} (l : list A) (k : Z) (v : A) :
  In (k, v) (Numpy.indexed l) -> 0 <= k /\ nth_error l (Z.to_nat k) = Some v.
Proof.
  intros H. apply In_nth_error in H. destruct H as [i Hi].
  rewrite indexed_nth in Hi.
  destruct (nth_error l i) as [v'|] eqn:E; [|discriminate].
  cbn [option_map] in Hi. inversion Hi; subst.
  split; [lia|]. rewrite Nat2Z.id. exact E.
Qed.

Lemma indexed_length {A : Type} (l : list A) :
  List.length (Numpy.indexed l) = List.length l.
Proof.
  unfold Numpy.indexed, Numpy.py_range, Numpy.len.
  rewrite length_combine, length_map, length_seq, Z.sub_0_r, Nat2Z.id.
  apply Nat.min_id.
Qed.

(** The cells that [argwhere] lists hold [True]. *)
Lemma argwhere_true (mask : Numpy.array bool) (r c : Z) :
  In (r, c) (Numpy.argwhere mask) ->
  0 <= r /\ 0 <= c /\ Numpy.get mask r c = Ok true.
Proof.
  unfold Numpy.argwhere. intros H.
  apply in_flat_map in H. destruct H as [[r' row] [Hrow H]].
  apply in_flat_map in H. destruct H as [[c' b] [Hcell H]].
  destruct b; [|destruct H].
  destruct H as [H|[]]. inversion H; subst.
  apply indexed_In in Hrow. destruct Hrow as [Hr Hrow].
  apply indexed_In in Hcell. destruct Hcell as [Hc Hcell].
  split; [exact Hr|]. split; [exact Hc|].
  rewrite (get_nonneg mask r c Hr Hc), Hrow, Hcell. reflexivity.
Qed.

(** A read in an array rebuilt cell by cell from its indices. *)
Lemma get_rebuilt {A B : Type} (F : Z -> Z -> A -> B) (a : Numpy.array A) (y x : Z) :
  0 <= y -> 0 <= x ->
  Numpy.get (map (fun '(r, row) => map (fun '(c, old) => F c r old) (Numpy.indexed row))
                 (Numpy.indexed a)) y x
  = match Numpy.get a y x with
    | Ok old => Ok (F x y old)
    | Raise e => Raise e
    | OutOfFuel => OutOfFuel
    end.
Proof.
  intros Hy Hx. rewrite !get_nonneg by assumption.
  rewrite nth_error_map, indexed_nth.
  destruct (nth_error a (Z.to_nat y)) as [row|]; cbn [option_map]; [|reflexivity].
  rewrite nth_error_map, indexed_nth.
  destruct (nth_error row (Z.to_nat x)) as [v|]; cbn [option_map]; [|reflexivity].
  rewrite !Z2Nat.id by assumption. reflexivity.
Qed.

Lemma rebuilt_shape {A B : Type} (F : Z -> Z -> A -> B) (a : Numpy.array A) :
  map (@List.length B)
      (map (fun '(r, row) => map (fun '(c, old) => F c r old) (Numpy.indexed row))
           (Numpy.indexed a))
  = map (@List.length A) a.
Proof.
  apply nth_error_ext. intros i.
  rewrite !nth_error_map, indexed_nth.
  destruct (nth_error a i) as [row|]; cbn [option_map]; [|reflexivity].
  rewrite length_map, indexed_length. reflexivity.
Qed.

(** Arrays of one shape: a cell of one is a cell of the other. *)
Lemma get_shape {A B : Type} (a : Numpy.array A) (b : Numpy.array B) (y x : Z) (t : A) :
  map (@List.length A) a = map (@List.length B) b ->
  Numpy.get a y x = Ok t -> exists t', Numpy.get b y x = Ok t'.
Proof.
  intros Hs H. apply get_cell in H. destruct H as (r & row & c & Hy & Hrow & Hx & Ht).
  assert (Hlen : Numpy.len b = Numpy.len a).
  { unfold Numpy.len. f_equal.
    rewrite <- (length_map (@List.length A) a), Hs, length_map. reflexivity. }
  assert (Hr : nth_error (map (@List.length A) a) r = Some (List.length row)).
  { rewrite nth_error_map, Hrow. reflexivity. }
  rewrite Hs, nth_error_map in Hr.
  destruct (nth_error b r) as [row'|] eqn:Erow'; [|discriminate].
  cbn [option_map] in Hr. inversion Hr as [Hl].
  destruct (nth_error row' c) as [t'|] eqn:Et'.
  - exists t'. apply get_cell. exists r, row', c.
    rewrite Hlen. unfold Numpy.len. rewrite Hl. auto.
  - apply nth_error_None in Et'.
    assert (nth_error row c <> None) by congruence.
    apply nth_error_Some in H. lia.
Qed.

(** A write seen from the array it made: each cell holds what it held, or
    the written value in place of what the written cell held. *)
Lemma set_get_back {A : Type} (a a' : Numpy.array A) (y x : Z) (v : A) (y' x' : Z) (t' : A) :
  Numpy.set a y x v = Ok a' ->
  Numpy.get a' y' x' = Ok t' ->
  exists t, Numpy.get a y' x' = Ok t
            /\ (t' = t \/ (t' = v /\ Numpy.get a y x = Ok t)).
Proof.
  intros Hset Hget.
  destruct (set_get _ _ _ _ _ Hset) as (_ & Hshape & _ & _ & Hread).
  destruct (get_shape a' a y' x' t' Hshape Hget) as [t Ht].
  exists t. split; [exact Ht|].
  destruct (Hread _ _ _ Ht) as [H|[H Hold]].
  - left. congruence.
  - right. split; [congruence | exact Hold].
Qed.

Lemma shape_of_lengths (a b : Numpy.array bool) :
  map (@List.length bool) a = map (@List.length bool) b ->
  Utils.shape_w a = Utils.shape_w b /\ Utils.shape_h a = Utils.shape_h b.
Proof.
  intros H. unfold Utils.shape_w, Utils.shape_h, Numpy.len. split.
  - destruct a as [|ra a], b as [|rb b]; cbn [map] in H; try discriminate; [reflexivity|].
    inversion H. congruence.
  - f_equal. rewrite <- (length_map (@List.length bool) a), H, length_map. reflexivity.
Qed.

End IndexedFacts.

Section CaveFacts.
Import Utils Mapgen.
Variable R : PyRandom.generator.

Lemma valid_tiles (f : Tile -> bool) (a : Numpy.array Tile) (x y : Z) :
  fill_valid (map (map f) a) [] (x, y) = true
  <-> (0 <= x < shape_w (map (map f) a) /\ 0 <= y < shape_h (map (map f) a))
      /\ exists t, Numpy.get a y x = Ok t /\ f t = true.
Proof.
  unfold fill_valid, cell. cbn [fst snd mem existsb negb]. rewrite andb_true_r.
  split.
  - intros H. apply andb_prop in H. destruct H as [H Hc].
    apply andb_prop in H. destruct H as [H H4].
    apply andb_prop in H. destruct H as [H H3].
    apply andb_prop in H. destruct H as [H1 H2].
    apply Z.leb_le in H1, H3. apply Z.ltb_lt in H2, H4.
    split; [lia|].
    rewrite get_map in Hc by assumption.
    destruct (Numpy.get a y x) as [t|e|]; try discriminate. exists t. auto.
  - intros [[[H1 H2] [H3 H4]] [t [Ht Hf]]].
    rewrite (get_map f a y x H3 H1), Ht.
    apply Z.leb_le in H1, H3. apply Z.ltb_lt in H2, H4.
    rewrite H1, H2, H3, H4. exact Hf.
Qed.

Lemma mask_shape {B : Type} (f : Tile -> B) (a : Numpy.array Tile) :
  map (@List.length B) (map (map f) a) = map (@List.length Tile) a.
Proof.
  rewrite map_map. apply map_ext. intros row. apply length_map.
Qed.

Lemma finish_caves_connected (g g' : MapGenerator R) (t : Numpy.array Tile)
      (st : PyRandom.state R) (m : MapData) :
  finish_caves R g t st = Ok (m, g') ->
  exists cells,
    reachable m (start m) [] = Ok cells
    /\ forall x y tile,
         0 <= x -> 0 <= y -> tile_at m x y = Ok tile ->
         (tile <> WALL <-> In (x, y) cells).
Proof.
  unfold finish_caves. cbv zeta.
  destruct (Numpy.argwhere (cells_equal FLOOR t)) as [|w0 ws]; [discriminate|].
  destruct (PyRandom.randrange R _ st) as [[start_idx st1]|e|]; cbn [obind]; try discriminate.
  set (s := match nth_error (w0 :: ws) (Z.to_nat start_idx) with
            | Some (r, c) => (c, r)
            | None => (0, 0)
            end).
  clearbody s. destruct s as [sx sy].
  destruct (flood_fill_cells (cells_equal FLOOR t) (sx, sy) [])
    as (reach & Hfill & _ & Hvalid & Hreach).
  rewrite Hfill. cbn [obind].
  set (F := fun (c r : Z) (old : Tile) => if mem (c, r) reach then old else WALL).
  set (t1 := map _ (Numpy.indexed t)).
  assert (Hget1 : forall y x, 0 <= y -> 0 <= x ->
            Numpy.get t1 y x = match Numpy.get t y x with
                               | Ok old => Ok (F x y old)
                               | Raise e => Raise e
                               | OutOfFuel => OutOfFuel
                               end).
  { intros y x Hy Hx. exact (get_rebuilt F t y x Hy Hx). }
  assert (Hshape1 : map (@List.length Tile) t1 = map (@List.length Tile) t).
  { exact (rebuilt_shape F t). }
  destruct (PyRandom.randrange R _ st1) as [[end_idx st2]|e|]; cbn [obind]; try discriminate.
  destruct (nth_error (Numpy.argwhere (cells_equal FLOOR t1)) (Z.to_nat end_idx))
    as [[r c]|] eqn:Estop; cbn [obind fst snd]; try discriminate.
  destruct (Numpy.set t1 sy sx STAIRS_UP) as [t2|e|] eqn:E2; cbn [obind]; try discriminate.
  destruct (Numpy.set t2 r c STAIRS_DOWN) as [t3|e|] eqn:E3; cbn [obind]; try discriminate.
  intros H. inversion H; subst m g'. clear H.
  unfold reachable, walkable, tile_at. cbn [tiles start].
  (* the cells of the first fill *)
  assert (A2 : forall x y v, 0 <= x -> 0 <= y ->
                 Numpy.get t1 y x = Ok v -> v <> WALL -> In (x, y) reach).
  { intros x y v Hx Hy Hv Hw. rewrite (Hget1 y x Hy Hx) in Hv.
    destruct (Numpy.get t y x) as [old|e|]; try discriminate.
    inversion Hv as [Hv']. unfold F in Hv'.
    destruct (mem (x, y) reach) eqn:Em; [apply mem_In; exact Em | congruence]. }
  assert (A1 : forall x y, In (x, y) reach ->
                 (0 <= x < shape_w (cells_equal FLOOR t)
                  /\ 0 <= y < shape_h (cells_equal FLOOR t))
                 /\ Numpy.get t1 y x = Ok FLOOR).
  { intros x y Hin.
    pose proof (proj1 (Forall_forall _ _) Hvalid _ Hin) as Hv.
    apply valid_tiles in Hv. destruct Hv as [Hb [t0 [Ht0 Hf]]].
    split; [exact Hb|].
    rewrite (Hget1 y x) by lia. rewrite Ht0. unfold F.
    apply mem_In in Hin. rewrite Hin.
    apply Tile_eqb_eq in Hf. congruence. }
  (* the stairs down are put on a cell of the fill *)
  assert (Hstop : In (c, r) reach /\ 0 <= c /\ 0 <= r).
  { apply nth_error_In in Estop. apply argwhere_true in Estop.
    destruct Estop as (Hr & Hc & Hg).
    unfold cells_equal in Hg. rewrite get_map in Hg by assumption.
    destruct (Numpy.get t1 r c) as [v|e|] eqn:Ev; try discriminate.
    inversion Hg as [Hv]. apply Tile_eqb_eq in Hv.
    split; [|split; assumption].
    apply (A2 c r v Hc Hr Ev). congruence. }
  destruct Hstop as (Hstop & Hc0 & Hr0).
  assert (Hs0 : fill_valid (cells_equal FLOOR t) [] (sx, sy) = true).
  { exact (proj1 (proj1 (Hreach _) Hstop)). }
  assert (Hstart : In (sx, sy) reach).
  { apply Hreach. split; [exact Hs0 | apply walk_here]. }
  (* the two writes *)
  assert (B2 : forall x y, In (x, y) reach ->
                 exists v, Numpy.get t2 y x = Ok v /\ v <> WALL).
  { intros x y Hin. destruct (A1 x y Hin) as [_ Hg].
    destruct (set_get _ _ _ _ _ E2) as (_ & _ & _ & _ & Hread).
    destruct (Hread _ _ _ Hg) as [H|[H _]]; eexists; (split; [exact H | discriminate]). }
  assert (C2 : forall x y v, 0 <= x -> 0 <= y ->
                 Numpy.get t2 y x = Ok v -> v <> WALL -> In (x, y) reach).
  { intros x y v Hx Hy Hv Hw.
    destruct (set_get_back _ _ _ _ _ _ _ _ E2 Hv) as (t0 & Ht0 & [->|[_ Hold]]).
    - exact (A2 x y t0 Hx Hy Ht0 Hw).
    - destruct (A1 sx sy Hstart) as [_ Hg]. rewrite Hg in Hold.
      inversion Hold; subst t0. apply (A2 x y FLOOR Hx Hy Ht0). discriminate. }
  assert (B3 : forall x y, In (x, y) reach ->
                 exists v, Numpy.get t3 y x = Ok v /\ v <> WALL).
  { intros x y Hin. destruct (B2 x y Hin) as (v & Hg & Hv).
    destruct (set_get _ _ _ _ _ E3) as (_ & _ & _ & _ & Hread).
    destruct (Hread _ _ _ Hg) as [H|[H _]]; eexists; (split; [exact H|]);
      [exact Hv | discriminate]. }
  assert (C3 : forall x y v, 0 <= x -> 0 <= y ->
                 Numpy.get t3 y x = Ok v -> v <> WALL -> In (x, y) reach).
  { intros x y v Hx Hy Hv Hw.
    destruct (set_get_back _ _ _ _ _ _ _ _ E3 Hv) as (t0 & Ht0 & [->|[_ Hold]]).
    - exact (C2 x y t0 Hx Hy Ht0 Hw).
    - destruct (B2 c r Hstop) as (v2 & Hg & Hv2). rewrite Hg in Hold.
      inversion Hold; subst t0. exact (C2 x y v2 Hx Hy Ht0 Hv2). }
  (* the second fill enters the cells of the first *)
  assert (Hshape : shape_w (map (map is_walkable) t3) = shape_w (cells_equal FLOOR t)
                   /\ shape_h (map (map is_walkable) t3) = shape_h (cells_equal FLOOR t)).
  { apply shape_of_lengths. unfold cells_equal. rewrite !mask_shape.
    destruct (set_get _ _ _ _ _ E2) as (_ & S2 & _).
    destruct (set_get _ _ _ _ _ E3) as (_ & S3 & _).
    congruence. }
  destruct Hshape as [Hw Hh].
  assert (V3 : forall p, fill_valid (map (map is_walkable) t3) [] p = true <-> In p reach).
  { intros [x y]. rewrite valid_tiles. split.
    - intros [[Hx Hy] [v [Hv Hf]]]. apply (C3 x y v); try lia; [exact Hv|].
      intros ->. discriminate Hf.
    - intros Hin. destruct (A1 x y Hin) as [Hb _]. rewrite Hw, Hh.
      split; [exact Hb|].
      destruct (B3 x y Hin) as (v & Hg & Hv). exists v. split; [exact Hg|].
      destruct v; try reflexivity. congruence. }
  destruct (flood_fill_cells (map (map is_walkable) t3) (sx, sy) [])
    as (cells & Hfill3 & _ & Hvalid3 & Hcells).
  exists cells. split; [exact Hfill3|].
  assert (Hwalk : forall p, walk (cells_equal FLOOR t) [] (sx, sy) p ->
                            walk (map (map is_walkable) t3) [] (sx, sy) p).
  { intros p Hp. induction Hp as [|b q Hb IH Hq Hqv]; [apply walk_here|].
    apply (walk_step _ _ _ b q IH Hq). apply V3. apply Hreach.
    split; [exact Hs0|]. exact (walk_step _ _ _ b q Hb Hq Hqv). }
  intros x y tile Hx Hy Htile. split.
  - intros Hne. apply Hcells. split; [apply V3; exact Hstart|].
    apply Hwalk. apply (proj1 (Hreach _)). exact (C3 x y tile Hx Hy Htile Hne).
  - intros Hin.
    pose proof (proj1 (Forall_forall _ _) Hvalid3 _ Hin) as Hv.
    apply valid_tiles in Hv. destruct Hv as [_ [v [Hv Hf]]].
    rewrite Htile in Hv. inversion Hv; subst v. intros ->. discriminate Hf.
Qed.

(** X28.  In a map that [_generate_caves] returns, the tiles that are not walls
    are the cells that [MapData.reachable] finds from the start: the cave
    is one piece. *)
Theorem caves_are_connected (g : MapGenerator R) :
  match _generate_caves R g with
  | Ok (m, _) =>
      exists cells,
        reachable m (start m) [] = Ok cells
        /\ forall x y tile,
             0 <= x -> 0 <= y -> tile_at m x y = Ok tile ->
             (tile <> WALL <-> In (x, y) cells)
  | Raise _ => True
  | OutOfFuel => True
  end.
Proof.
  destruct (_generate_caves R g) as [[m g']|e|] eqn:E; try exact I.
  unfold _generate_caves in E.
  destruct (cave_automaton R g) as [[t st]|e|]; cbn [obind] in E; try discriminate.
  exact (finish_caves_connected g g' t st m E).
Qed.

End CaveFacts.

(** ** Lines: [utils.bresenham] *)

Section BresenhamFacts.
Import Utils Mapgen.

Variables x1 y1 a b sx sy : Z.
Hypothesis a_nonneg : 0 <= a.
Hypothesis b_nonneg : 0 <= b.
Hypothesis sx_unit : sx = 1 \/ sx = -1.
Hypothesis sy_unit : sy = 1 \/ sy = -1.

Lemma boxed_step (x y x' y' p q : Z) (l : list pos) :
  x1 = x + sx * p -> y1 = y + sy * q -> 0 <= p -> 0 <= q ->
  (x' = x \/ (x' = x + sx /\ 1 <= p)) -> (y' = y \/ (y' = y + sy /\ 1 <= q)) ->
  Forall (in_box (x', y') (x1, y1)) l -> Forall (in_box (x, y) (x1, y1)) ((x, y) :: l).
Proof.
  intros Hx Hy Hp Hq Hx' Hy' Hl. constructor.
  - unfold in_box. cbn [fst snd]. lia.
  - apply (Forall_impl _ (P:=in_box (x', y') (x1, y1))); [|exact Hl].
    intros [cx cy]. unfold in_box. cbn [fst snd].
    destruct sx_unit as [-> | ->], sy_unit as [-> | ->]; lia.
Qed.

(** The flat case: the line is at least as wide as it is high, and every
    round steps along x. *)
Lemma bresenham_loop_wide (n : nat) :
  b <= a ->
  forall (fuel : nat) (path : list pos) (x y p q err : Z),
    n = Z.to_nat p -> (n <= fuel)%nat ->
    0 <= p <= a -> 0 <= q <= b ->
    x1 = x + sx * p -> y1 = y + sy * q ->
    err = a - b + b * p - a * q -> - b <= 2 * err ->
    exists init,
      bresenham_loop fuel x1 y1 a (- b) sx sy path x y err
      = Ok (path ++ (init ++ [(x1, y1)]))
      /\ List.length init = n
      /\ hd (x1, y1) init = (x, y)
      /\ king_chain init (x1, y1)
      /\ Forall (in_box (x, y) (x1, y1)) init.
Proof.
  intros Hab. induction n as [|n IH]; intros fuel path x y p q err Hn Hfuel Hp Hq Hx Hy He Hinv.
  - assert (p = 0) by lia. subst p.
    assert (q = 0) by nia. subst q.
    assert (x = x1) by lia. assert (y = y1) by lia. subst x y.
    exists []. destruct fuel; cbn [bresenham_loop]; rewrite !Z.eqb_refl; cbn [andb app];
      repeat split; constructor.
  - assert (Hp1 : 1 <= p) by lia.
    assert (Hne : (x =? x1) = false).
    { apply Z.eqb_neq. destruct sx_unit as [-> | ->]; lia. }
    destruct fuel as [|fuel]; [lia|].
    cbn [bresenham_loop]. rewrite Hne. cbn [andb].
    destruct (Z.leb_spec (- b) (2 * err)) as [_|Hc]; [|lia].
    destruct (Z.leb_spec (2 * err) a) as [Hy_step|Hy_stay].
    + assert (Hq1 : 1 <= q) by nia.
      destruct (IH fuel (path ++ [(x, y)]) (x + sx) (y + sy) (p - 1) (q - 1) (err + - b + a))
        as (init & Hloop & Hlen & Hhd & Hchain & Hbox); try lia.
      * exists ((x, y) :: init). rewrite Hloop, <- app_assoc. cbn [app List.length hd].
        split; [reflexivity|]. split; [lia|]. split; [reflexivity|].
        split.
        { cbn [king_chain]. split; [|exact Hchain].
          destruct init as [|c rest]; cbn [hd] in Hhd; rewrite Hhd;
            unfold chebyshev; cbn [fst snd];
          destruct sx_unit as [-> | ->], sy_unit as [-> | ->]; lia. }
        apply (boxed_step x y (x + sx) (y + sy) p q); try lia; exact Hbox.
    + destruct (IH fuel (path ++ [(x, y)]) (x + sx) y (p - 1) q (err + - b))
        as (init & Hloop & Hlen & Hhd & Hchain & Hbox); try lia.
      * exists ((x, y) :: init). rewrite Hloop, <- app_assoc. cbn [app List.length hd].
        split; [reflexivity|]. split; [lia|]. split; [reflexivity|].
        split.
        { cbn [king_chain]. split; [|exact Hchain].
          destruct init as [|c rest]; cbn [hd] in Hhd; rewrite Hhd;
            unfold chebyshev; cbn [fst snd];
          destruct sx_unit as [-> | ->]; lia. }
        apply (boxed_step x y (x + sx) y p q); try lia; exact Hbox.
Qed.

(** The steep case: the line is at least as high as it is wide, and every
    round steps along y. *)
Lemma bresenham_loop_tall (n : nat) :
  a <= b ->
  forall (fuel : nat) (path : list pos) (x y p q err : Z),
    n = Z.to_nat q -> (n <= fuel)%nat ->
    0 <= p <= a -> 0 <= q <= b ->
    x1 = x + sx * p -> y1 = y + sy * q ->
    err = a - b + b * p - a * q -> 2 * err <= a ->
    exists init,
      bresenham_loop fuel x1 y1 a (- b) sx sy path x y err
      = Ok (path ++ (init ++ [(x1, y1)]))
      /\ List.length init = n
      /\ hd (x1, y1) init = (x, y)
      /\ king_chain init (x1, y1)
      /\ Forall (in_box (x, y) (x1, y1)) init.
Proof.
  intros Hab. induction n as [|n IH]; intros fuel path x y p q err Hn Hfuel Hp Hq Hx Hy He Hinv.
  - assert (q = 0) by lia. subst q.
    assert (p = 0) by nia. subst p.
    assert (x = x1) by lia. assert (y = y1) by lia. subst x y.
    exists []. destruct fuel; cbn [bresenham_loop]; rewrite !Z.eqb_refl; cbn [andb app];
      repeat split; constructor.
  - assert (Hq1 : 1 <= q) by lia.
    assert (Hne : (y =? y1) = false).
    { apply Z.eqb_neq. destruct sy_unit as [-> | ->]; lia. }
    destruct fuel as [|fuel]; [lia|].
    cbn [bresenham_loop]. rewrite Hne, andb_false_r.
    destruct (Z.leb_spec (- b) (2 * err)) as [Hx_step|Hx_stay].
    + assert (Hp1 : 1 <= p) by nia.
      destruct (Z.leb_spec (2 * err) a) as [_|Hc]; [|lia].
      destruct (IH fuel (path ++ [(x, y)]) (x + sx) (y + sy) (p - 1) (q - 1) (err + - b + a))
        as (init & Hloop & Hlen & Hhd & Hchain & Hbox); try lia.
      exists ((x, y) :: init). rewrite Hloop, <- app_assoc. cbn [app List.length hd].
      split; [reflexivity|]. split; [lia|]. split; [reflexivity|].
      split.
      { cbn [king_chain]. split; [|exact Hchain].
        destruct init as [|c rest]; cbn [hd] in Hhd; rewrite Hhd;
          unfold chebyshev; cbn [fst snd];
          destruct sx_unit as [-> | ->], sy_unit as [-> | ->]; lia. }
      apply (boxed_step x y (x + sx) (y + sy) p q); try lia; exact Hbox.
    + destruct (Z.leb_spec (2 * err) a) as [_|Hc]; [|lia].
      destruct (IH fuel (path ++ [(x, y)]) x (y + sy) p (q - 1) (err + a))
        as (init & Hloop & Hlen & Hhd & Hchain & Hbox); try lia.
      exists ((x, y) :: init). rewrite Hloop, <- app_assoc. cbn [app List.length hd].
      split; [reflexivity|]. split; [lia|]. split; [reflexivity|].
      split.
      { cbn [king_chain]. split; [|exact Hchain].
        destruct init as [|c rest]; cbn [hd] in Hhd; rewrite Hhd;
          unfold chebyshev; cbn [fst snd];
          destruct sy_unit as [-> | ->]; lia. }
      apply (boxed_step x y x (y + sy) p q); try lia; exact Hbox.
Qed.

End BresenhamFacts.

Section LineResults.
Import Utils Mapgen.

(** X29.  [bresenham] always ends.  The line begins with the first cell and
    ends with the second, goes by king moves, one for each unit of the
    larger of the two distances, and stays in the box the two cells
    span. *)
Theorem bresenham_line (x0 y0 x1 y1 : Z) :
  exists path,
    bresenham x0 y0 x1 y1 = Ok (path ++ [(x1, y1)])
    /\ Z.of_nat (List.length path) = chebyshev (x0, y0) (x1, y1)
    /\ hd (x1, y1) path = (x0, y0)
    /\ king_chain path (x1, y1)
    /\ Forall (in_box (x0, y0) (x1, y1)) path.
Proof.
  unfold bresenham. cbv zeta.
  set (a := Z.abs (x1 - x0)). set (b := Z.abs (y1 - y0)).
  set (sx := if x0 <? x1 then 1 else -1). set (sy := if y0 <? y1 then 1 else -1).
  assert (Ha : 0 <= a) by (unfold a; lia).
  assert (Hb : 0 <= b) by (unfold b; lia).
  assert (Hsx : sx = 1 \/ sx = -1) by (unfold sx; destruct (x0 <? x1); auto).
  assert (Hsy : sy = 1 \/ sy = -1) by (unfold sy; destruct (y0 <? y1); auto).
  assert (Hx : x1 = x0 + sx * a).
  { unfold sx, a. destruct (Z.ltb_spec x0 x1); lia. }
  assert (Hy : y1 = y0 + sy * b).
  { unfold sy, b. destruct (Z.ltb_spec y0 y1); lia. }
  assert (Hcheb : chebyshev (x0, y0) (x1, y1) = Z.max a b).
  { unfold chebyshev, a, b. cbn [fst snd]. lia. }
  rewrite Hcheb.
  destruct (Z.le_ge_cases b a) as [Hab|Hab].
  - destruct (bresenham_loop_wide x1 y1 a b sx sy Ha Hb Hsx Hsy (Z.to_nat a) Hab
                (Z.to_nat (a - - b)) [] x0 y0 a b (a + - b))
      as (init & Hloop & Hlen & Hhd & Hchain & Hbox); try lia.
    exists init. cbn [app] in Hloop.
    split; [exact Hloop|]. split; [lia|]. split; [exact Hhd|]. split; assumption.
  - destruct (bresenham_loop_tall x1 y1 a b sx sy Ha Hb Hsx Hsy (Z.to_nat b) Hab
                (Z.to_nat (a - - b)) [] x0 y0 a b (a + - b))
      as (init & Hloop & Hlen & Hhd & Hchain & Hbox); try lia.
    exists init. cbn [app] in Hloop.
    split; [exact Hloop|]. split; [lia|]. split; [exact Hhd|]. split; assumption.
Qed.

End LineResults.

(** ** What [Brain.decide] returns *)

Section DecideFacts.
Import Utils Mapgen Components Path AI.
Variable R : PyRandom.generator.
Variable dijkstra_flow : MapData -> list pos -> outcome (Numpy.array flow_value).

Ltac aimed :=
  unfold well_aimed; cbn [action_type target In];
  repeat split; intros; try discriminate; try reflexivity;
  try (intuition discriminate); auto 10.

Lemma step_along_aimed (actor : Position) (m : MapData) (here player_pos : pos)
      (st : PyRandom.state R) :
  match step_along R m here player_pos st with
  | Ok (action, st') => st' = st /\ well_aimed actor player_pos action
  | _ => True
  end.
Proof.
  unfold step_along.
  destruct (astar_path m here player_pos) as [path|e|]; cbn [obind]; try exact I.
  destruct (1 <? Numpy.len path).
  - destruct (list_get path 1) as [p|e|]; cbn [obind]; try exact I.
    split; [reflexivity | aimed].
  - split; [reflexivity | aimed].
Qed.

(** X30.  [Brain.decide] draws from the generator only for a boss at half its
    HP or less, and then once.  An archetype that is none of the six
    waits.  Attack, summon and shockwave aim at the player, a trap is set
    where the actor stands, a move has a target, and enrage and wait have
    none. *)
Theorem decide_draws_for_boss_only (st : PyRandom.state R) (archetype : string)
        (actor : Position) (stats : Stats) (m : MapData) (player_pos : pos) :
  (existsb (String.eqb archetype)
           ["brute"; "skirmisher"; "ranged"; "summoner"; "sapper"; "boss"]%string = false ->
   decide R dijkstra_flow st archetype actor stats m player_pos
   = Ok (mkAIAction "wait" None, st))
  /\ match decide R dijkstra_flow st archetype actor stats m player_pos with
     | Ok (action, st') =>
         st' = (if String.eqb archetype "boss" && (hp stats <=? max_hp stats / 2)
                then snd (PyRandom.random R st) else st)
         /\ well_aimed actor player_pos action
     | _ => True
     end.
Proof.
  split.
  { cbn [existsb]. intros H.
    repeat (apply orb_false_elim in H; destruct H as [? H]).
    unfold decide. cbv zeta.
    repeat match goal with
           | Hs : String.eqb archetype _ = false |- _ => rewrite Hs; clear Hs
           end.
    reflexivity. }
  unfold decide. cbv zeta.
  set (here := (pos_x actor, pos_y actor)).
  destruct (String.eqb_spec archetype "brute") as [->|_].
  { change (String.eqb "brute" "boss") with false. cbn [andb].
    destruct (manhattan here player_pos <=? 1); [split; [reflexivity | aimed]|].
    apply step_along_aimed. }
  destruct (String.eqb_spec archetype "skirmisher") as [->|_].
  { change (String.eqb "skirmisher" "boss") with false. cbn [andb].
    destruct ((2 <=? manhattan here player_pos) && (manhattan here player_pos <=? 3));
      [split; [reflexivity | aimed]|].
    destruct (manhattan here player_pos <? 2); [split; [reflexivity | aimed]|].
    apply step_along_aimed. }
  destruct (String.eqb_spec archetype "ranged") as [->|_].
  { change (String.eqb "ranged" "boss") with false. cbn [andb].
    destruct (4 <=? manhattan here player_pos); [split; [reflexivity | aimed]|].
    destruct (astar_path m here player_pos) as [path|e|]; cbn [obind]; try exact I.
    destruct (1 <? Numpy.len path); [|split; [reflexivity | aimed]].
    destruct (list_get path _) as [p|e|]; cbn [obind]; try exact I.
    split; [reflexivity | aimed]. }
  destruct (String.eqb_spec archetype "summoner") as [->|_].
  { change (String.eqb "summoner" "boss") with false. cbn [andb].
    destruct (4 <? manhattan here player_pos); [split; [reflexivity | aimed]|].
    destruct (1 <? manhattan here player_pos).
    - destruct (astar_path m here player_pos) as [path|e|]; cbn [obind]; try exact I.
      destruct (list_get path 1) as [p|e|]; cbn [obind]; try exact I.
      split; [reflexivity | aimed].
    - cbn [obind]. split; [reflexivity | aimed]. }
  destruct (String.eqb_spec archetype "sapper") as [->|_].
  { change (String.eqb "sapper" "boss") with false. cbn [andb].
    destruct (dijkstra_flow m [player_pos]) as [flow|e|]; cbn [obind]; try exact I.
    destruct (Numpy.get flow (pos_y actor) (pos_x actor)) as [c|e|]; cbn [obind]; try exact I.
    destruct (best_neighbour m flow here c (cardinal here)) as [[best cost]|e|];
      cbn [obind]; try exact I.
    destruct (negb (pos_eqb best here)); split; try reflexivity; aimed. }
  destruct (String.eqb_spec archetype "boss") as [->|_].
  { cbn [andb].
    destruct (hp stats <=? max_hp stats / 2).
    - destruct (PyRandom.random R st) as [u st1]. cbn [snd].
      destruct (Qlt_le_dec u (3 # 10)); [split; [reflexivity | aimed]|].
      destruct (manhattan here player_pos <=? 2); [split; [reflexivity | aimed]|].
      apply step_along_aimed.
    - destruct (manhattan here player_pos <=? 2); [split; [reflexivity | aimed]|].
      apply step_along_aimed. }
  cbn [andb]. split; [reflexivity | aimed].
Qed.

End DecideFacts.
